(** * Feedarr: cache store, RSS materialiser and refresh scheduler

    A shallow embedding of
      - class [Database] of [src/config/database.js],
      - class [ApiClient] of [src/api/services/apiClient.js] and class
        [Scheduler], which follows it there,
      - class [RSSGenerator] ([api/services/rssGenerator]),
    together with the properties of the feed synchronisation engine that
    the specification states about them.

    Conventions of the embedding.
      - JavaScript values are JSON values ([json]); [undefined] and [null]
        are both [JNull]: every place where this program reads a possibly
        missing field tests it for truthiness before using it, and the two
        behave alike there.  The numbers of a payload are integers ([Z]);
        the one place where the program computes with them ([progress])
        does so on doubles, as the program does.
      - A date is its [getTime()] value in milliseconds ([Z]); the ISO
        strings that the database columns hold are that number.
      - An asynchronous method is a computation over the explicit world
        state [State] that ends normally or throws ([M]); [await] is
        sequencing.  The clock does not move while a method runs;
        [advance] lets time pass between two calls.
      - The database is initialised, as the server does before it starts
        the scheduler; an operation on it or on the feeds directory fails
        where the environment says so ([fault]), and a write of a document
        that fails leaves of it what the environment says ([written]).
      - What the JavaScript runtime and npm packages provide but this
        repository does not define ([JSON.stringify], [JSON.parse],
        [Date.prototype.toLocaleDateString], the serialiser of the [rss]
        package ...) is the interface [Runtime]. *)

From Stdlib Require Import ZArith String Ascii List.
From stdpp Require Import base option list gmap strings pretty.

Set Warnings "-register-all".
Local Open Scope Z_scope.
Local Open Scope string_scope.

(** ** JavaScript values and the primitive operations the program uses *)

Inductive json : Type :=
| JNull
| JBool (b : bool)
| JNum (n : Z)
| JStr (s : string)
| JArr (items : list json)
| JObj (fields : list (string * json)).

(** How an evaluation ends: with a value, or with a thrown error of which
    only [error.message] is ever read. *)
Inductive completion (A : Type) : Type :=
| Normal (a : A)
| Throw (message : string).
Arguments Normal {A} a.
Arguments Throw {A} message.

Module JS.

(** [Boolean(v)]: the falsy values are [null], [undefined], [false], [0]
    and the empty string. *)
Definition truthy (v : json) : bool :=
  match v with
  | JNull => false
  | JBool b => b
  | JNum n => negb (Z.eqb n 0)
  | JStr s => negb (String.eqb s "")
  | JArr _ | JObj _ => true
  end.

(** [a || b] *)
Definition or (a b : json) : json := if truthy a then a else b.

(** [s || d] on strings *)
Definition or_str (s d : string) : string := if String.eqb s "" then d else s.

Fixpoint field (fs : list (string * json)) (k : string) : json :=
  match fs with
  | [] => JNull
  | (k', v) :: fs' => if String.eqb k' k then v else field fs' k
  end.

(** [v?.k], for the data property names this program reads: an own field
    of an object, [length] of an array or string, [undefined] otherwise. *)
Definition member (v : json) (k : string) : json :=
  match v with
  | JObj fs => field fs k
  | JArr l => if String.eqb k "length" then JNum (Z.of_nat (length l)) else JNull
  | JStr s => if String.eqb k "length" then JNum (Z.of_nat (String.length s)) else JNull
  | JNull | JBool _ | JNum _ => JNull
  end.

(** [v.k]: a TypeError on [null] and [undefined]. *)
Definition prop (v : json) (k : string) : completion json :=
  match v with
  | JNull => Throw ("Cannot read properties of null (reading '" +:+ k +:+ "')")
  | _ => Normal (member v k)
  end.

(** [String(v)], as a template literal applies it. *)
Fixpoint toString (v : json) : string :=
  match v with
  | JNull => "null"
  | JBool true => "true"
  | JBool false => "false"
  | JNum n => pretty n
  | JStr s => s
  | JArr l =>
      String.concat ","
        (map (fun x => match x with JNull => "" | _ => toString x end) l)
  | JObj _ => "[object Object]"
  end.

(** [Array.prototype.join]: [null] and [undefined] elements print as the
    empty string. *)
Definition join (sep : string) (l : list json) : string :=
  String.concat sep
    (map (fun x => match x with JNull => "" | _ => toString x end) l).

(** *** Numbers that are computed: IEEE 754 binary64

    A finite double is [m * 2^e] for two integers, with [|m| <= 2^53] and
    [-1074 <= e <= 971] when it comes out of an operation.  The sign of a
    zero is not kept: the program divides by a number it has read, and
    the integers have one zero, and [toFixed] prints a zero without
    sign. *)
Inductive double : Type :=
| Finite (m e : Z)
| Infinity (negative : bool)
| NaN.

(** [2^e] is [up e / dn e] *)
Definition up (e : Z) : Z := 2 ^ Z.max e 0.
Definition dn (e : Z) : Z := 2 ^ Z.max (- e) 0.

(** the integer nearest to [a / b], the even one on a tie ([0 <= a],
    [0 < b]) *)
Definition rne (a b : Z) : Z :=
  let q := a / b in
  let r := a mod b in
  if Z.ltb (2 * r) b then q
  else if Z.ltb b (2 * r) then q + 1
  else if Z.even q then q else q + 1.

(** the integer part of the binary logarithm of [n / d] ([0 < n],
    [0 < d]) *)
Definition ilog2 (n d : Z) : Z :=
  let l := Z.log2 n - Z.log2 d in
  if Z.leb (d * up l) (n * dn l) then l else l - 1.

(** the double nearest to [n / d] ([0 < n], [0 < d]): 53 significant
    bits, fewer below [2^-1022], infinity from [2^1024] on *)
Definition nearest (n d : Z) : double :=
  let e := Z.max (ilog2 n d - 52) (-1074) in
  let m := rne (n * dn e) (d * up e) in
  if Z.ltb 971 e || (Z.eqb e 971 && Z.eqb m (2 ^ 53)) then Infinity false
  else Finite m e.

(** the double nearest to [n / d] ([d <> 0]) *)
Definition round64 (n d : Z) : double :=
  if Z.eqb n 0 then Finite 0 0
  else
    match nearest (Z.abs n) (Z.abs d) with
    | Finite m e => Finite (Z.sgn n * Z.sgn d * m) e
    | Infinity _ => Infinity (Z.ltb (Z.sgn n * Z.sgn d) 0)
    | NaN => NaN
    end.

(** the number an integer of the payload is *)
Definition ofZ (n : Z) : double := round64 n 1.

(** [x - y] *)
Definition sub (x y : double) : double :=
  match x, y with
  | NaN, _ | _, NaN => NaN
  | Infinity a, Infinity b => if Bool.eqb a b then NaN else Infinity a
  | Infinity a, Finite _ _ => Infinity a
  | Finite _ _, Infinity b => Infinity (negb b)
  | Finite m1 e1, Finite m2 e2 =>
      round64 (m1 * up e1 * dn e2 - m2 * up e2 * dn e1) (dn e1 * dn e2)
  end.

(** [x * y] *)
Definition mul (x y : double) : double :=
  match x, y with
  | NaN, _ | _, NaN => NaN
  | Infinity a, Infinity b => Infinity (xorb a b)
  | Infinity a, Finite m _ | Finite m _, Infinity a =>
      if Z.eqb m 0 then NaN else Infinity (xorb a (Z.ltb m 0))
  | Finite m1 e1, Finite m2 e2 =>
      round64 (m1 * up e1 * (m2 * up e2)) (dn e1 * dn e2)
  end.

(** [x / y] *)
Definition div (x y : double) : double :=
  match x, y with
  | NaN, _ | _, NaN => NaN
  | Infinity _, Infinity _ => NaN
  | Infinity a, Finite m _ => Infinity (xorb a (Z.ltb m 0))
  | Finite _ _, Infinity _ => Finite 0 0
  | Finite m1 e1, Finite m2 e2 =>
      if Z.eqb m2 0 then
        (if Z.eqb m1 0 then NaN else Infinity (Z.ltb m1 0))
      else round64 (m1 * up e1 * dn e2) (dn e1 * (m2 * up e2))
  end.

(** the integer closest to ten times the magnitude of [num / den], the
    larger one on a tie ([den <> 0]) *)
Definition tenths (num den : Z) : Z :=
  (20 * Z.abs num + Z.abs den) / (2 * Z.abs den).

(** [x.toFixed(1)]: what is not finite prints as [String] prints it; a
    finite number prints its sign, then, from [10^21] on, what [String]
    prints, and below that the tenths nearest to its exact value, with
    one digit after the point *)
Definition toFixed1 (x : double) : string :=
  match x with
  | NaN => "NaN"
  | Infinity negative => if negative then "-Infinity" else "Infinity"
  | Finite m e =>
      let num := Z.abs m * up e in
      let den := dn e in
      (if Z.ltb m 0 then "-" else "")
        +:+ (if Z.leb (10 ^ 21 * den) num then toString (JNum (num / den))
             else
               let n := tenths num den in
               pretty (n / 10) +:+ "." +:+ pretty (n mod 10))
  end.

(** [s.replace(/c/g, by)] for a one-character pattern. *)
Fixpoint replaceAll (c : ascii) (by_ : string) (s : string) : string :=
  match s with
  | EmptyString => EmptyString
  | String a s' =>
      if Ascii.eqb a c then by_ +:+ replaceAll c by_ s'
      else String a (replaceAll c by_ s')
  end.

(** ['\n'] and the double quote *)
Definition nl : string := String (ascii_of_nat 10) EmptyString.
Definition dquote : ascii := ascii_of_nat 34.

End JS.

(** ** The runtime: what the program calls but does not define *)

(** A [Date] built by the program: [new Date(v)] of a payload value, which
    the program never inspects itself, or the current time. *)
Inductive js_date : Type :=
| DateOf (v : json)
| DateNow (t : Z).

(** [feed.item({...})] of the [rss] package. *)
Record rss_item : Type := RssItem {
  item_title : json;
  item_description : string;
  item_url : string;
  item_guid : string;
  item_date : js_date;
  item_categories : list json
}.

(** [new RSS({...})] with the items added to it. *)
Record rss_feed : Type := RssFeed {
  feed_title : string;
  feed_description : string;
  feed_url : string;
  site_url : string;
  image_url : json;
  author : string;
  managingEditor : string;
  webMaster : string;
  copyright : Z;
  language : string;
  feed_categories : list string;
  pubDate : Z;
  ttl : Z * Z;            (* the quotient num / den of the two numbers *)
  items : list rss_item
}.

Class Runtime : Type := {
  (** [JSON.stringify] on a payload, and [JSON.parse], which throws a
      SyntaxError ([None]) on text that is not JSON *)
  JSON_stringify : json -> string;
  JSON_parse : string -> option json;
  (** [new Date(v).toLocaleDateString()] *)
  toLocaleDateString : json -> string;
  (** [new Date(t).getFullYear()] *)
  getFullYear : Z -> Z;
  (** the ISO date ([toISOString().split('T')[0]]) of the day that
      [setDate(getDate() + days)] reaches from time [t] *)
  isoDateAfter : Z -> Z -> string;
  (** the number a string converts to where the program computes with it,
      [None] for NaN *)
  stringToNumber : string -> option Z;
  (** [feed.xml({ indent: true })] of the [rss] package; the time of
      serialisation is the [pubDate] of the feed, the clock standing
      still in between *)
  xml : rss_feed -> string
}.

(** ** The world the program runs in *)

(** What fixes a run from outside: the process environment, the upstream
    API, and which operations on the database and on the feeds directory
    fail. *)
Inductive op : Type :=
| CacheRead | CacheWrite | CacheDelete | MetaRead | MetaWrite | FileWrite | FileRead.

Record Env : Type := {
  (** [parseInt(process.env.RSS_CACHE_TTL)], [None] for NaN *)
  RSS_CACHE_TTL : option Z;
  (** [parseInt(process.env.FETCH_FREQUENCY)], [None] for NaN *)
  FETCH_FREQUENCY : option Z;
  (** [process.env.PORT], empty when unset *)
  PORT : string;
  (** the answer of the upstream API to a GET of a path with parameters:
      [response.data], or the error axios throws *)
  upstream : string -> list (string * json) -> completion json;
  (** [fault o key = Some msg]: operation [o] on the row of feed type [key]
      (on the file named [key]) throws an error with that message *)
  fault : op -> string -> option string;
  (** where a write of a file that fails does so: [None] when the file
      cannot be opened, [Some n] when the error comes after the file was
      opened and [n] characters were written *)
  written : string -> option nat
}.

(** Table [feed_cache] (migration 001), keyed by its primary key
    [feed_type]. *)
Record cache_row : Type := CacheRow {
  data : string;
  created_at : Z;
  updated_at : Z
}.

(** Table [feed_metadata], keyed by its primary key [feed_type]. *)
Record metadata_row : Type := MetadataRow {
  last_fetch : Z;
  item_count : json;
  status : string;
  error_message : option string;
  meta_updated_at : Z
}.

(** What the program did that an observer outside can count. *)
Inductive event : Type :=
| Requested (path : string) (params : list (string * json))
| Materialized (file : string).

(** A task of [node-cron]: its pattern, and whether it is started. *)
Record cron_task : Type := CronTask {
  pattern : string;
  running : bool
}.

Record State : Type := MkState {
  (** [Date.now()] *)
  clock : Z;
  feed_cache : gmap string cache_row;
  feed_metadata : gmap string metadata_row;
  (** the files of [feedsDir], by name *)
  feeds : gmap string string;
  (** oldest first *)
  trace : list event;
  (** the tasks [cron.schedule] has created, oldest first *)
  cron : list cron_task;
  (** [Scheduler.jobs]: job name to the task it holds *)
  jobs : gmap string nat;
  (** [Scheduler.lastFetchTimes] *)
  lastFetchTimes : gmap string Z;
  (** [Scheduler.fetchFrequency] *)
  fetchFrequency : Z
}.

Definition set_clock (t : Z) (s : State) : State :=
  MkState t (feed_cache s) (feed_metadata s) (feeds s) (trace s) (cron s)
          (jobs s) (lastFetchTimes s) (fetchFrequency s).
Definition set_feed_cache (c : gmap string cache_row) (s : State) : State :=
  MkState (clock s) c (feed_metadata s) (feeds s) (trace s) (cron s)
          (jobs s) (lastFetchTimes s) (fetchFrequency s).
Definition set_feed_metadata (m : gmap string metadata_row) (s : State) : State :=
  MkState (clock s) (feed_cache s) m (feeds s) (trace s) (cron s)
          (jobs s) (lastFetchTimes s) (fetchFrequency s).
Definition set_feeds (f : gmap string string) (s : State) : State :=
  MkState (clock s) (feed_cache s) (feed_metadata s) f (trace s) (cron s)
          (jobs s) (lastFetchTimes s) (fetchFrequency s).
Definition set_trace (t : list event) (s : State) : State :=
  MkState (clock s) (feed_cache s) (feed_metadata s) (feeds s) t (cron s)
          (jobs s) (lastFetchTimes s) (fetchFrequency s).
Definition set_cron (c : list cron_task) (s : State) : State :=
  MkState (clock s) (feed_cache s) (feed_metadata s) (feeds s) (trace s) c
          (jobs s) (lastFetchTimes s) (fetchFrequency s).
Definition set_jobs (j : gmap string nat) (s : State) : State :=
  MkState (clock s) (feed_cache s) (feed_metadata s) (feeds s) (trace s) (cron s)
          j (lastFetchTimes s) (fetchFrequency s).
Definition set_lastFetchTimes (l : gmap string Z) (s : State) : State :=
  MkState (clock s) (feed_cache s) (feed_metadata s) (feeds s) (trace s) (cron s)
          (jobs s) l (fetchFrequency s).

(** ** Computations: state passing with exceptions *)

Definition M (A : Type) : Type := State -> completion A * State.

Definition ret {A} (a : A) : M A := fun s => (Normal a, s).
Definition throw {A} (msg : string) : M A := fun s => (Throw msg, s).
Definition bind {A B} (m : M A) (k : A -> M B) : M B := fun s =>
  match m s with
  | (Normal a, s') => k a s'
  | (Throw msg, s') => (Throw msg, s')
  end.
(** [try { m } catch (error) { h error.message }] *)
Definition try_catch {A} (m : M A) (h : string -> M A) : M A := fun s =>
  match m s with
  | (Normal a, s') => (Normal a, s')
  | (Throw msg, s') => h msg s'
  end.
Definition gets {A} (f : State -> A) : M A := fun s => (Normal (f s), s).
Definition modify (f : State -> State) : M unit := fun s => (Normal tt, f s).
(** a pure evaluation that may throw *)
Definition lift {A} (c : completion A) : M A := fun s => (c, s).

Notation "'let*' x ':=' c1 'in' c2" := (bind c1 (fun x => c2))
  (at level 10, x pattern, c1 at level 100, c2 at level 200).
Notation "c1 ';;' c2" := (bind c1 (fun _ => c2))
  (at level 100, c2 at level 200, right associativity).

(** the state a computation leaves, and how it ends *)
Definition exec {A} (m : M A) (s : State) : State := snd (m s).
Definition outcome {A} (m : M A) (s : State) : completion A := fst (m s).

(** [l.push(x)] *)
Definition push {A} (x : A) (l : list A) : list A := (l ++ [x])%list.

(** the same sequencing for pure evaluations *)
Definition cbind {A B} (c : completion A) (k : A -> completion B) : completion B :=
  match c with
  | Normal a => k a
  | Throw msg => Throw msg
  end.
Notation "'let+' x ':=' c1 'in' c2" := (cbind c1 (fun x => c2))
  (at level 10, x pattern, c1 at level 100, c2 at level 200).

Fixpoint mapC {A B} (f : A -> completion B) (l : list A) : completion (list B) :=
  match l with
  | [] => Normal []
  | x :: l' => let+ y := f x in let+ ys := mapC f l' in Normal (y :: ys)
  end.

Section Program.
Context {R : Runtime} (env : Env).

(** [fault] makes the operation throw before it touches anything *)
Definition guard (o : op) (key : string) : M unit :=
  match fault env o key with
  | Some msg => throw msg
  | None => ret tt
  end.

(** [parseInt(v) || d]: NaN and 0 are falsy *)
Definition parseInt_or (v : option Z) (d : Z) : Z :=
  match v with
  | Some n => if Z.eqb n 0 then d else n
  | None => d
  end.

(** ** Class [Database] *)

(** [const cacheTTL = parseInt(process.env.RSS_CACHE_TTL) || 600000] *)
Definition cacheTTL : Z := parseInt_or (RSS_CACHE_TTL env) 600000.

Definition getCachedFeedData (feedType : string) : M json :=
  guard CacheRead feedType ;;
  let* result := gets (fun s => feed_cache s !! feedType) in
  match result with
  | Some result =>
      let* now := gets clock in
      let cacheAge := now - updated_at result in
      if Z.ltb cacheAge cacheTTL then
        match JSON_parse (data result) with
        | Some v => ret v
        | None => throw "Unexpected token in JSON"
        end
      else ret JNull
  | None => ret JNull
  end.

(** [insert(...).onConflict('feed_type').merge({data, updated_at})] *)
Definition setCachedFeedData (feedType : string) (payload : json) : M unit :=
  guard CacheWrite feedType ;;
  let* now := gets clock in
  modify (fun s =>
    let row :=
      match feed_cache s !! feedType with
      | Some old => CacheRow (JSON_stringify payload) (created_at old) now
      | None => CacheRow (JSON_stringify payload) now now
      end in
    set_feed_cache (<[feedType := row]> (feed_cache s)) s).

(** [feedType = null] is [None]; the empty string is falsy as well *)
Definition clearCachedFeedData (feedType : option string) : M unit :=
  match feedType with
  | Some k =>
      if String.eqb k "" then
        guard CacheDelete "" ;; modify (set_feed_cache ∅)
      else
        guard CacheDelete k ;;
        modify (fun s => set_feed_cache (delete k (feed_cache s)) s)
  | None => guard CacheDelete "" ;; modify (set_feed_cache ∅)
  end.

Definition getFeedMetadata (feedType : string) : M (option metadata_row) :=
  guard MetaRead feedType ;;
  gets (fun s => feed_metadata s !! feedType).

(** The object literal a caller passes to [setFeedMetadata]; a field the
    caller leaves out is [None], [JNull] or the empty string. *)
Record metadata : Type := Metadata {
  lastFetch : option Z;
  itemCount : json;
  md_status : string;
  errorMessage : string
}.

(** [insert(row).onConflict('feed_type').merge(row)]: the same five
    columns either way *)
Definition setFeedMetadata (feedType : string) (md : metadata) : M unit :=
  guard MetaWrite feedType ;;
  let* now := gets clock in
  modify (fun s =>
    let row :=
      MetadataRow
        (match lastFetch md with Some t => t | None => now end)
        (JS.or (itemCount md) (JNum 0))
        (JS.or_str (md_status md) "success")
        (if String.eqb (errorMessage md) "" then None else Some (errorMessage md))
        now in
    set_feed_metadata (<[feedType := row]> (feed_metadata s)) s).

(** ** Class [RSSGenerator] *)

(** [ToNumber]: a number is itself, a boolean 0 or 1, anything else the
    number its string reads as.  ([undefined] is NaN; [null] would be 0,
    but the program only converts fields it has found truthy.) *)
Definition toNumber (v : json) : option Z :=
  match v with
  | JNum n => Some n
  | JBool b => Some (if b then 1 else 0)
  | JNull => None
  | JStr _ | JArr _ | JObj _ => stringToNumber (JS.toString v)
  end.

(** [v > 0] *)
Definition gtZero (v : json) : bool :=
  match toNumber v with
  | Some n => Z.ltb 0 n
  | None => false
  end.

Definition localhost : string :=
  "http://localhost:" +:+ JS.or_str (PORT env) "3000".

Definition createBaseFeed (title description feedUrl : string) : M rss_feed :=
  let* now := gets clock in
  ret (RssFeed title description feedUrl localhost JNull
         "Feedarr" "Feedarr" "Feedarr" (getFullYear now) "en"
         ["Movies"; "Media"] now
         (match RSS_CACHE_TTL env with
          | Some n => if Z.eqb n 0 then (10, 1) else (n, 60000)
          | None => (10, 1)
          end)
         []).

Definition with_items (feed : rss_feed) (l : list rss_item) : rss_feed :=
  RssFeed (feed_title feed) (feed_description feed) (feed_url feed)
          (site_url feed) (image_url feed) (author feed)
          (managingEditor feed) (webMaster feed) (copyright feed)
          (language feed) (feed_categories feed) (pubDate feed) (ttl feed) l.

(** [fs.writeFile(path.join(this.feedsDir, name), text)]: the file is
    opened with flag [w], which empties it, and [text] is written to it.
    A write that fails leaves the file as it was when the open fails,
    and with the part of [text] that was written when the error comes
    later. *)
Definition writeFile (name text : string) : M unit :=
  match fault env FileWrite name with
  | None => modify (fun s => set_feeds (<[name := text]> (feeds s)) s)
  | Some msg =>
      match written env name with
      | None => throw msg
      | Some n =>
          modify (fun s => set_feeds (<[name := substring 0 n text]> (feeds s)) s) ;;
          throw msg
      end
  end.

Definition emit (e : event) : M unit :=
  modify (fun s => set_trace (push e (trace s)) s).

Definition escapeHtml (text : json) : completion string :=
  if negb (JS.truthy text) then Normal ""
  else
    match text with
    | JStr s =>
        Normal
          (JS.replaceAll "'" "&#39;"
            (JS.replaceAll JS.dquote "&quot;"
              (JS.replaceAll ">" "&gt;"
                (JS.replaceAll "<" "&lt;"
                  (JS.replaceAll "&" "&amp;" s)))))
    | _ => Throw "text.replace is not a function"
    end.

(** [parts.push(p)] when the condition holds *)
Definition push_if (c : bool) (p : string) (parts : list string) : list string :=
  if c then push p parts else parts.

Definition buildMovieDescription (movie : json) : completion string :=
  let+ overview := JS.prop movie "overview" in
  let+ parts :=
    if JS.truthy overview then
      let+ e := escapeHtml overview in
      Normal ["<p><strong>Overview:</strong> " +:+ e +:+ "</p>"]
    else Normal [] in
  let year := JS.member movie "year" in
  let parts := push_if (JS.truthy year)
    ("<p><strong>Year:</strong> " +:+ JS.toString year +:+ "</p>") parts in
  let status := JS.member movie "status" in
  let parts := push_if (JS.truthy status)
    ("<p><strong>Status:</strong> " +:+ JS.toString status +:+ "</p>") parts in
  let inCinemas := JS.member movie "inCinemas" in
  let parts := push_if (JS.truthy inCinemas)
    ("<p><strong>In Cinemas:</strong> " +:+ toLocaleDateString inCinemas +:+ "</p>") parts in
  let digitalRelease := JS.member movie "digitalRelease" in
  let parts := push_if (JS.truthy digitalRelease)
    ("<p><strong>Digital Release:</strong> " +:+ toLocaleDateString digitalRelease +:+ "</p>") parts in
  let physicalRelease := JS.member movie "physicalRelease" in
  let parts := push_if (JS.truthy physicalRelease)
    ("<p><strong>Physical Release:</strong> " +:+ toLocaleDateString physicalRelease +:+ "</p>") parts in
  let genres := JS.member movie "genres" in
  let+ parts :=
    if JS.truthy genres && gtZero (JS.member genres "length") then
      match genres with
      | JArr l =>
          Normal (push ("<p><strong>Genres:</strong> " +:+ JS.join ", " l +:+ "</p>") parts)
      | _ => Throw "movie.genres.join is not a function"
      end
    else Normal parts in
  Normal (JS.or_str (String.concat JS.nl parts) "No additional information available.").

Definition buildNotificationDescription (notification : json) : completion string :=
  let+ implementationName := JS.prop notification "implementationName" in
  let+ e := escapeHtml (JS.or implementationName (JStr "Unknown")) in
  let parts := ["<p><strong>Implementation:</strong> " +:+ e +:+ "</p>"] in
  let fields := JS.member notification "fields" in
  let parts := push_if (JS.truthy fields && gtZero (JS.member fields "length"))
    ("<p><strong>Configuration Fields:</strong> "
       +:+ JS.toString (JS.member fields "length") +:+ " fields configured</p>") parts in
  let configContract := JS.member notification "configContract" in
  let+ parts :=
    if JS.truthy configContract then
      let+ e := escapeHtml configContract in
      Normal (push ("<p><strong>Contract:</strong> " +:+ e +:+ "</p>") parts)
    else Normal parts in
  Normal (JS.or_str (String.concat JS.nl parts) "Notification configuration details.").

(** [((size - sizeleft) / size * 100).toFixed(1)] *)
Definition progress (size sizeleft : json) : string :=
  match toNumber size, toNumber sizeleft with
  | Some a, Some b =>
      JS.toFixed1
        (JS.mul (JS.div (JS.sub (JS.ofZ a) (JS.ofZ b)) (JS.ofZ a)) (JS.ofZ 100))
  | _, _ => "NaN"
  end.

Definition buildQueueDescription (item : json) : completion string :=
  let+ m := JS.prop item "movie" in
  let movie := JS.or m (JObj []) in
  let parts :=
    ["<p><strong>Status:</strong> "
       +:+ JS.toString (JS.or (JS.member item "status") (JStr "Unknown")) +:+ "</p>"] in
  let size := JS.member item "size" in
  let sizeleft := JS.member item "sizeleft" in
  let parts := push_if (JS.truthy size && JS.truthy sizeleft)
    ("<p><strong>Progress:</strong> " +:+ progress size sizeleft +:+ "%</p>") parts in
  let quality := JS.member item "quality" in
  let parts := push_if (JS.truthy quality)
    ("<p><strong>Quality:</strong> "
       +:+ JS.toString (JS.or (JS.member (JS.member quality "quality") "name") (JStr "Unknown"))
       +:+ "</p>") parts in
  let protocol := JS.member item "protocol" in
  let parts := push_if (JS.truthy protocol)
    ("<p><strong>Protocol:</strong> " +:+ JS.toString protocol +:+ "</p>") parts in
  let indexer := JS.member item "indexer" in
  let parts := push_if (JS.truthy indexer)
    ("<p><strong>Indexer:</strong> " +:+ JS.toString indexer +:+ "</p>") parts in
  let overview := JS.member movie "overview" in
  let+ parts :=
    if JS.truthy overview then
      let+ e := escapeHtml overview in
      Normal (push ("<p><strong>Movie Overview:</strong> " +:+ e +:+ "</p>") parts)
    else Normal parts in
  Normal (JS.or_str (String.concat JS.nl parts) "Queue item details.").

(** [categories.push(...movie.genres.slice(0, 3))]: the first three
    elements of an array, the first three characters of a string *)
Definition getMovieCategories (movie : json) : completion (list json) :=
  let+ status := JS.prop movie "status" in
  let categories := [JStr "Movie"] in
  let categories := if JS.truthy status then push status categories else categories in
  let genres := JS.member movie "genres" in
  if JS.truthy genres && gtZero (JS.member genres "length") then
    match genres with
    | JArr l => Normal (categories ++ take 3 l)%list
    | JStr s =>
        Normal (categories ++
                  map (fun c => JStr (String c EmptyString))
                      (list_ascii_of_string (substring 0 3 s)))%list
    | _ => Throw "movie.genres.slice is not a function"
    end
  else Normal categories.

(** [movie.imdbId ? `https://www.imdb.com/title/${movie.imdbId}` : '#'] *)
Definition imdbUrl (movie : json) : string :=
  let imdbId := JS.member movie "imdbId" in
  if JS.truthy imdbId then "https://www.imdb.com/title/" +:+ JS.toString imdbId
  else "#".

(** [`prefix-${record.id || Date.now()}`] *)
Definition guidOf (prefix : string) (record : json) (now : Z) : string :=
  prefix +:+ "-" +:+ JS.toString (JS.or (JS.member record "id") (JNum now)).

(** [new Date(v || new Date())] *)
Definition dateOr (v : json) (now : Z) : js_date :=
  if JS.truthy v then DateOf v else DateNow now.

(** the body of the [forEach] of [generateCalendarFeed] *)
Definition calendarItem (now : Z) (movie : json) : completion rss_item :=
  let+ digitalRelease := JS.prop movie "digitalRelease" in
  let releaseDate :=
    JS.or digitalRelease
      (JS.or (JS.member movie "physicalRelease") (JS.member movie "inCinemas")) in
  let+ description := buildMovieDescription movie in
  let+ categories := getMovieCategories movie in
  Normal (RssItem (JS.or (JS.member movie "title") (JStr "Unknown Movie"))
                  description
                  (imdbUrl movie)
                  (guidOf "calendar" movie now)
                  (dateOr releaseDate now)
                  categories).

(** the body of the [forEach] of [generateNotificationFeed] *)
Definition notificationItem (now : Z) (notification : json) : completion rss_item :=
  let+ description := buildNotificationDescription notification in
  Normal (RssItem (JS.or (JS.member notification "name") (JStr "System Notification"))
                  description
                  "#"
                  (guidOf "notification" notification now)
                  (DateNow now)
                  (List.filter JS.truthy
                     [JStr "Notification";
                      JS.or (JS.member notification "implementationName") (JStr "System")])).

(** the body of the [forEach] of [generateQueueFeed] *)
Definition queueItem (now : Z) (item : json) : completion rss_item :=
  let+ description := buildQueueDescription item in
  let movie := JS.or (JS.member item "movie") (JObj []) in
  Normal (RssItem (JStr (JS.toString (JS.or (JS.member movie "title") (JStr "Unknown Movie"))
                           +:+ " - "
                           +:+ JS.toString (JS.or (JS.member item "status") (JStr "Unknown Status"))))
                  description
                  (imdbUrl movie)
                  (guidOf "queue" item now)
                  (dateOr (JS.member item "added") now)
                  (List.filter JS.truthy
                     [JStr "Queue"; JS.or (JS.member item "status") (JStr "Unknown")])).

(** [if (d && Array.isArray(d)) d.forEach(body)], collecting what the body
    hands to [feed.item] *)
Definition forEachItem (body : json -> completion rss_item) (d : json)
  : completion (list rss_item) :=
  match d with
  | JArr l => mapC body l
  | _ => Normal []
  end.

(** What is common to the three generators: the base feed, one item per
    record, the serialised document written to [file] and returned. *)
Definition generateFeed (title description path file : string)
    (body : Z -> json -> completion rss_item) (d : json) : M string :=
  emit (Materialized file) ;;
  let* feed := createBaseFeed title description (localhost +:+ path) in
  let* now := gets clock in
  let* l := lift (forEachItem (body now) d) in
  let text := xml (with_items feed l) in
  writeFile file text ;;
  ret text.

Definition generateCalendarFeed (calendarData : json) : M string :=
  generateFeed "Calendar Feed" "Upcoming movies from calendar"
               "/rss/calendar" "calendar.xml" calendarItem calendarData.

Definition generateNotificationFeed (notificationData : json) : M string :=
  generateFeed "Notifications Feed" "System notifications and alerts"
               "/rss/notification" "notification.xml" notificationItem notificationData.

Definition generateQueueFeed (queueData : json) : M string :=
  generateFeed "Queue Feed" "Download queue status and progress"
               "/rss/queue" "queue.xml" queueItem queueData.

(** [readFeed]: the file when [feedExists], else [null] *)
Definition readFeed (feedType : string) : M (option string) :=
  guard FileRead (feedType +:+ ".xml") ;;
  gets (fun s => feeds s !! (feedType +:+ ".xml")).

(** ** Class [ApiClient] *)

(** [this.client.get(path, { params })]: one GET, [response.data] or the
    error rethrown by the interceptor and by the method's own [catch] *)
Definition client_get (path : string) (params : list (string * json)) : M json :=
  emit (Requested path params) ;;
  lift (upstream env path params).

Definition getCalendar (params : list (string * json)) : M json :=
  client_get "/calendar" params.

Definition getNotifications : M json :=
  client_get "/notification" [].

Definition getQueue (params : list (string * json)) : M json :=
  client_get "/queue" params.

(** ** Class [Scheduler] *)

Definition updateCalendarFeed : M unit :=
  try_catch
    (let* cachedData := getCachedFeedData "calendar" in
     let* calendarData :=
       if negb (JS.truthy cachedData) then
         let* now := gets clock in
         let params :=
           [("end", JStr (isoDateAfter 30 now)); ("unmonitored", JBool false)] in
         let* calendarData := getCalendar params in
         setCachedFeedData "calendar" calendarData ;;
         ret calendarData
       else ret cachedData in
     generateCalendarFeed calendarData ;;
     let* now := gets clock in
     modify (fun s => set_lastFetchTimes (<["calendar" := now]> (lastFetchTimes s)) s) ;;
     let* now := gets clock in
     setFeedMetadata "calendar"
       (Metadata (Some now) (JS.or (JS.member calendarData "length") (JNum 0))
                 "success" ""))
    (fun message =>
       let* now := gets clock in
       setFeedMetadata "calendar" (Metadata (Some now) (JNum 0) "error" message)).

Definition updateNotificationFeed : M unit :=
  try_catch
    (let* cachedData := getCachedFeedData "notification" in
     let* notificationData :=
       if negb (JS.truthy cachedData) then
         let* notificationData := getNotifications in
         setCachedFeedData "notification" notificationData ;;
         ret notificationData
       else ret cachedData in
     generateNotificationFeed notificationData ;;
     let* now := gets clock in
     modify (fun s => set_lastFetchTimes (<["notification" := now]> (lastFetchTimes s)) s) ;;
     let* now := gets clock in
     setFeedMetadata "notification"
       (Metadata (Some now) (JS.or (JS.member notificationData "length") (JNum 0))
                 "success" ""))
    (fun message =>
       let* now := gets clock in
       setFeedMetadata "notification" (Metadata (Some now) (JNum 0) "error" message)).

Definition updateQueueFeed : M unit :=
  try_catch
    (let* cachedData := getCachedFeedData "queue" in
     let* queueData :=
       if negb (JS.truthy cachedData) then
         let params :=
           [("pageSize", JNum 50); ("includeUnknownMovieItems", JBool false)] in
         let* queueData := getQueue params in
         setCachedFeedData "queue" queueData ;;
         ret queueData
       else ret cachedData in
     (* queueData?.records || queueData || [] *)
     let items := JS.or (JS.or (JS.member queueData "records") queueData) (JArr []) in
     generateQueueFeed items ;;
     let* now := gets clock in
     modify (fun s => set_lastFetchTimes (<["queue" := now]> (lastFetchTimes s)) s) ;;
     let* now := gets clock in
     let* length := lift (JS.prop items "length") in
     setFeedMetadata "queue" (Metadata (Some now) length "success" ""))
    (fun message =>
       let* now := gets clock in
       setFeedMetadata "queue" (Metadata (Some now) (JNum 0) "error" message)).

(** [Promise.allSettled]: every promise runs to its end and its outcome is
    collected, whether it fulfils or rejects.  The promises are run one
    after the other here; the program's three refreshes interleave at
    their [await]s, each on the row, the file and the map key of its own
    feed type. *)
Definition settle {A} (m : M A) : M (completion A) := fun s =>
  let (r, s') := m s in (Normal r, s').

Fixpoint allSettled {A} (ms : list (M A)) : M (list (completion A)) :=
  match ms with
  | [] => ret []
  | m :: ms' =>
      let* r := settle m in
      let* rs := allSettled ms' in
      ret (r :: rs)
  end.

Definition fetchAllFeeds : M unit :=
  try_catch
    (allSettled [updateCalendarFeed; updateNotificationFeed; updateQueueFeed] ;;
     ret tt)
    (fun _ => ret tt).

(** [cron.schedule(pattern, callback, { scheduled: false })]: a new task,
    not started; the handle is its position in [cron] *)
Definition cron_schedule (cronPattern : string) : M nat := fun s =>
  (Normal (length (cron s)), set_cron (push (CronTask cronPattern false) (cron s)) s).

(** [job.start()] and [job.stop()] *)
Definition set_running (b : bool) (job : nat) : M unit :=
  modify (fun s =>
    set_cron (alter (fun t => CronTask (pattern t) b) job (cron s)) s).

(** [start()].  The initial [this.fetchAllFeeds()] is not awaited; it
    never rejects, and it is run to its end here. *)
Definition start : M unit :=
  let* fetchFrequency := gets fetchFrequency in
  let minutes := Z.max 1 (fetchFrequency / 60000) in
  let cronPattern := "*/" +:+ pretty minutes +:+ " * * * *" in
  let* job := cron_schedule cronPattern in
  modify (fun s => set_jobs (<["rss-fetcher" := job]> (jobs s)) s) ;;
  set_running true job ;;
  fetchAllFeeds.

Fixpoint forEachM {A} (f : A -> M unit) (l : list A) : M unit :=
  match l with
  | [] => ret tt
  | x :: l' => f x ;; forEachM f l'
  end.

Definition stop : M unit :=
  let* js := gets (fun s => map_to_list (jobs s)) in
  forEachM (fun '(name, job) => set_running false job) js ;;
  modify (set_jobs ∅).

(** the callback every started task runs when its pattern fires *)
Definition cron_fire : M unit :=
  let* tasks := gets cron in
  forEachM (fun t => if running t then fetchAllFeeds else ret tt) tasks.

(** [getStatus().isRunning] and [getStatus().activeJobs] *)
Definition isRunning (s : State) : bool := negb (Nat.eqb (size (jobs s)) 0).
Definition activeJobs (s : State) : list string := (map_to_list (jobs s)).*1.

(** [feedType = null] is [None] *)
Definition manualUpdate (feedType : option string) : M unit :=
  match feedType with
  | Some k =>
      if String.eqb k "" then fetchAllFeeds
      else if String.eqb k "calendar" then updateCalendarFeed
      else if String.eqb k "notification" then updateNotificationFeed
      else if String.eqb k "queue" then updateQueueFeed
      else throw ("Unknown feed type: " +:+ k)
  | None => fetchAllFeeds
  end.

(** [new Scheduler()] in a process that starts at time [t] with an empty
    database and an empty feeds directory *)
Definition boot (t : Z) : State :=
  MkState t ∅ ∅ ∅ [] [] ∅ ∅ (parseInt_or (FETCH_FREQUENCY env) 300000).

End Program.

(** ** The three feed kinds *)

Inductive FeedKind : Type := Calendar | Notification | Queue.

#[global] Instance FeedKind_eq_dec : EqDecision FeedKind.
Proof. solve_decision. Defined.

Definition feedType (k : FeedKind) : string :=
  match k with
  | Calendar => "calendar"
  | Notification => "notification"
  | Queue => "queue"
  end.

(** the file a kind is materialised to, and the path it is fetched from *)
Definition artifact (k : FeedKind) : string := feedType k +:+ ".xml".
Definition endpoint (k : FeedKind) : string := "/" +:+ feedType k.

Definition channelTitle (k : FeedKind) : string :=
  match k with
  | Calendar => "Calendar Feed"
  | Notification => "Notifications Feed"
  | Queue => "Queue Feed"
  end.

Definition channelDescription (k : FeedKind) : string :=
  match k with
  | Calendar => "Upcoming movies from calendar"
  | Notification => "System notifications and alerts"
  | Queue => "Download queue status and progress"
  end.

Definition generate {R : Runtime} (env : Env) (k : FeedKind) : json -> M string :=
  match k with
  | Calendar => generateCalendarFeed env
  | Notification => generateNotificationFeed env
  | Queue => generateQueueFeed env
  end.

Definition update {R : Runtime} (env : Env) (k : FeedKind) : M unit :=
  match k with
  | Calendar => updateCalendarFeed env
  | Notification => updateNotificationFeed env
  | Queue => updateQueueFeed env
  end.

(** ** The per-kind refresh, step by step

    The three [update...Feed] methods are one algorithm: a fetch step
    (cache or upstream), a materialisation step (document, time of the
    last fetch, status), and the [catch] that records an error. *)
Section Refresh.
Context {R : Runtime} (env : Env).

Definition fetchRemote (k : FeedKind) : M json :=
  match k with
  | Calendar =>
      let* now := gets clock in
      getCalendar env [("end", JStr (isoDateAfter 30 now)); ("unmonitored", JBool false)]
  | Notification => getNotifications env
  | Queue => getQueue env [("pageSize", JNum 50); ("includeUnknownMovieItems", JBool false)]
  end.

(** the list handed to the materialiser: [queueData?.records || queueData || []]
    for the queue, the payload itself for the others *)
Definition normalize (k : FeedKind) (d : json) : json :=
  match k with
  | Queue => JS.or (JS.or (JS.member d "records") d) (JArr [])
  | Calendar | Notification => d
  end.

(** the item count handed to [setFeedMetadata]: [items.length] for the
    queue, [data?.length || 0] for the others *)
Definition countItems (k : FeedKind) (d : json) : json :=
  match k with
  | Queue => JS.member (normalize Queue d) "length"
  | Calendar | Notification => JS.or (JS.member d "length") (JNum 0)
  end.

Definition fetchStep (k : FeedKind) : M json :=
  let* cachedData := getCachedFeedData env (feedType k) in
  if negb (JS.truthy cachedData) then
    let* d := fetchRemote k in
    setCachedFeedData env (feedType k) d ;;
    ret d
  else ret cachedData.

Definition materializeStep (k : FeedKind) (d : json) : M unit :=
  generate env k (normalize k d) ;;
  let* now := gets clock in
  modify (fun s => set_lastFetchTimes (<[feedType k := now]> (lastFetchTimes s)) s) ;;
  let* now := gets clock in
  setFeedMetadata env (feedType k) (Metadata (Some now) (countItems k d) "success" "").

Definition recordError (k : FeedKind) (message : string) : M unit :=
  let* now := gets clock in
  setFeedMetadata env (feedType k) (Metadata (Some now) (JNum 0) "error" message).

(** the [try] block of the refresh of kind [k] *)
Definition attempt (k : FeedKind) : M unit :=
  let* d := fetchStep k in
  materializeStep k d.

Definition refresh (k : FeedKind) : M unit :=
  try_catch (attempt k) (recordError k).

End Refresh.

(** time passes *)
Definition advance (d : Z) (s : State) : State := set_clock (clock s + d) s.

(** [haystack.includes(needle)] *)
Fixpoint includes (haystack needle : string) : bool :=
  String.prefix needle haystack ||
  match haystack with
  | EmptyString => false
  | String _ h => includes h needle
  end.

(** the events of a trace that are requests to a path, and those that are
    invocations of the materialiser for a file *)
Definition is_request (path : string) (e : event) : bool :=
  match e with
  | Requested p _ => String.eqb p path
  | Materialized _ => false
  end.

Definition is_materialized (file : string) (e : event) : bool :=
  match e with
  | Requested _ _ => false
  | Materialized f => String.eqb f file
  end.

Definition requests (k : FeedKind) (s : State) : nat :=
  length (List.filter (is_request (endpoint k)) (trace s)).

Definition materializations (k : FeedKind) (s : State) : nat :=
  length (List.filter (is_materialized (artifact k)) (trace s)).

(** what belongs to one kind: its cache row, its status row, its document,
    the time of its last fetch, and how often it was requested upstream
    and materialised *)
Definition view (k : FeedKind) (s : State)
  : option cache_row * option metadata_row * option string * option Z * nat * nat :=
  (feed_cache s !! feedType k, feed_metadata s !! feedType k,
   feeds s !! artifact k, lastFetchTimes s !! feedType k,
   requests k s, materializations k s).

(** the started tasks of [node-cron] *)
Definition activeTasks (s : State) : nat :=
  length (List.filter running (cron s)).

(** ** A runtime to run the program on examples

    Compact JSON with integer numbers, a backslash before a quote or a
    backslash inside a string, and no other escape; a bare-bones RSS
    serialiser that wraps every text in CDATA as the [rss] package does. *)
Module Demo.

Definition quoted (s : string) : string :=
  String JS.dquote (s +:+ String JS.dquote EmptyString).

Fixpoint write_chars (s : string) : string :=
  match s with
  | EmptyString => EmptyString
  | String a s' =>
      if Ascii.eqb a JS.dquote || Ascii.eqb a "\"
      then String "\" (String a (write_chars s'))
      else String a (write_chars s')
  end.

Fixpoint stringify (v : json) : string :=
  match v with
  | JNull => "null"
  | JBool true => "true"
  | JBool false => "false"
  | JNum n => pretty n
  | JStr s => quoted (write_chars s)
  | JArr l => "[" +:+ String.concat "," (map stringify l) +:+ "]"
  | JObj fs =>
      "{" +:+ String.concat ","
                (map (fun kv => quoted (write_chars (fst kv)) +:+ ":" +:+ stringify (snd kv)) fs)
          +:+ "}"
  end.

Definition is_digit (a : ascii) : bool :=
  (48 <=? nat_of_ascii a)%nat && (nat_of_ascii a <=? 57)%nat.

Fixpoint read_digits (s : string) (acc : Z) : Z * string :=
  match s with
  | String a s' =>
      if is_digit a
      then read_digits s' (10 * acc + Z.of_nat (nat_of_ascii a - 48))
      else (acc, s)
  | EmptyString => (acc, s)
  end.

(** the characters up to the closing quote *)
Fixpoint read_chars (s : string) : option (string * string) :=
  match s with
  | EmptyString => None
  | String a s' =>
      if Ascii.eqb a JS.dquote then Some (EmptyString, s')
      else if Ascii.eqb a "\" then
        match s' with
        | String b s'' =>
            match read_chars s'' with
            | Some (x, rest) => Some (String b x, rest)
            | None => None
            end
        | EmptyString => None
        end
      else
        match read_chars s' with
        | Some (x, rest) => Some (String a x, rest)
        | None => None
        end
  end.

Section Sequences.
Variable read_value : string -> option (json * string).

(** [v , v ... ]] after the opening bracket of a non-empty array *)
Fixpoint read_elements (n : nat) (s : string) : option (list json * string) :=
  match n with
  | O => None
  | S n' =>
      match read_value s with
      | Some (v, String "," r) =>
          match read_elements n' r with
          | Some (vs, r') => Some (v :: vs, r')
          | None => None
          end
      | Some (v, String "]" r) => Some ([v], r)
      | _ => None
      end
  end.

(** [k : v , ... }] after the opening brace of a non-empty object *)
Fixpoint read_members (n : nat) (s : string) : option (list (string * json) * string) :=
  match n with
  | O => None
  | S n' =>
      match s with
      | String a s' =>
          if Ascii.eqb a JS.dquote then
            match read_chars s' with
            | Some (k, String ":" r) =>
                match read_value r with
                | Some (v, String "," r') =>
                    match read_members n' r' with
                    | Some (kvs, r'') => Some ((k, v) :: kvs, r'')
                    | None => None
                    end
                | Some (v, String "}" r') => Some ([(k, v)], r')
                | _ => None
                end
            | _ => None
            end
          else None
      | EmptyString => None
      end
  end.
End Sequences.

Fixpoint read_value (fuel : nat) (s : string) : option (json * string) :=
  match fuel with
  | O => None
  | S fuel' =>
      match s with
      | String "n" (String "u" (String "l" (String "l" r))) => Some (JNull, r)
      | String "t" (String "r" (String "u" (String "e" r))) => Some (JBool true, r)
      | String "f" (String "a" (String "l" (String "s" (String "e" r)))) =>
          Some (JBool false, r)
      | String "[" (String "]" r) => Some (JArr [], r)
      | String "[" r =>
          match read_elements (read_value fuel') fuel' r with
          | Some (vs, r') => Some (JArr vs, r')
          | None => None
          end
      | String "{" (String "}" r) => Some (JObj [], r)
      | String "{" r =>
          match read_members (read_value fuel') fuel' r with
          | Some (kvs, r') => Some (JObj kvs, r')
          | None => None
          end
      | String "-" (String a r) =>
          if is_digit a
          then let (n, r') := read_digits (String a r) 0 in Some (JNum (- n), r')
          else None
      | String a r =>
          if Ascii.eqb a JS.dquote then
            match read_chars r with
            | Some (x, r') => Some (JStr x, r')
            | None => None
            end
          else if is_digit a
          then let (n, r') := read_digits s 0 in Some (JNum n, r')
          else None
      | EmptyString => None
      end
  end.

Definition parse (s : string) : option json :=
  match read_value (S (String.length s)) s with
  | Some (v, EmptyString) => Some v
  | _ => None
  end.

Definition number_of_string (s : string) : option Z :=
  match parse s with
  | Some (JNum n) => Some n
  | _ => None
  end.

Definition cdata (s : string) : string := "<![CDATA[" +:+ s +:+ "]]>".

Definition item_xml (i : rss_item) : string :=
  "<item><title>" +:+ cdata (JS.toString (item_title i)) +:+ "</title>"
    +:+ "<description>" +:+ cdata (item_description i) +:+ "</description>"
    +:+ "<link>" +:+ item_url i +:+ "</link>"
    +:+ "<guid>" +:+ item_guid i +:+ "</guid></item>".

Definition feed_xml (f : rss_feed) : string :=
  "<rss version=" +:+ quoted "2.0" +:+ "><channel>"
    +:+ "<title>" +:+ cdata (feed_title f) +:+ "</title>"
    +:+ "<description>" +:+ cdata (feed_description f) +:+ "</description>"
    +:+ "<link>" +:+ site_url f +:+ "</link>"
    +:+ String.concat "" (map item_xml (items f))
    +:+ "</channel></rss>".

(** days as 86400000 ms, years as 365.2425 days: good enough to print *)
Definition runtime : Runtime := {|
  JSON_stringify := stringify;
  JSON_parse := parse;
  toLocaleDateString := JS.toString;
  getFullYear := fun t => 1970 + t / 31556952000;
  isoDateAfter := fun days t => pretty ((t + days * 86400000) / 86400000);
  stringToNumber := number_of_string;
  xml := feed_xml
|}.

(** an environment without faults, with TTL [ttl], whose upstream answers
    a path as [up] says, whatever the parameters *)
Definition env (ttl : option Z) (up : string -> completion json) : Env := {|
  RSS_CACHE_TTL := ttl;
  FETCH_FREQUENCY := Some 300000;
  PORT := "";
  upstream := fun path _ => up path;
  fault := fun _ _ => None;
  written := fun _ => None
|}.

End Demo.

(** ** Example data *)

(** the calendar fixture of the test suite, shortened *)
Definition calendar_payload : json :=
  JArr [JObj [("id", JNum 1); ("title", JStr "Test Movie 1"); ("year", JNum 2023)];
        JObj [("id", JNum 2); ("title", JStr "Test Movie 2"); ("year", JNum 2024)]].

(** a TTL of ten minutes and an upstream that answers every path with
    the calendar fixture *)
Definition env_ok : Env := Demo.env (Some 600000) (fun _ => Normal calendar_payload).

(** the same upstream with [RSS_CACHE_TTL=0] *)
Definition env_zero_ttl : Env := Demo.env (Some 0) (fun _ => Normal calendar_payload).


(** the calendar fixture cached at time [t] in a fresh process *)
Definition cached_at (t : Z) : State :=
  exec (setCachedFeedData (R := Demo.runtime) env_ok "calendar" calendar_payload)
       (boot env_ok t).

(** an upstream that answers every request with status 500 *)
Definition env_down : Env :=
  Demo.env (Some 600000) (fun _ => Throw "Request failed with status code 500").

(** a process whose cycle at time 0 succeeded, eleven minutes later: the
    cache is stale, the documents and the status rows are there *)
Definition eleven_minutes_later : State :=
  advance 660000 (exec (fetchAllFeeds (R := Demo.runtime) env_ok) (boot env_ok 0)).

(** an upstream whose calendar endpoint is down while the other two
    answer *)
Definition env_calendar_down : Env :=
  Demo.env (Some 600000)
    (fun path =>
       if String.eqb path "/calendar" then Throw "Request failed with status code 500"
       else Normal calendar_payload).

(** an upstream that answers every path with the empty list *)
Definition env_empty : Env := Demo.env (Some 600000) (fun _ => Normal (JArr [])).

(** an upstream that answers every path with an empty body, which axios
    hands over as the empty string *)
Definition env_blank : Env := Demo.env (Some 600000) (fun _ => Normal (JStr "")).

(** the world after one refresh of the calendar against that upstream,
    one second later *)
Definition after_blank : State :=
  advance 1000 (exec (update (R := Demo.runtime) env_blank Calendar) (boot env_blank 0)).

(** the second record of the queue fixture of the test suite, a finished
    download *)
Definition completed_download : json :=
  JObj [("id", JNum 2);
        ("status", JStr "completed");
        ("size", JNum 2147483648);
        ("sizeleft", JNum 0);
        ("quality", JObj [("quality", JObj [("name", JStr "720p")])]);
        ("protocol", JStr "usenet");
        ("indexer", JStr "Another Indexer");
        ("added", JStr "2023-11-30T08:00:00Z");
        ("movie", JObj [("id", JNum 124);
                        ("title", JStr "Queue Movie 2");
                        ("overview", JStr "A completed download");
                        ("imdbId", JStr "tt4567890")])].

(** the record of the specification's example *)
Definition downloading_half : json :=
  JObj [("status", JStr "downloading");
        ("size", JNum 1073741824);
        ("sizeleft", JNum 536870912);
        ("movie", JObj [("title", JStr "X")])].


(** ** More of class [Database]: what the status page reads *)

(** a row of [select('feed_type', 'last_fetch', 'item_count', 'status',
    'error_message')] on [feed_metadata] *)
Record feed_stat : Type := FeedStat {
  fs_feed_type : string;
  fs_last_fetch : Z;
  fs_item_count : json;
  fs_status : string;
  fs_error_message : option string
}.

(** a row of [select('feed_type', 'updated_at')] on [feed_cache] *)
Record cache_stat : Type := CacheStat {
  cs_feed_type : string;
  cs_updated_at : Z
}.

(** [{ feeds, cache, totalCacheEntries }] *)
Record statistics : Type := Statistics {
  stat_feeds : list feed_stat;
  stat_cache : list cache_stat;
  totalCacheEntries : nat
}.

(** [getStatus()]: [database] is the statistics, or [{ error }] *)
Record scheduler_status : Type := SchedulerStatus {
  st_isRunning : bool;
  st_fetchFrequency : Z;
  st_lastFetchTimes : gmap string Z;
  st_activeJobs : list string;
  st_database : statistics + string
}.

(** What a route handler answers: [res.set({...}); res.send(feed)] with
    the [max-age] of its [Cache-Control] header (a quotient, as [ttl]),
    [res.status(code).json(body)], or the status page. *)
Inductive response : Type :=
| SendFeed (feed : string) (maxAge : Z * Z)
| SendJson (code : Z) (body : list (string * json))
| SendStatus (status : scheduler_status) (availableFeeds : list string)
             (feedUrls : list (string * string)).

Section Serving.
Context {R : Runtime} (env : Env).

(** a read of a whole table is an operation on the key [""] *)
Definition getAllFeedMetadata : M (list (string * metadata_row)) :=
  guard env MetaRead "" ;;
  gets (fun s => map_to_list (feed_metadata s)).

Definition getStatistics : M statistics :=
  guard env MetaRead "" ;;
  let* feedStats :=
    gets (fun s =>
      map (fun kr : string * metadata_row =>
             FeedStat kr.1 (last_fetch kr.2) (item_count kr.2) (status kr.2)
                      (error_message kr.2))
          (map_to_list (feed_metadata s))) in
  guard env CacheRead "" ;;
  let* cacheStats :=
    gets (fun s =>
      map (fun kr : string * cache_row => CacheStat kr.1 (updated_at kr.2))
          (map_to_list (feed_cache s))) in
  ret (Statistics feedStats cacheStats (length cacheStats)).

(** ** More of class [Scheduler] *)

Definition getStatus : M scheduler_status :=
  let* status :=
    gets (fun s => SchedulerStatus (isRunning s) (fetchFrequency s)
                                   (lastFetchTimes s) (activeJobs s)) in
  try_catch
    (let* dbStats := getStatistics in
     ret (status (inl dbStats)))
    (fun message => ret (status (inr message))).

(** ** The routes of [/rss] *)

(** [['calendar', 'notification', 'queue'].includes(feedType)] *)
Definition isFeedType (feedType : string) : bool :=
  existsb (String.eqb feedType) ["calendar"; "notification"; "queue"].

(** [req.params.feedType] is [None] when the path has none; the empty
    string is falsy as well *)
Definition given (feedType : option string) : bool :=
  match feedType with
  | Some k => negb (String.eqb k "")
  | None => false
  end.

Definition invalidFeedType : response :=
  SendJson 400
    [("error", JStr "Invalid feed type");
     ("message", JStr "Feed type must be one of: calendar, notification, queue")].

Definition internalError (message : string) : response :=
  SendJson 500 [("error", JStr "Internal server error"); ("message", JStr message)].

(** [parseInt(process.env.RSS_CACHE_TTL) / 1000 || 600] *)
Definition maxAge : Z * Z :=
  match RSS_CACHE_TTL env with
  | Some n => if Z.eqb n 0 then (600, 1) else (n, 1000)
  | None => (600, 1)
  end.

(** the handler of [GET /calendar], [GET /notification] and [GET /queue],
    which differ in the name they print *)
Definition GET_feed (Name feedType : string) : M response :=
  try_catch
    (let* feed := readFeed env feedType in
     match feed with
     | Some text =>
         if String.eqb text "" then
           ret (SendJson 404
                  [("error", JStr (Name +:+ " RSS feed not found"));
                   ("message", JStr "Feed may not have been generated yet. Try again in a few minutes.")])
         else ret (SendFeed text maxAge)
     | None =>
         ret (SendJson 404
                [("error", JStr (Name +:+ " RSS feed not found"));
                 ("message", JStr "Feed may not have been generated yet. Try again in a few minutes.")])
     end)
    (fun _ => ret (internalError ("Unable to serve " +:+ feedType +:+ " RSS feed"))).

Definition GET_calendar : M response := GET_feed "Calendar" "calendar".
Definition GET_notification : M response := GET_feed "Notification" "notification".
Definition GET_queue : M response := GET_feed "Queue" "queue".

(** [GET /status]; [base] is [`${req.protocol}://${req.get('host')}`] *)
Definition GET_status (base : string) : M response :=
  try_catch
    (let* status := getStatus in
     ret (SendStatus status ["calendar"; "notification"; "queue"]
            [("calendar", base +:+ "/rss/calendar");
             ("notification", base +:+ "/rss/notification");
             ("queue", base +:+ "/rss/queue")]))
    (fun _ => ret (internalError "Unable to get RSS status")).

(** [POST /refresh/:feedType?] *)
Definition POST_refresh (feedType : option string) : M response :=
  try_catch
    (if given feedType && negb (isFeedType (default "" feedType)) then
       ret invalidFeedType
     else
       clearCachedFeedData env feedType ;;
       manualUpdate env feedType ;;
       let* now := gets clock in
       ret (SendJson 200
              [("message",
                JStr (if given feedType
                      then default "" feedType +:+ " feed refreshed successfully"
                      else "All feeds refreshed successfully"));
               ("timestamp", JNum now)]))
    (fun _ => ret (internalError "Unable to refresh RSS feeds")).

(** [DELETE /cache/:feedType?] *)
Definition DELETE_cache (feedType : option string) : M response :=
  try_catch
    (if given feedType && negb (isFeedType (default "" feedType)) then
       ret invalidFeedType
     else
       clearCachedFeedData env feedType ;;
       let* now := gets clock in
       ret (SendJson 200
              [("message",
                JStr (if given feedType
                      then default "" feedType +:+ " cache cleared successfully"
                      else "All caches cleared successfully"));
               ("timestamp", JNum now)]))
    (fun _ => ret (internalError "Unable to clear cache")).

End Serving.

(** ** Class [ConfigValidator] of [src/utils/validateConfig.js]: the
    check of the environment

    [process.env] is a map from names to strings; the names and values
    the validator handles are ASCII. *)
Module ConfigValidator.

Record summary : Type := Summary {
  passed : nat;
  failed : nat;
  warnings : nat
}.

(** [{ status, value }] *)
Record entry : Type := Entry {
  entry_status : string;
  entry_value : string
}.

(** [this.results]; the four sections the check of the environment does
    not write hold what the other checks put there *)
Record results : Type := Results {
  environment : gmap string entry;
  database : gmap string json;
  targetServer : gmap string json;
  apiEndpoints : gmap string json;
  permissions : gmap string json;
  summary_of : summary
}.

(** [new ConfigValidator().results] *)
Definition initial : results := Results ∅ ∅ ∅ ∅ ∅ (Summary 0 0 0).

Definition set_summary (f : summary -> summary) (r : results) : results :=
  Results (environment r) (database r) (targetServer r) (apiEndpoints r)
          (permissions r) (f (summary_of r)).

Definition set_environment (key : string) (e : entry) (r : results) : results :=
  Results (<[key := e]> (environment r)) (database r) (targetServer r)
          (apiEndpoints r) (permissions r) (summary_of r).

Definition pass (r : results) : results :=
  set_summary (fun s => Summary (S (passed s)) (failed s) (warnings s)) r.
Definition fail (r : results) : results :=
  set_summary (fun s => Summary (passed s) (S (failed s)) (warnings s)) r.
Definition warn (r : results) : results :=
  set_summary (fun s => Summary (passed s) (failed s) (S (warnings s))) r.

(** [toLowerCase] on ASCII *)
Definition lowerChar (a : ascii) : ascii :=
  let n := nat_of_ascii a in
  if (65 <=? n)%nat && (n <=? 90)%nat then ascii_of_nat (n + 32) else a.

Fixpoint toLowerCase (s : string) : string :=
  match s with
  | EmptyString => EmptyString
  | String a s' => String (lowerChar a) (toLowerCase s')
  end.

Definition sensitive (key : string) : bool :=
  includes (toLowerCase key) "key" || includes (toLowerCase key) "secret".

Definition maskSensitive (key value : string) : string :=
  if sensitive key then
    if (8 <? String.length value)%nat then
      substring 0 4 value +:+ "..."
        +:+ substring (String.length value - 4) (String.length value) value
    else "***"
  else value.

(** [!value || value === 'your-api-key-here' || value === 'your-secret-key-here'],
    where an unset variable is [undefined] *)
Definition missingOrDefault (value : option string) : bool :=
  match value with
  | None => true
  | Some v =>
      String.eqb v "" || String.eqb v "your-api-key-here"
        || String.eqb v "your-secret-key-here"
  end.

Definition requiredEnvVars : list string :=
  ["SERVER_URL"; "SERVER_PORT"; "API_KEY"; "API_BASE_URL"].

(** name and default *)
Definition optionalEnvVars : list (string * string) :=
  [("PORT", "3000"); ("FETCH_FREQUENCY", "300000");
   ("RSS_CACHE_TTL", "600000"); ("DATABASE_PATH", "./data/feedarr.db")].

(** the body of the first loop *)
Definition checkRequired (penv : gmap string string) (r : results) (key : string)
  : results :=
  let value := penv !! key in
  if missingOrDefault value then
    set_environment key (Entry "failed" "missing") (fail r)
  else
    set_environment key (Entry "passed" (maskSensitive key (default "" value)))
                    (pass r).

(** the body of the second loop: [process.env[key] || default] *)
Definition checkOptional (penv : gmap string string) (r : results)
    (envVar : string * string) : results :=
  let value := JS.or_str (default "" (penv !! envVar.1)) envVar.2 in
  set_environment envVar.1 (Entry "passed" value) (pass r).

Definition validateEnvironment (penv : gmap string string) (r : results) : results :=
  foldl (checkOptional penv) (foldl (checkRequired penv) r requiredEnvVars)
        optionalEnvVars.

End ConfigValidator.

(** ** Notions the properties are stated with *)

(** the row of kind [k] exists and is younger than the TTL *)
Definition fresh_entry (env : Env) (s : State) (k : FeedKind) : Prop :=
  exists row,
    feed_cache s !! feedType k = Some row /\
    clock s - updated_at row < cacheTTL env.

(** freshness as the specification words it: the row of the feed type
    exists and is younger than the configured TTL *)
Definition fresh_as_configured (env : Env) (s : State) (feedType : string) : Prop :=
  exists row ttl,
    feed_cache s !! feedType = Some row /\
    RSS_CACHE_TTL env = Some ttl /\
    clock s - updated_at row < ttl.

(** what the chain of five replacements does to one character *)
Definition escapeChar (a : ascii) : string :=
  if Ascii.eqb a "&" then "&amp;"
  else if Ascii.eqb a "<" then "&lt;"
  else if Ascii.eqb a ">" then "&gt;"
  else if Ascii.eqb a JS.dquote then "&quot;"
  else if Ascii.eqb a "'" then "&#39;"
  else String a EmptyString.

Fixpoint escapeChars (s : string) : string :=
  match s with
  | EmptyString => EmptyString
  | String a s' => escapeChar a +:+ escapeChars s'
  end.

(** the characters that mean something to HTML *)
Definition special (a : ascii) : bool :=
  Ascii.eqb a "<" || Ascii.eqb a ">" || Ascii.eqb a JS.dquote || Ascii.eqb a "'".

Fixpoint has_special (s : string) : bool :=
  match s with
  | EmptyString => false
  | String a s' => special a || has_special s'
  end.

(** [keeps V m]: running [m] does not change the observation [V] of the
    world, however [m] ends *)
Definition keeps {A T} (V : State -> T) (m : M A) : Prop :=
  forall s, V (exec m s) = V s.

(** two worlds that agree on the time and on what belongs to kind [k] *)
Definition sim (k : FeedKind) (s1 s2 : State) : Prop :=
  clock s1 = clock s2 /\ view k s1 = view k s2.

(** [local k m]: on two such worlds [m] ends the same way and leaves two
    such worlds *)
Definition local (k : FeedKind) {A} (m : M A) : Prop :=
  forall s1 s2, sim k s1 s2 ->
    outcome m s1 = outcome m s2 /\ sim k (exec m s1) (exec m s2).

(** [V] is no part of what the refresh of kind [k] writes *)
Record untouched {T} (V : State -> T) (k : FeedKind) : Prop := {
  ut_cache : forall row s,
      V (set_feed_cache (<[feedType k := row]> (feed_cache s)) s) = V s;
  ut_request : forall params s,
      V (set_trace (push (Requested (endpoint k) params) (trace s)) s) = V s;
  ut_materialized : forall s,
      V (set_trace (push (Materialized (artifact k)) (trace s)) s) = V s;
  ut_feeds : forall text s,
      V (set_feeds (<[artifact k := text]> (feeds s)) s) = V s;
  ut_last : forall t s,
      V (set_lastFetchTimes (<[feedType k := t]> (lastFetchTimes s)) s) = V s;
  ut_meta : forall row s,
      V (set_feed_metadata (<[feedType k := row]> (feed_metadata s)) s) = V s
}.

(** [start()] up to the initial fetch *)
Definition started (s : State) : State :=
  let job := length (cron s) in
  let cronPattern :=
    "*/" +:+ pretty (Z.max 1 (fetchFrequency s / 60000)) +:+ " * * * *" in
  let s1 := set_cron (push (CronTask cronPattern false) (cron s)) s in
  let s2 := set_jobs (<["rss-fetcher" := job]> (jobs s1)) s1 in
  set_cron (alter (fun t => CronTask (pattern t) true) job (cron s2)) s2.


(** no character of [s] is one of the five that [escapeHtml] replaces *)
Fixpoint plain (s : string) : bool :=
  match s with
  | EmptyString => true
  | String a s' => negb (Ascii.eqb a "&") && negb (special a) && plain s'
  end.

(** * Properties *)

Local Open Scope string_scope.
Local Open Scope Z_scope.

(** ** Sequencing *)

Lemma bind_normal {A B} (m : M A) (k : A -> M B) s a s' :
  m s = (Normal a, s') -> bind m k s = k a s'.
Proof. unfold bind. by intros ->. Qed.

Lemma bind_throw {A B} (m : M A) (k : A -> M B) s msg s' :
  m s = (Throw msg, s') -> bind m k s = (Throw msg, s').
Proof. unfold bind. by intros ->. Qed.

Lemma try_catch_normal {A} (m : M A) h s a s' :
  m s = (Normal a, s') -> try_catch m h s = (Normal a, s').
Proof. unfold try_catch. by intros ->. Qed.

Lemma try_catch_throw {A} (m : M A) h s msg s' :
  m s = (Throw msg, s') -> try_catch m h s = h msg s'.
Proof. unfold try_catch. by intros ->. Qed.

Lemma guard_ok env o key s :
  fault env o key = None -> guard env o key s = (Normal tt, s).
Proof. unfold guard. by intros ->. Qed.

Lemma guard_state env o key s : (guard env o key s).2 = s.
Proof. unfold guard. by destruct (fault env o key). Qed.

(** ** The cache store *)

Section CacheStore.
Context {R : Runtime} (env : Env).

(** the TTL in force is the configured number, unless that is 0 or not
    a number *)
Lemma cacheTTL_configured (n : Z) :
  RSS_CACHE_TTL env = Some n -> n <> 0 -> cacheTTL env = n.
Proof.
  intros Hn H0. unfold cacheTTL, parseInt_or. rewrite Hn.
  by destruct (Z.eqb_spec n 0).
Qed.

(** what a cache read does, case by case *)
Lemma getCachedFeedData_run feedType s :
  fault env CacheRead feedType = None ->
  getCachedFeedData env feedType s =
  (match feed_cache s !! feedType with
   | Some row =>
       if Z.ltb (clock s - updated_at row) (cacheTTL env) then
         match JSON_parse (data row) with
         | Some v => Normal v
         | None => Throw "Unexpected token in JSON"
         end
       else Normal JNull
   | None => Normal JNull
   end, s).
Proof.
  intros Hf. unfold getCachedFeedData.
  rewrite (bind_normal _ _ _ _ _ (guard_ok _ _ _ _ Hf)).
  unfold bind, gets. destruct (feed_cache s !! feedType) as [row|]; [|done].
  destruct (Z.ltb _ _); [|done]. by destruct (JSON_parse _).
Qed.

(** a read never changes the world, whether it succeeds or not *)
Lemma getCachedFeedData_state feedType s :
  exec (getCachedFeedData env feedType) s = s.
Proof.
  unfold exec, getCachedFeedData, bind, guard.
  destruct (fault env CacheRead feedType); [done|]. simpl.
  destruct (feed_cache s !! feedType) as [row|]; [|done]. simpl.
  destruct (Z.ltb _ _); [|done]. by destruct (JSON_parse _).
Qed.

Lemma setCachedFeedData_run feedType payload s :
  fault env CacheWrite feedType = None ->
  setCachedFeedData env feedType payload s =
  (Normal tt,
   set_feed_cache
     (<[feedType :=
          CacheRow (JSON_stringify payload)
                   (match feed_cache s !! feedType with
                    | Some old => created_at old
                    | None => clock s
                    end)
                   (clock s)]> (feed_cache s)) s).
Proof.
  intros Hf. unfold setCachedFeedData.
  rewrite (bind_normal _ _ _ _ _ (guard_ok _ _ _ _ Hf)).
  unfold bind, gets, modify. by destruct (feed_cache s !! feedType).
Qed.

(** C1, as the code has it.  A cache read returns the stored payload
    when the row of the feed type exists and its age,
    [now - updated_at], is strictly below the TTL in force; it returns [null] when the row is stale (age
    at least the TTL) or missing; and it leaves the store as it was, so
    that a stale row stays in the table.  The TTL in force is the
    configured [RSS_CACHE_TTL] when that is a number other than 0, and
    600000 ms when it is 0, unset or not a number. *)
Theorem cache_read_hit_iff_fresh (feedType : string) (s : State) :
  fault env CacheRead feedType = None ->
  let ttl := match RSS_CACHE_TTL env with
             | Some n => if Z.eqb n 0 then 600000 else n
             | None => 600000
             end in
  (forall row payload,
      feed_cache s !! feedType = Some row ->
      JSON_parse (data row) = Some payload ->
      (clock s - updated_at row < ttl ->
       outcome (getCachedFeedData env feedType) s = Normal payload) /\
      (ttl <= clock s - updated_at row ->
       outcome (getCachedFeedData env feedType) s = Normal JNull /\
       feed_cache (exec (getCachedFeedData env feedType) s) !! feedType = Some row)) /\
  (feed_cache s !! feedType = None ->
   outcome (getCachedFeedData env feedType) s = Normal JNull) /\
  exec (getCachedFeedData env feedType) s = s.
Proof.
  intros Hf ttl.
  assert (Httl : cacheTTL env = ttl) by reflexivity.
  unfold outcome. rewrite getCachedFeedData_state.
  rewrite (getCachedFeedData_run _ _ Hf), Httl. simpl.
  split; [|split; [by intros ->|done]].
  intros row payload Hrow Hparse. rewrite Hrow. split; intros Hage.
  - apply Z.ltb_lt in Hage. by rewrite Hage, Hparse.
  - apply Z.ltb_ge in Hage. by rewrite Hage.
Qed.

(** C8. Storing a payload and reading it back while less than the TTL
    has elapsed returns the payload, for every payload that survives
    [JSON.parse(JSON.stringify(...))]. *)
Theorem cache_put_get_roundtrip (feedType : string) (X : json) (d : Z) (s : State) :
  fault env CacheWrite feedType = None ->
  fault env CacheRead feedType = None ->
  JSON_parse (JSON_stringify X) = Some X ->
  d < cacheTTL env ->
  outcome (setCachedFeedData env feedType X ;;
           modify (advance d) ;;
           getCachedFeedData env feedType) s = Normal X.
Proof.
  intros Hw Hr Hjson Hd. unfold outcome.
  rewrite (bind_normal _ _ _ _ _ (setCachedFeedData_run _ _ _ Hw)).
  unfold bind at 1, modify.
  rewrite (getCachedFeedData_run _ _ Hr). simpl.
  rewrite lookup_insert_eq. simpl.
  replace (clock s + d - clock s) with d by lia.
  apply Z.ltb_lt in Hd. by rewrite Hd, Hjson.
Qed.

End CacheStore.


(** ** The feed materialiser *)

Section Materializer.
Context {R : Runtime} (env : Env).

Lemma createBaseFeed_run title description feedUrl s :
  exists feed,
    createBaseFeed env title description feedUrl s = (Normal feed, s) /\
    feed_title feed = title /\ feed_description feed = description /\
    feed_url feed = feedUrl /\ items feed = [].
Proof. unfold createBaseFeed, bind, gets, ret. simpl. eauto 10. Qed.

Lemma forEachItem_none body d :
  d = JNull \/ d = JArr [] -> forEachItem body d = Normal [].
Proof. by intros [-> | ->]. Qed.

Lemma generateFeed_empty title description path file body d s :
  fault env FileWrite file = None ->
  d = JNull \/ d = JArr [] ->
  exists feed,
    items feed = [] /\ feed_title feed = title /\ feed_description feed = description /\
    generateFeed env title description path file body d s =
    (Normal (xml feed),
     set_feeds (<[file := xml feed]> (feeds s))
               (set_trace (push (Materialized file) (trace s)) s)).
Proof.
  intros Hf Hd. unfold generateFeed.
  destruct (createBaseFeed_run title description (localhost env +:+ path)
              (set_trace (push (Materialized file) (trace s)) s))
    as (feed & Hrun & Ht & Hdesc & _ & Hitems).
  exists feed. split; [done|]. split; [done|]. split; [done|].
  unfold bind at 1, emit, modify. rewrite (bind_normal _ _ _ _ _ Hrun).
  unfold bind, gets, lift, writeFile. rewrite (forEachItem_none _ _ Hd).
  unfold guard. rewrite Hf. unfold modify, ret. simpl.
  replace (with_items feed []) with feed; [done|].
  destruct feed; simpl in *; by subst.
Qed.

(** C9. Materialising an absent or empty payload is not an error: for
    each kind the generator ends normally with the serialisation of a
    feed that has no item and the fixed title and description of the
    kind, and that document is what the file of the kind then holds. *)
Theorem materialize_empty (k : FeedKind) (d : json) (s : State) :
  fault env FileWrite (artifact k) = None ->
  d = JNull \/ d = JArr [] ->
  exists feed,
    items feed = [] /\
    feed_title feed = channelTitle k /\
    feed_description feed = channelDescription k /\
    outcome (generate env k d) s = Normal (xml feed) /\
    feeds (exec (generate env k d) s) !! artifact k = Some (xml feed).
Proof.
  intros Hf Hd. unfold outcome, exec.
  destruct k; simpl in Hf |- *;
    unfold generateCalendarFeed, generateNotificationFeed, generateQueueFeed;
    match goal with
    | |- context [generateFeed env ?t ?de ?p ?f ?b d s] =>
        destruct (generateFeed_empty t de p f b d s Hf Hd)
          as (feed & Hi & Ht & Hde & ->)
    end;
    exists feed; simpl; by rewrite lookup_insert_eq.
Qed.

(** *** Escaping *)

Lemma append_cons (a : ascii) (s t : string) :
  String a s +:+ t = String a (s +:+ t).
Proof. reflexivity. Qed.

Lemma append_empty (t : string) : EmptyString +:+ t = t.
Proof. reflexivity. Qed.

Lemma append_assoc (s1 s2 s3 : string) :
  (s1 +:+ s2) +:+ s3 = s1 +:+ (s2 +:+ s3).
Proof.
  induction s1 as [|a s1 IH]; [done|].
  by rewrite !append_cons, IH.
Qed.

Lemma replaceAll_app c by_ s1 s2 :
  JS.replaceAll c by_ (s1 +:+ s2) = JS.replaceAll c by_ s1 +:+ JS.replaceAll c by_ s2.
Proof.
  induction s1 as [|a s1 IH]; [done|].
  rewrite append_cons. cbn [JS.replaceAll].
  destruct (Ascii.eqb a c); rewrite IH; [|done].
  by rewrite append_assoc.
Qed.

(** the five passes, each over the output of the one before, amount to
    one pass that maps every character of the input *)
Lemma replace_chain_escapeChars s :
  JS.replaceAll "'" "&#39;"
    (JS.replaceAll JS.dquote "&quot;"
      (JS.replaceAll ">" "&gt;"
        (JS.replaceAll "<" "&lt;"
          (JS.replaceAll "&" "&amp;" s)))) = escapeChars s.
Proof.
  induction s as [|a s IH]; [done|].
  cbn [JS.replaceAll escapeChars]. rewrite <- IH. clear IH.
  unfold escapeChar.
  destruct (Ascii.eqb a "&") eqn:E1.
  { apply Ascii.eqb_eq in E1 as ->. by rewrite ?replaceAll_app. }
  cbn [JS.replaceAll].
  destruct (Ascii.eqb a "<") eqn:E2.
  { apply Ascii.eqb_eq in E2 as ->. by rewrite ?replaceAll_app. }
  cbn [JS.replaceAll].
  destruct (Ascii.eqb a ">") eqn:E3.
  { apply Ascii.eqb_eq in E3 as ->. by rewrite ?replaceAll_app. }
  cbn [JS.replaceAll].
  destruct (Ascii.eqb a JS.dquote) eqn:E4.
  { apply Ascii.eqb_eq in E4 as ->. by rewrite ?replaceAll_app. }
  cbn [JS.replaceAll].
  destruct (Ascii.eqb a "'") eqn:E5.
  { apply Ascii.eqb_eq in E5 as ->. by rewrite ?replaceAll_app. }
  done.
Qed.

Lemma escapeHtml_string s : escapeHtml (JStr s) = Normal (escapeChars s).
Proof.
  unfold escapeHtml. simpl. destruct s as [|a s]; [done|].
  cbn [String.eqb negb]. by rewrite replace_chain_escapeChars.
Qed.

Lemma has_special_app s1 s2 :
  has_special (s1 +:+ s2) = has_special s1 || has_special s2.
Proof.
  induction s1 as [|a s1 IH]; [done|].
  rewrite append_cons. cbn [has_special]. by rewrite IH, orb_assoc.
Qed.

Lemma escapeChar_safe a : has_special (escapeChar a) = false.
Proof.
  unfold escapeChar.
  destruct (Ascii.eqb a "&") eqn:E1; [done|].
  destruct (Ascii.eqb a "<") eqn:E2; [done|].
  destruct (Ascii.eqb a ">") eqn:E3; [done|].
  destruct (Ascii.eqb a JS.dquote) eqn:E4; [done|].
  destruct (Ascii.eqb a "'") eqn:E5; [done|].
  simpl. unfold special. by rewrite E2, E3, E4, E5.
Qed.

(** what [escapeHtml] returns holds none of the characters [<], [>],
    the double quote and the apostrophe *)
Lemma escapeHtml_safe text e :
  escapeHtml text = Normal e -> has_special e = false.
Proof.
  destruct text as [| b | n | s | l | fs].
  - unfold escapeHtml; simpl. by intros [= <-].
  - unfold escapeHtml; destruct b; simpl; [done|]. by intros [= <-].
  - unfold escapeHtml; cbn [JS.truthy]. destruct (negb (negb _)); [|done].
    by intros [= <-].
  - rewrite escapeHtml_string. intros [= <-].
    induction s as [|a s IH]; [done|].
    cbn [escapeChars]. by rewrite has_special_app, escapeChar_safe, IH.
  - unfold escapeHtml; simpl. done.
  - unfold escapeHtml; simpl. done.
Qed.

End Materializer.

(** *** The queue description *)

(** [tenths] rounds to the nearest tenth: [n <= 10 |num / den| + 1/2 < n + 1] *)
Lemma tenths_nearest (num den : Z) :
  den <> 0 ->
  2 * Z.abs den * JS.tenths num den <= 20 * Z.abs num + Z.abs den
  < 2 * Z.abs den * (JS.tenths num den + 1).
Proof.
  intros Hden. unfold JS.tenths.
  assert (0 < 2 * Z.abs den) by lia.
  pose proof (Z.div_mod (20 * Z.abs num + Z.abs den) (2 * Z.abs den)) as Hdm.
  pose proof (Z.mod_pos_bound (20 * Z.abs num + Z.abs den) (2 * Z.abs den)) as Hb.
  lia.
Qed.

(** C6, where the code departs from it. Both size fields of the finished
    download are present and [size] is positive, yet its description
    has no progress paragraph: [item.size && item.sizeleft] is false
    when [sizeleft] is 0. *)
Theorem progress_missing_when_nothing_left {R : Runtime} :
  JS.member completed_download "size" = JNum 2147483648 /\
  JS.member completed_download "sizeleft" = JNum 0 /\
  buildQueueDescription completed_download =
  Normal ("<p><strong>Status:</strong> completed</p>" +:+ JS.nl +:+
          "<p><strong>Quality:</strong> 720p</p>" +:+ JS.nl +:+
          "<p><strong>Protocol:</strong> usenet</p>" +:+ JS.nl +:+
          "<p><strong>Indexer:</strong> Another Indexer</p>" +:+ JS.nl +:+
          "<p><strong>Movie Overview:</strong> A completed download</p>").
Proof. repeat split. Qed.

(** the example of the specification: half of the download is left *)
Lemma progress_of_half {R : Runtime} (now : Z) :
  exists i,
    queueItem now downloading_half = Normal i /\
    item_title i = JStr "X - downloading" /\
    item_description i =
      "<p><strong>Status:</strong> downloading</p>" +:+ JS.nl +:+
      "<p><strong>Progress:</strong> 50.0%</p>".
Proof. eexists. repeat split. Qed.

(** C7, where the code departs from it.  In one and the same queue
    description the overview of the movie is escaped and the name of the
    indexer, free text as well, is embedded as it came. *)
Theorem indexer_not_escaped {R : Runtime} :
  buildQueueDescription
    (JObj [("status", JStr "downloading");
           ("indexer", JStr "<b>R&D</b>");
           ("movie", JObj [("overview", JStr "<b>R&D</b>")])]) =
  Normal ("<p><strong>Status:</strong> downloading</p>" +:+ JS.nl +:+
          "<p><strong>Indexer:</strong> <b>R&D</b></p>" +:+ JS.nl +:+
          "<p><strong>Movie Overview:</strong> &lt;b&gt;R&amp;D&lt;/b&gt;</p>").
Proof. reflexivity. Qed.

(** the same in the calendar description: the overview is escaped, the
    status and the genres are not *)
Lemma genres_not_escaped {R : Runtime} :
  buildMovieDescription
    (JObj [("overview", JStr "Tom & Jerry");
           ("status", JStr "<i>announced</i>");
           ("genres", JArr [JStr "Action & Adventure"])]) =
  Normal ("<p><strong>Overview:</strong> Tom &amp; Jerry</p>" +:+ JS.nl +:+
          "<p><strong>Status:</strong> <i>announced</i></p>" +:+ JS.nl +:+
          "<p><strong>Genres:</strong> Action & Adventure</p>").
Proof. reflexivity. Qed.

(** *** Where the progress paragraph is *)

Lemma prefix_app (n a b : string) :
  String.prefix n a = true -> String.prefix n (a +:+ b) = true.
Proof.
  revert a. induction n as [|c n IH]; intros a H; [by destruct (a +:+ b)|].
  destruct a as [|c' a]; [done|].
  rewrite append_cons. cbn [String.prefix] in *.
  destruct (ascii_dec c c'); [by apply IH|done].
Qed.

Lemma prefix_refl (n : string) : String.prefix n n = true.
Proof.
  induction n as [|c n IH]; [done|].
  cbn [String.prefix]. by destruct (ascii_dec c c).
Qed.

Lemma prefix_empty (h : string) : String.prefix EmptyString h = true.
Proof. by destruct h. Qed.

Lemma includes_prefix (h n : string) :
  String.prefix n h = true -> includes h n = true.
Proof. intros H. destruct h; cbn [includes]; by rewrite H. Qed.

Lemma includes_app_l (a b n : string) :
  includes a n = true -> includes (a +:+ b) n = true.
Proof.
  induction a as [|c a IH]; cbn [includes]; intros H.
  - rewrite orb_false_r in H. apply includes_prefix.
    by apply (prefix_app n EmptyString b).
  - apply orb_true_iff in H as [H|H].
    + apply includes_prefix. by apply (prefix_app n (String c a) b).
    + rewrite append_cons. cbn [includes]. rewrite (IH H). apply orb_true_r.
Qed.

Lemma includes_app_r (a b n : string) :
  includes b n = true -> includes (a +:+ b) n = true.
Proof.
  intros H. induction a as [|c a IH]; [done|].
  rewrite append_cons. cbn [includes]. rewrite IH. apply orb_true_r.
Qed.

Lemma includes_concat (sep p : string) (l : list string) :
  In p l -> includes (String.concat sep l) p = true.
Proof.
  induction l as [|x l IH]; [done|]. intros [->|Hin].
  - destruct l as [|y l]; cbn [String.concat].
    + apply includes_prefix, prefix_refl.
    + apply includes_app_l, includes_prefix, prefix_refl.
  - destruct l as [|y l]; [done|]. cbn [String.concat].
    by apply includes_app_r, includes_app_r, IH.
Qed.

Lemma In_push {A} (x y : A) (l : list A) : In x l -> In x (push y l).
Proof. intros H. unfold push. apply in_or_app. by left. Qed.

Lemma In_push_if (x y : string) (c : bool) (l : list string) :
  In x l -> In x (push_if c y l).
Proof. intros H. unfold push_if. destruct c; [by apply In_push|done]. Qed.

(** whenever both size fields are truthy, the description holds the
    progress paragraph *)
Lemma progress_paragraph_present {R : Runtime} (item : json) (text : string) :
  buildQueueDescription item = Normal text ->
  JS.truthy (JS.member item "size") = true ->
  JS.truthy (JS.member item "sizeleft") = true ->
  includes text
    ("<p><strong>Progress:</strong> "
       +:+ progress (JS.member item "size") (JS.member item "sizeleft") +:+ "%</p>")
  = true.
Proof.
  intros Hrun Hsize Hleft. unfold buildQueueDescription in Hrun.
  destruct (JS.prop item "movie") as [m|msg]; [|done]. cbn [cbind] in Hrun.
  rewrite Hsize, Hleft in Hrun. cbn [andb] in Hrun.
  set (P := "<p><strong>Progress:</strong> "
              +:+ progress (JS.member item "size") (JS.member item "sizeleft")
              +:+ "%</p>") in *.
  match type of Hrun with
  | context [if JS.truthy ?o then _ else Normal ?parts] =>
      assert (Hin : In P parts)
        by (do 3 apply In_push_if; unfold push_if, push; simpl; auto);
      set (before := parts) in *; set (overview := o) in *
  end.
  assert (Hfinal : exists parts, In P parts /\
            text = JS.or_str (String.concat JS.nl parts) "Queue item details.").
  { destruct (JS.truthy overview).
    - destruct (escapeHtml overview) as [e|msg]; [|done]. cbn [cbind] in Hrun.
      eexists. split; [apply In_push, Hin|]. by simplify_eq.
    - cbn [cbind] in Hrun. exists before. split; [done|]. by simplify_eq. }
  destruct Hfinal as (parts & HP & ->).
  pose proof (includes_concat JS.nl P parts HP) as Hinc.
  unfold JS.or_str. destruct (String.eqb_spec (String.concat JS.nl parts) "") as [E|_]; [|done].
  rewrite E in Hinc. done.
Qed.

(** ** What a computation leaves alone *)

Section Keeps.
Context {T : Type} (V : State -> T).

Lemma keeps_ret {A} (a : A) : keeps V (ret a).
Proof. done. Qed.
Lemma keeps_throw {A} msg : keeps V (throw (A := A) msg).
Proof. done. Qed.
Lemma keeps_gets {A} (f : State -> A) : keeps V (gets f).
Proof. done. Qed.
Lemma keeps_lift {A} (c : completion A) : keeps V (lift c).
Proof. done. Qed.
Lemma keeps_guard env o key : keeps V (guard env o key).
Proof. intros s. unfold exec. by rewrite guard_state. Qed.
Lemma keeps_modify f : (forall s, V (f s) = V s) -> keeps V (modify f).
Proof. intros H s. apply H. Qed.
Lemma keeps_bind {A B} (m : M A) (k : A -> M B) :
  keeps V m -> (forall a, keeps V (k a)) -> keeps V (bind m k).
Proof.
  intros Hm Hk s. unfold exec, bind. specialize (Hm s). unfold exec in Hm.
  destruct (m s) as [[a|msg] s']; simpl in *; [|done].
  rewrite <- Hm. apply Hk.
Qed.
Lemma keeps_try_catch {A} (m : M A) h :
  keeps V m -> (forall msg, keeps V (h msg)) -> keeps V (try_catch m h).
Proof.
  intros Hm Hh s. unfold exec, try_catch. specialize (Hm s). unfold exec in Hm.
  destruct (m s) as [[a|msg] s']; simpl in *; [done|].
  rewrite <- Hm. apply Hh.
Qed.
Lemma keeps_settle {A} (m : M A) : keeps V m -> keeps V (settle m).
Proof.
  intros Hm s. unfold exec, settle. specialize (Hm s). unfold exec in Hm.
  by destruct (m s).
Qed.
Lemma keeps_forEachM {A} (f : A -> M unit) l :
  (forall a, keeps V (f a)) -> keeps V (forEachM f l).
Proof.
  intros Hf. induction l as [|x l IH]; [done|].
  apply keeps_bind; [apply Hf | by intros _].
Qed.
End Keeps.

(** takes a computation apart down to the places where it changes the
    state, and leaves those to the caller *)
Ltac keeps_step :=
  match goal with
  | |- keeps _ (bind _ _) => apply keeps_bind; [|intros ?]
  | |- keeps _ (try_catch _ _) => apply keeps_try_catch; [|intros ?]
  | |- keeps _ (settle _) => apply keeps_settle
  | |- keeps _ (ret _) => apply keeps_ret
  | |- keeps _ (throw _) => apply keeps_throw
  | |- keeps _ (gets _) => apply keeps_gets
  | |- keeps _ (lift _) => apply keeps_lift
  | |- keeps _ (guard _ _ _) => apply keeps_guard
  | |- keeps _ (modify _) => apply keeps_modify; intros ?
  | |- keeps _ (match ?x with _ => _ end) => destruct x
  end.

Ltac keeps_tac := repeat keeps_step.

(** ** What a computation depends on *)

Section Local.
Context (k : FeedKind).

Lemma local_ret {A} (a : A) : local k (ret a).
Proof. by intros s1 s2 H. Qed.
Lemma local_throw {A} msg : local k (throw (A := A) msg).
Proof. by intros s1 s2 H. Qed.
Lemma local_lift {A} (c : completion A) : local k (lift c).
Proof. by intros s1 s2 H. Qed.
Lemma local_guard env o key : local k (guard env o key).
Proof. intros s1 s2 H. unfold outcome, exec, guard. by destruct (fault env o key). Qed.
Lemma local_gets {A} (f : State -> A) :
  (forall s1 s2, sim k s1 s2 -> f s1 = f s2) -> local k (gets f).
Proof. intros Hf s1 s2 H. unfold outcome, exec, gets. simpl. by rewrite (Hf s1 s2 H). Qed.
Lemma local_modify f :
  (forall s1 s2, sim k s1 s2 -> sim k (f s1) (f s2)) -> local k (modify f).
Proof. intros Hf s1 s2 H. split; [done|]. by apply Hf. Qed.
Lemma local_bind {A B} (m : M A) (c : A -> M B) :
  local k m -> (forall a, local k (c a)) -> local k (bind m c).
Proof.
  intros Hm Hc s1 s2 H. destruct (Hm s1 s2 H) as [Ho Hs].
  unfold outcome, exec, bind in *.
  destruct (m s1) as [r1 s1'], (m s2) as [r2 s2']. simpl in *. subst r2.
  destruct r1 as [a|msg]; [|done]. by apply Hc.
Qed.
Lemma local_try_catch {A} (m : M A) h :
  local k m -> (forall msg, local k (h msg)) -> local k (try_catch m h).
Proof.
  intros Hm Hh s1 s2 H. destruct (Hm s1 s2 H) as [Ho Hs].
  unfold outcome, exec, try_catch in *.
  destruct (m s1) as [r1 s1'], (m s2) as [r2 s2']. simpl in *. subst r2.
  destruct r1 as [a|msg]; [done|]. by apply Hh.
Qed.
End Local.

Lemma sim_refl k s : sim k s s.
Proof. done. Qed.

Lemma sim_view k s1 s2 :
  sim k s1 s2 ->
  clock s1 = clock s2 /\
  feed_cache s1 !! feedType k = feed_cache s2 !! feedType k /\
  feed_metadata s1 !! feedType k = feed_metadata s2 !! feedType k /\
  feeds s1 !! artifact k = feeds s2 !! artifact k /\
  lastFetchTimes s1 !! feedType k = lastFetchTimes s2 !! feedType k /\
  requests k s1 = requests k s2 /\
  materializations k s1 = materializations k s2.
Proof. intros [Hc Hv]. unfold view in Hv. by simplify_eq. Qed.

Ltac local_step :=
  match goal with
  | |- local _ (bind _ _) => apply local_bind; [|intros ?]
  | |- local _ (try_catch _ _) => apply local_try_catch; [|intros ?]
  | |- local _ (ret _) => apply local_ret
  | |- local _ (throw _) => apply local_throw
  | |- local _ (lift _) => apply local_lift
  | |- local _ (guard _ _ _) => apply local_guard
  | |- local _ (gets _) =>
      apply local_gets;
      let H := fresh in
      intros ? ? H; apply sim_view in H; destruct H as (? & ? & ? & ? & ? & ? & ?)
  | |- local _ (modify _) =>
      apply local_modify;
      let H := fresh in
      intros ? ? H; apply sim_view in H; destruct H as (? & ? & ? & ? & ? & ? & ?)
  | |- local _ (match ?x with _ => _ end) => destruct x
  end.

Ltac local_tac := repeat local_step.

(** ** The per-kind refresh *)

Section Scheduler.
Context {R : Runtime} (env : Env).

Lemma normalize_queue_length d :
  JS.prop (normalize Queue d) "length" = Normal (JS.member (normalize Queue d) "length").
Proof.
  unfold normalize, JS.or.
  destruct (JS.truthy (if JS.truthy (JS.member d "records")
                       then JS.member d "records" else d)) eqn:E; [|done].
  by destruct (if JS.truthy (JS.member d "records") then JS.member d "records" else d).
Qed.

(** each of the three methods is the refresh of its kind *)
Lemma update_refresh k s : update env k s = refresh env k s.
Proof.
  destruct k;
    unfold update, refresh, attempt, fetchStep, materializeStep, recordError,
      fetchRemote, updateCalendarFeed, updateNotificationFeed, updateQueueFeed,
      try_catch, bind, generate, countItems;
    cbn [feedType normalize].
  - destruct (getCachedFeedData env "calendar" s) as [[v|m] s1]; [|done].
    destruct (JS.truthy v); cbn [negb]; [done|].
    unfold gets.
    destruct (getCalendar _ _ _) as [[d|m] s2]; [|done].
    by destruct (setCachedFeedData _ _ _ _) as [[u|m] s3].
  - destruct (getCachedFeedData env "notification" s) as [[v|m] s1]; [|done].
    destruct (JS.truthy v); cbn [negb]; [done|].
    destruct (getNotifications _ _) as [[d|m] s2]; [|done].
    by destruct (setCachedFeedData _ _ _ _) as [[u|m] s3].
  - destruct (getCachedFeedData env "queue" s) as [[v|m] s1]; [|done].
    destruct (JS.truthy v); cbn [negb].
    + unfold ret. fold (normalize Queue v).
      destruct (generateQueueFeed _ _ _) as [[u|m] s3]; [|done].
      unfold gets, modify, lift. by rewrite normalize_queue_length.
    + destruct (getQueue _ _ _) as [[d|m] s2]; [|done].
      destruct (setCachedFeedData _ _ _ _) as [[u|m] s3]; [|done].
      unfold ret. fold (normalize Queue d).
      destruct (generateQueueFeed _ _ _) as [[u'|m] s4]; [|done].
      unfold gets, modify, lift. by rewrite normalize_queue_length.
Qed.

(** *** Footprints *)

Lemma keeps_getCachedFeedData {T} (V : State -> T) feedType :
  keeps V (getCachedFeedData env feedType).
Proof. intros s. by rewrite getCachedFeedData_state. Qed.

Lemma keeps_setCachedFeedData {T} (V : State -> T) feedType d :
  (forall row s, V (set_feed_cache (<[feedType := row]> (feed_cache s)) s) = V s) ->
  keeps V (setCachedFeedData env feedType d).
Proof. intros H. unfold setCachedFeedData. keeps_tac. apply H. Qed.

Lemma keeps_setFeedMetadata {T} (V : State -> T) feedType md :
  (forall row s, V (set_feed_metadata (<[feedType := row]> (feed_metadata s)) s) = V s) ->
  keeps V (setFeedMetadata env feedType md).
Proof. intros H. unfold setFeedMetadata. keeps_tac. apply H. Qed.

Lemma keeps_client_get {T} (V : State -> T) path params :
  (forall s, V (set_trace (push (Requested path params) (trace s)) s) = V s) ->
  keeps V (client_get env path params).
Proof. intros H. unfold client_get, emit. keeps_tac. apply H. Qed.

Lemma keeps_generateFeed {T} (V : State -> T) title description path file body d :
  (forall s, V (set_trace (push (Materialized file) (trace s)) s) = V s) ->
  (forall text s, V (set_feeds (<[file := text]> (feeds s)) s) = V s) ->
  keeps V (generateFeed env title description path file body d).
Proof.
  intros Ht Hf. unfold generateFeed, emit, createBaseFeed, writeFile. keeps_tac.
  all: first [apply Ht | apply Hf].
Qed.

Lemma keeps_generate {T} (V : State -> T) k d :
  (forall s, V (set_trace (push (Materialized (artifact k)) (trace s)) s) = V s) ->
  (forall text s, V (set_feeds (<[artifact k := text]> (feeds s)) s) = V s) ->
  keeps V (generate env k d).
Proof. intros Ht Hf. destruct k; by apply keeps_generateFeed. Qed.

(** the fetch step touches the cache row of its kind and sends requests
    to the path of its kind, nothing else *)
Lemma keeps_fetchStep {T} (V : State -> T) k :
  (forall row s, V (set_feed_cache (<[feedType k := row]> (feed_cache s)) s) = V s) ->
  (forall params s,
      V (set_trace (push (Requested (endpoint k) params) (trace s)) s) = V s) ->
  keeps V (fetchStep env k).
Proof.
  intros Hc Hr. unfold fetchStep.
  apply keeps_bind; [apply keeps_getCachedFeedData|]. intros v.
  destruct (negb (JS.truthy v)); [|apply keeps_ret].
  apply keeps_bind.
  - destruct k; unfold fetchRemote, getCalendar, getNotifications, getQueue;
      keeps_tac; apply keeps_client_get; intros; apply (Hr _ _).
  - intros d. apply keeps_bind; [by apply keeps_setCachedFeedData|].
    intros _. apply keeps_ret.
Qed.

Lemma keeps_recordError {T} (V : State -> T) k msg :
  (forall row s,
      V (set_feed_metadata (<[feedType k := row]> (feed_metadata s)) s) = V s) ->
  keeps V (recordError env k msg).
Proof.
  intros Hm. unfold recordError. keeps_tac. by apply keeps_setFeedMetadata.
Qed.

Lemma keeps_materializeStep {T} (V : State -> T) k d :
  (forall s, V (set_trace (push (Materialized (artifact k)) (trace s)) s) = V s) ->
  (forall text s, V (set_feeds (<[artifact k := text]> (feeds s)) s) = V s) ->
  (forall t s,
      V (set_lastFetchTimes (<[feedType k := t]> (lastFetchTimes s)) s) = V s) ->
  (forall row s,
      V (set_feed_metadata (<[feedType k := row]> (feed_metadata s)) s) = V s) ->
  keeps V (materializeStep env k d).
Proof.
  intros Ht Hf Hl Hm. unfold materializeStep.
  apply keeps_bind; [by apply keeps_generate|]. intros _.
  keeps_tac; [apply Hl|]. by apply keeps_setFeedMetadata.
Qed.

Lemma keeps_refresh {T} (V : State -> T) k :
  untouched V k -> keeps V (refresh env k).
Proof.
  intros [Hc Hr Ht Hf Hl Hm]. unfold refresh, attempt.
  apply keeps_try_catch.
  - apply keeps_bind; [by apply keeps_fetchStep|].
    intros d. by apply keeps_materializeStep.
  - intros msg. by apply keeps_recordError.
Qed.

Lemma keeps_update {T} (V : State -> T) k :
  untouched V k -> keeps V (update env k).
Proof.
  intros H s. unfold exec. rewrite update_refresh. by apply keeps_refresh.
Qed.

(** the refresh of one kind writes nothing that belongs to another, and
    does not touch the clock or the scheduler's jobs *)
Lemma untouched_view j k : j <> k -> untouched (view k) j.
Proof.
  intros Hjk.
  destruct j, k; try done;
    split; intros; unfold view, requests, materializations, push; simpl;
    rewrite ?lookup_insert_ne, ?List.filter_app, ?length_app by done; simpl;
    by rewrite ?Nat.add_0_r.
Qed.

Lemma untouched_clock j : untouched clock j.
Proof. by split. Qed.
Lemma untouched_cron j : untouched cron j.
Proof. by split. Qed.
Lemma untouched_jobs j : untouched jobs j.
Proof. by split. Qed.

(** *** What the refresh of a kind depends on *)

Lemma local_getCachedFeedData k : local k (getCachedFeedData env (feedType k)).
Proof. unfold getCachedFeedData. local_tac; try done; congruence. Qed.

Lemma sim_insert_cache k row s1 s2 :
  sim k s1 s2 ->
  sim k (set_feed_cache (<[feedType k := row]> (feed_cache s1)) s1)
        (set_feed_cache (<[feedType k := row]> (feed_cache s2)) s2).
Proof.
  intros (? & ? & ? & ? & ? & Hr & Hm)%sim_view. split; [done|].
  unfold view, requests, materializations in *; simpl.
  rewrite !lookup_insert_eq. congruence.
Qed.

Lemma sim_insert_metadata k row s1 s2 :
  sim k s1 s2 ->
  sim k (set_feed_metadata (<[feedType k := row]> (feed_metadata s1)) s1)
        (set_feed_metadata (<[feedType k := row]> (feed_metadata s2)) s2).
Proof.
  intros (? & ? & ? & ? & ? & Hr & Hm)%sim_view. split; [done|].
  unfold view, requests, materializations in *; simpl.
  rewrite !lookup_insert_eq. congruence.
Qed.

Lemma sim_insert_feeds k text s1 s2 :
  sim k s1 s2 ->
  sim k (set_feeds (<[artifact k := text]> (feeds s1)) s1)
        (set_feeds (<[artifact k := text]> (feeds s2)) s2).
Proof.
  intros (? & ? & ? & ? & ? & Hr & Hm)%sim_view. split; [done|].
  unfold view, requests, materializations in *; simpl.
  rewrite !lookup_insert_eq. congruence.
Qed.

Lemma sim_insert_last k t s1 s2 :
  sim k s1 s2 ->
  sim k (set_lastFetchTimes (<[feedType k := t]> (lastFetchTimes s1)) s1)
        (set_lastFetchTimes (<[feedType k := t]> (lastFetchTimes s2)) s2).
Proof.
  intros (? & ? & ? & ? & ? & Hr & Hm)%sim_view. split; [done|].
  unfold view, requests, materializations in *; simpl.
  rewrite !lookup_insert_eq. congruence.
Qed.

Lemma sim_emit k e s1 s2 :
  sim k s1 s2 ->
  sim k (set_trace (push e (trace s1)) s1) (set_trace (push e (trace s2)) s2).
Proof.
  intros (? & ? & ? & ? & ? & Hr & Hm)%sim_view. split; [done|].
  unfold view, requests, materializations, push in *; simpl.
  rewrite !List.filter_app, !length_app. congruence.
Qed.

Lemma local_setCachedFeedData k d : local k (setCachedFeedData env (feedType k) d).
Proof.
  unfold setCachedFeedData.
  apply local_bind; [apply local_guard|]. intros _.
  apply local_bind; [apply local_gets; by intros ? ? [? ?]|]. intros now.
  apply local_modify. intros s1 s2 H.
  pose proof (sim_view _ _ _ H) as (_ & -> & _).
  by apply sim_insert_cache.
Qed.

Lemma local_setFeedMetadata k md : local k (setFeedMetadata env (feedType k) md).
Proof.
  unfold setFeedMetadata.
  apply local_bind; [apply local_guard|]. intros _.
  apply local_bind; [apply local_gets; by intros ? ? [? ?]|]. intros now.
  apply local_modify. intros s1 s2 H. by apply sim_insert_metadata.
Qed.

Lemma local_client_get k path params : local k (client_get env path params).
Proof.
  unfold client_get, emit.
  apply local_bind; [|intros _; apply local_lift].
  apply local_modify. intros s1 s2 H. by apply sim_emit.
Qed.

Lemma local_generateFeed k title description path body d :
  local k (generateFeed env title description path (artifact k) body d).
Proof.
  unfold generateFeed, emit, createBaseFeed, writeFile.
  apply local_bind.
  { apply local_modify. intros s1 s2 H. by apply sim_emit. }
  intros _. apply local_bind.
  { apply local_bind; [apply local_gets; by intros ? ? [? ?]|].
    intros now. apply local_ret. }
  intros feed. apply local_bind; [apply local_gets; by intros ? ? [? ?]|].
  intros now. apply local_bind; [apply local_lift|]. intros l.
  apply local_bind; [|intros _; apply local_ret].
  destruct (fault env FileWrite (artifact k)) as [msg|].
  - destruct (written env (artifact k)) as [n|]; [|apply local_throw].
    apply local_bind; [|intros _; apply local_throw].
    apply local_modify. intros s1 s2 H. by apply sim_insert_feeds.
  - apply local_modify. intros s1 s2 H. by apply sim_insert_feeds.
Qed.

Lemma local_generate k d : local k (generate env k d).
Proof.
  destruct k.
  - exact (local_generateFeed Calendar _ _ _ _ _).
  - exact (local_generateFeed Notification _ _ _ _ _).
  - exact (local_generateFeed Queue _ _ _ _ _).
Qed.

Lemma local_refresh k : local k (refresh env k).
Proof.
  unfold refresh, attempt, fetchStep, materializeStep, recordError.
  apply local_try_catch.
  - apply local_bind.
    + apply local_bind; [apply local_getCachedFeedData|]. intros v.
      destruct (negb (JS.truthy v)); [|apply local_ret].
      apply local_bind.
      * destruct k; unfold fetchRemote, getCalendar, getNotifications, getQueue.
        -- apply local_bind; [apply local_gets; by intros ? ? [? ?]|].
           intros now. apply local_client_get.
        -- apply local_client_get.
        -- apply local_client_get.
      * intros d. apply local_bind; [apply local_setCachedFeedData|].
        intros _. apply local_ret.
    + intros d. apply local_bind; [apply local_generate|]. intros _.
      apply local_bind; [apply local_gets; by intros ? ? [? ?]|]. intros now.
      apply local_bind.
      { apply local_modify. intros s1 s2 H. by apply sim_insert_last. }
      intros _. apply local_bind; [apply local_gets; by intros ? ? [? ?]|].
      intros now'. apply local_setFeedMetadata.
  - intros msg. apply local_bind; [apply local_gets; by intros ? ? [? ?]|].
    intros now. apply local_setFeedMetadata.
Qed.

Lemma local_update k : local k (update env k).
Proof.
  intros s1 s2 H. unfold outcome, exec. rewrite !update_refresh.
  by apply local_refresh.
Qed.

(** *** The cycle over all kinds *)

Lemma fetchAllFeeds_run s :
  fetchAllFeeds env s =
  (Normal tt,
   exec (update env Queue)
     (exec (update env Notification) (exec (update env Calendar) s))).
Proof.
  unfold fetchAllFeeds. cbn [allSettled].
  unfold try_catch, bind, settle, exec, update, ret.
  destruct (updateCalendarFeed env s) as [r1 s1]; cbn [snd].
  destruct (updateNotificationFeed env s1) as [r2 s2]; cbn [snd].
  by destruct (updateQueueFeed env s2) as [r3 s3].
Qed.

(** the same holds in whatever order the refreshes are run and settled *)
Lemma settled_in_any_order (l : list FeedKind) (k : FeedKind) (s : State) :
  NoDup l -> k ∈ l ->
  view k (exec (allSettled (map (update env) l)) s) = view k (exec (update env k) s).
Proof.
  assert (Hrun : forall j l' s0,
             exec (allSettled (map (update env) (j :: l'))) s0
             = exec (allSettled (map (update env) l')) (exec (update env j) s0)).
  { intros j l' s0. cbn [map allSettled]. unfold exec, bind, settle, ret.
    destruct (update env j s0) as [r s1]; cbn [snd].
    by destruct (allSettled (map (update env) l') s1) as [[rs|msg] s2]. }
  assert (Hkeep : forall l' s0,
             k ∉ l' -> view k (exec (allSettled (map (update env) l')) s0) = view k s0).
  { induction l' as [|j l' IH]; intros s0 Hk; [done|].
    rewrite Hrun. rewrite IH by set_solver.
    apply keeps_update, untouched_view. set_solver. }
  revert s. induction l as [|j l IH]; intros s Hnd Hk; [set_solver|].
  apply NoDup_cons in Hnd as [Hj Hnd]. rewrite Hrun.
  destruct (decide (j = k)) as [->|Hjk].
  - by apply Hkeep.
  - apply elem_of_cons in Hk as [Hk|Hk]; [congruence|].
    rewrite IH by done.
    apply (local_update k). split.
    + apply (keeps_update clock j (untouched_clock _)).
    + by apply (keeps_update (view k) j), untouched_view.
Qed.

(** C4. In a cycle over all kinds, what belongs to a kind afterwards (its
    cache row, its status row, its document, the time of its last fetch,
    the numbers of its upstream requests and of its materialisations) is
    what its own refresh alone would have left, whatever the refreshes of
    the other kinds do and however they end; and the cycle itself never
    fails. *)
Theorem cycle_isolates_kinds (k : FeedKind) (s : State) :
  outcome (fetchAllFeeds env) s = Normal tt /\
  view k (exec (fetchAllFeeds env) s) = view k (exec (update env k) s).
Proof.
  unfold outcome, exec at 1. rewrite fetchAllFeeds_run. simpl. split; [done|].
  set (s1 := exec (update env Calendar) s).
  set (s2 := exec (update env Notification) s1).
  assert (Hs1 : forall j, j <> Calendar -> sim j s1 s).
  { intros j Hj. split.
    - apply (keeps_update clock Calendar (untouched_clock _)).
    - by apply (keeps_update (view j) Calendar), untouched_view. }
  assert (Hs2 : forall j, j <> Notification -> sim j s2 s1).
  { intros j Hj. split.
    - apply (keeps_update clock Notification (untouched_clock _)).
    - by apply (keeps_update (view j) Notification), untouched_view. }
  destruct k.
  - rewrite (keeps_update (view Calendar) Queue) by by apply untouched_view.
    by rewrite (keeps_update (view Calendar) Notification) by by apply untouched_view.
  - rewrite (keeps_update (view Notification) Queue) by by apply untouched_view.
    by apply (local_update Notification s1 s), Hs1.
  - apply (local_update Queue s2 s).
    destruct (Hs2 Queue) as [Hc2 Hv2]; [done|].
    destruct (Hs1 Queue) as [Hc1 Hv1]; [done|].
    split; congruence.
Qed.


(** *** The outcomes of one refresh *)

Lemma setFeedMetadata_run feedType md s :
  fault env MetaWrite feedType = None ->
  setFeedMetadata env feedType md s =
  (Normal tt,
   set_feed_metadata
     (<[feedType :=
          MetadataRow (match lastFetch md with Some t => t | None => clock s end)
                      (JS.or (itemCount md) (JNum 0))
                      (JS.or_str (md_status md) "success")
                      (if String.eqb (errorMessage md) "" then None
                       else Some (errorMessage md))
                      (clock s)]> (feed_metadata s)) s).
Proof.
  intros Hf. unfold setFeedMetadata.
  by rewrite (bind_normal _ _ _ _ _ (guard_ok _ _ _ _ Hf)).
Qed.

(** what the [catch] of a refresh leaves when the status can be written *)
Lemma recordError_run k msg s :
  fault env MetaWrite (feedType k) = None ->
  recordError env k msg s =
  (Normal tt,
   set_feed_metadata
     (<[feedType k :=
          MetadataRow (clock s) (JNum 0) "error"
                      (if String.eqb msg "" then None else Some msg)
                      (clock s)]> (feed_metadata s)) s).
Proof.
  intros Hf. unfold recordError, bind, gets.
  by rewrite (setFeedMetadata_run _ _ _ Hf).
Qed.

Lemma materializations_request j path params s :
  materializations j (set_trace (push (Requested path params) (trace s)) s)
  = materializations j s.
Proof.
  unfold materializations, push. simpl.
  rewrite List.filter_app, length_app. simpl. lia.
Qed.

Lemma requests_materialized j file s :
  requests j (set_trace (push (Materialized file) (trace s)) s) = requests j s.
Proof.
  unfold requests, push. simpl.
  rewrite List.filter_app, length_app. simpl. lia.
Qed.

(** C3. When the fetch step of the refresh of a kind fails, the
    materialiser is not invoked, no document of the feeds directory
    changes, so that [readFeed] serves what it served before, and the
    status row of the kind says [error] with the message of the failure
    (an empty message is stored as [null]). *)
Theorem fetch_failure_recorded (k : FeedKind) (msg : string) (s : State) :
  outcome (fetchStep env k) s = Throw msg ->
  fault env MetaWrite (feedType k) = None ->
  (forall j, materializations j (exec (update env k) s) = materializations j s) /\
  feeds (exec (update env k) s) = feeds s /\
  outcome (readFeed env (feedType k)) (exec (update env k) s)
  = outcome (readFeed env (feedType k)) s /\
  feed_metadata (exec (update env k) s) !! feedType k =
    Some (MetadataRow (clock s) (JNum 0) "error"
                      (if String.eqb msg "" then None else Some msg)
                      (clock s)).
Proof.
  intros Hfail Hf.
  cut ((forall j, materializations j (exec (update env k) s) = materializations j s) /\
       feeds (exec (update env k) s) = feeds s /\
       feed_metadata (exec (update env k) s) !! feedType k =
         Some (MetadataRow (clock s) (JNum 0) "error"
                           (if String.eqb msg "" then None else Some msg)
                           (clock s))).
  { intros (H1 & H2 & H3). repeat split; try done.
    unfold outcome, readFeed, bind, gets, guard.
    destruct (fault env FileRead _); simpl; [done|]. by rewrite H2. }
  unfold exec at 1 2 3. rewrite update_refresh.
  unfold refresh, attempt.
  assert (Hclock : clock (exec (fetchStep env k) s) = clock s)
    by by apply keeps_fetchStep.
  assert (Hfeeds : feeds (exec (fetchStep env k) s) = feeds s)
    by by apply keeps_fetchStep.
  assert (Hmat : forall j,
             materializations j (exec (fetchStep env k) s) = materializations j s).
  { intros j. apply (keeps_fetchStep (materializations j)); [done|].
    intros. apply materializations_request. }
  unfold outcome, exec in *.
  destruct (fetchStep env k s) as [r s1] eqn:E. simpl in *. subst r.
  rewrite (try_catch_throw _ _ _ msg s1) by by rewrite (bind_throw _ _ _ _ _ E).
  rewrite (recordError_run _ _ _ Hf). simpl.
  rewrite lookup_insert_eq, Hclock. done.
Qed.

(** C10. When the refresh of a kind fails, at whatever step of its [try]
    block, the status row written for the kind has item count 0 and
    state [error], whatever the row held before. *)
Theorem failed_refresh_resets_item_count (k : FeedKind) (msg : string) (s : State) :
  outcome (attempt env k) s = Throw msg ->
  fault env MetaWrite (feedType k) = None ->
  exists row,
    feed_metadata (exec (update env k) s) !! feedType k = Some row /\
    item_count row = JNum 0 /\
    status row = "error".
Proof.
  intros Hfail Hf. unfold exec. rewrite update_refresh. unfold refresh.
  unfold outcome in Hfail.
  destruct (attempt env k s) as [r s1] eqn:E. simpl in Hfail. subst r.
  rewrite (try_catch_throw _ _ _ _ _ E), (recordError_run _ _ _ Hf). simpl.
  rewrite lookup_insert_eq. eauto.
Qed.

(** after the document is generated, what is left of a refresh writes
    the time of the last fetch and the status, nothing else *)
Lemma after_generate {T} (V : State -> T) k d s :
  (forall t s,
      V (set_lastFetchTimes (<[feedType k := t]> (lastFetchTimes s)) s) = V s) ->
  (forall row s,
      V (set_feed_metadata (<[feedType k := row]> (feed_metadata s)) s) = V s) ->
  V (exec (try_catch (materializeStep env k d) (recordError env k)) s) =
  V (exec (generate env k (normalize k d)) s).
Proof.
  intros Hl Hm.
  set (rest := (let* now := gets clock in
                modify (fun s => set_lastFetchTimes
                                   (<[feedType k := now]> (lastFetchTimes s)) s) ;;
                let* now := gets clock in
                setFeedMetadata env (feedType k)
                  (Metadata (Some now) (countItems k d) "success" "")) : M unit).
  assert (Hrest : keeps V rest).
  { unfold rest. keeps_tac; [apply Hl|]. by apply keeps_setFeedMetadata. }
  change (materializeStep env k d)
    with (bind (generate env k (normalize k d)) (fun _ => rest)).
  unfold exec, try_catch, bind.
  destruct (generate env k (normalize k d) s) as [[text|msg] s1]; simpl.
  - specialize (Hrest s1). unfold exec in Hrest.
    destruct (rest s1) as [[u|msg] s2]; simpl in *; [done|].
    rewrite <- Hrest. by apply (keeps_recordError V k msg).
  - by apply (keeps_recordError V k msg).
Qed.

Lemma generate_trace k d s :
  trace (exec (generate env k d) s) = push (Materialized (artifact k)) (trace s).
Proof.
  assert (H : forall title description path body,
             trace (exec (generateFeed env title description path (artifact k) body d) s)
             = push (Materialized (artifact k)) (trace s)).
  { intros. unfold generateFeed.
    set (rest := (let* feed := createBaseFeed env title description
                                 (localhost env +:+ path) in _)).
    assert (Hrest : keeps trace rest).
    { unfold rest, createBaseFeed, writeFile. by keeps_tac. }
    unfold exec, bind, emit, modify. simpl. apply Hrest. }
  destruct k; apply H.
Qed.

(** when the cache read returns a truthy payload, the refresh goes on
    without the upstream *)
Lemma truthy_read_skips_upstream (k : FeedKind) (v : json) (s : State) :
  outcome (getCachedFeedData env (feedType k)) s = Normal v ->
  JS.truthy v = true ->
  (forall j, requests j (exec (update env k) s) = requests j s) /\
  materializations k (exec (update env k) s) = S (materializations k s) /\
  feeds (exec (update env k) s) = feeds (exec (generate env k (normalize k v)) s).
Proof.
  intros Hhit Htruthy.
  assert (Hfetch : fetchStep env k s = (Normal v, s)).
  { pose proof (getCachedFeedData_state env (feedType k) s) as Hs.
    unfold fetchStep, bind, outcome, exec in *.
    destruct (getCachedFeedData env (feedType k) s) as [r s0]. simpl in *. subst.
    by rewrite Htruthy. }
  assert (Hrun : forall {T} (V : State -> T),
             V (exec (update env k) s) =
             V (exec (try_catch (materializeStep env k v) (recordError env k)) s)).
  { intros T V. unfold exec. rewrite update_refresh. unfold refresh, attempt.
    unfold try_catch at 1 2. by rewrite (bind_normal _ _ _ _ _ Hfetch). }
  split; [|split].
  - intros j. rewrite (Hrun _ (requests j)), after_generate by done.
    apply keeps_generate; [intros; apply requests_materialized | done].
  - rewrite (Hrun _ (materializations k)), after_generate by done.
    unfold materializations. rewrite generate_trace. unfold push.
    rewrite List.filter_app, length_app. simpl.
    rewrite String.eqb_refl. simpl. lia.
  - by rewrite (Hrun _ feeds), after_generate.
Qed.

(** C2, as the code has it. When the refresh of a kind finds a fresh
    cache row whose payload is truthy (not [null], [false], 0 or the
    empty string), it sends no request upstream, invokes the materialiser
    once, and leaves the feeds directory as materialising the cached
    payload leaves it. *)
Theorem truthy_hit_skips_upstream (k : FeedKind) (row : cache_row) (v : json)
    (s : State) :
  fault env CacheRead (feedType k) = None ->
  feed_cache s !! feedType k = Some row ->
  clock s - updated_at row < cacheTTL env ->
  JSON_parse (data row) = Some v ->
  JS.truthy v = true ->
  (forall j, requests j (exec (update env k) s) = requests j s) /\
  materializations k (exec (update env k) s) = S (materializations k s) /\
  feeds (exec (update env k) s) = feeds (exec (generate env k (normalize k v)) s).
Proof.
  intros Hf Hrow Hage Hparse Htruthy.
  apply truthy_read_skips_upstream; [|done].
  unfold outcome. rewrite (getCachedFeedData_run _ _ _ Hf), Hrow. simpl.
  apply Z.ltb_lt in Hage. by rewrite Hage, Hparse.
Qed.

(** *** Requests for one kind, and kinds that do not exist *)

(** [manualUpdate] of a name that is none of the three kinds throws and
    does nothing *)
Lemma manualUpdate_unknown (feedType : string) (s : State) :
  feedType <> "" -> feedType <> "calendar" ->
  feedType <> "notification" -> feedType <> "queue" ->
  manualUpdate env (Some feedType) s = (Throw ("Unknown feed type: " +:+ feedType), s).
Proof.
  intros H0 H1 H2 H3. unfold manualUpdate.
  destruct (String.eqb_spec feedType ""); [done|].
  destruct (String.eqb_spec feedType "calendar"); [done|].
  destruct (String.eqb_spec feedType "notification"); [done|].
  by destruct (String.eqb_spec feedType "queue").
Qed.

(** clearing the cache of one kind leaves the rows of the others, and
    every document *)
Lemma clearCachedFeedData_other (j k : FeedKind) (s : State) :
  j <> k ->
  feed_cache (exec (clearCachedFeedData env (Some (feedType j))) s) !! feedType k
  = feed_cache s !! feedType k /\
  feeds (exec (clearCachedFeedData env (Some (feedType j))) s) = feeds s.
Proof.
  intros Hjk. unfold clearCachedFeedData, exec, bind, guard, modify.
  destruct j, k; try done; simpl;
    match goal with
    | |- context [fault env CacheDelete ?key] => destruct (fault env CacheDelete key)
    end; simpl; by rewrite ?lookup_delete_ne.
Qed.

(** *** Starting and stopping *)

Lemma keeps_fetchAllFeeds {T} (V : State -> T) :
  (forall k, untouched V k) -> keeps V (fetchAllFeeds env).
Proof.
  intros H s. unfold exec at 1. rewrite fetchAllFeeds_run. simpl.
  rewrite (keeps_update V Queue (H _)), (keeps_update V Notification (H _)).
  apply (keeps_update V Calendar (H _)).
Qed.

Lemma start_run s : start env s = fetchAllFeeds env (started s).
Proof. reflexivity. Qed.

Lemma start_cron s :
  cron (exec (start env) s) =
  push (CronTask ("*/" +:+ pretty (Z.max 1 (fetchFrequency s / 60000)) +:+ " * * * *")
                 true) (cron s).
Proof.
  unfold exec. rewrite start_run.
  etrans; [apply (keeps_fetchAllFeeds cron untouched_cron)|].
  unfold started, push. simpl.
  replace (length (cron s)) with (length (cron s) + 0)%nat at 1 by lia.
  by rewrite alter_app_r.
Qed.

Lemma start_jobs s :
  jobs (exec (start env) s) = <["rss-fetcher" := length (cron s)]> (jobs s).
Proof.
  unfold exec. rewrite start_run.
  etrans; [apply (keeps_fetchAllFeeds jobs untouched_jobs)|]. done.
Qed.

(** every [start()] adds a started task, whether one is running or not *)
Lemma start_adds_a_task s : activeTasks (exec (start env) s) = S (activeTasks s).
Proof.
  unfold activeTasks. rewrite start_cron. unfold push.
  rewrite List.filter_app, length_app. simpl. lia.
Qed.

(** C5, where the code departs from it. One [start()] on a stopped
    scheduler leaves one started task. A second [start()] while running
    leaves two: the job map still has the single entry [rss-fetcher],
    which now holds the second task, and the first task is started and
    out of reach, so that it is still started after [stop()]. *)
Theorem second_start_leaks_a_task (t : Z) :
  let s1 := exec (start env) (boot env t) in
  let s2 := exec (start env) s1 in
  let s3 := exec stop s2 in
  (isRunning s1 = true /\ activeTasks s1 = 1%nat) /\
  (isRunning s2 = true /\ activeJobs s2 = ["rss-fetcher"] /\ activeTasks s2 = 2%nat) /\
  (isRunning s3 = false /\ activeTasks s3 = 1%nat).
Proof.
  intros s1 s2 s3.
  assert (Hc1 : cron s1 = [CronTask ("*/" +:+ pretty (Z.max 1 (fetchFrequency (boot env t) / 60000)) +:+ " * * * *") true])
    by (unfold s1; by rewrite start_cron).
  assert (Hj1 : jobs s1 = {["rss-fetcher" := 0%nat]})
    by (unfold s1; by rewrite start_jobs).
  assert (Hc2 : exists p1 p2, cron s2 = [CronTask p1 true; CronTask p2 true]).
  { unfold s2. rewrite start_cron, Hc1. by eexists _, _. }
  assert (Hj2 : jobs s2 = {["rss-fetcher" := 1%nat]}).
  { unfold s2. rewrite start_jobs, Hc1, Hj1. simpl.
    by rewrite insert_singleton_eq. }
  destruct Hc2 as (p1 & p2 & Hc2).
  assert (Hs3 : cron s3 = [CronTask p1 true; CronTask p2 false] /\ jobs s3 = ∅).
  { unfold s3, stop, exec, bind, gets. rewrite Hj2, map_to_list_singleton. simpl.
    unfold set_running, modify, bind, ret. simpl. by rewrite Hc2. }
  destruct Hs3 as [Hc3 Hj3].
  unfold isRunning, activeJobs, activeTasks.
  rewrite Hc1, Hj1, Hc2, Hj2, Hc3, Hj3, map_to_list_singleton, map_size_singleton.
  done.
Qed.

End Scheduler.

(** * Further properties of the code *)

(** ** The cache store *)

Section MoreCacheStore.
Context {R : Runtime} (env : Env).

(** X1. [setCachedFeedData] is an upsert on the row of its feed type: the
    row then holds the serialised payload and the time of the write as
    [updated_at], keeps the [created_at] it had (the time of the write if
    it is new), and no other row, no status row and no document
    changes. *)
Theorem setCachedFeedData_upserts_one_row (feedType : string) (d : json) (s : State) :
  fault env CacheWrite feedType = None ->
  feed_cache (exec (setCachedFeedData env feedType d) s) !! feedType
  = Some (CacheRow (JSON_stringify d)
            (match feed_cache s !! feedType with
             | Some old => created_at old
             | None => clock s
             end)
            (clock s)) /\
  (forall other, other <> feedType ->
     feed_cache (exec (setCachedFeedData env feedType d) s) !! other
     = feed_cache s !! other) /\
  feed_metadata (exec (setCachedFeedData env feedType d) s) = feed_metadata s /\
  feeds (exec (setCachedFeedData env feedType d) s) = feeds s.
Proof.
  intros Hf. unfold exec. rewrite (setCachedFeedData_run _ _ _ _ Hf). simpl.
  rewrite lookup_insert_eq. repeat split.
  intros other Hne. by rewrite lookup_insert_ne.
Qed.

Lemma clearCachedFeedData_one_run (feedType : string) (s : State) :
  feedType <> "" ->
  fault env CacheDelete feedType = None ->
  clearCachedFeedData env (Some feedType) s
  = (Normal tt, set_feed_cache (delete feedType (feed_cache s)) s).
Proof.
  intros Hne Hf. unfold clearCachedFeedData.
  destruct (String.eqb_spec feedType ""); [done|].
  by rewrite (bind_normal _ _ _ _ _ (guard_ok _ _ _ _ Hf)).
Qed.

Lemma clearCachedFeedData_all_run (s : State) :
  fault env CacheDelete "" = None ->
  clearCachedFeedData env None s = (Normal tt, set_feed_cache ∅ s).
Proof.
  intros Hf. unfold clearCachedFeedData.
  by rewrite (bind_normal _ _ _ _ _ (guard_ok _ _ _ _ Hf)).
Qed.

(** X2. After the cache of a feed type is cleared, a read of that feed
    type returns [null], however fresh the row was; the rows of the other
    feed types, the status rows and the documents are as before. *)
Theorem clear_then_read_misses (feedType : string) (s : State) :
  feedType <> "" ->
  fault env CacheDelete feedType = None ->
  fault env CacheRead feedType = None ->
  outcome (clearCachedFeedData env (Some feedType) ;;
           getCachedFeedData env feedType) s = Normal JNull /\
  (forall other, other <> feedType ->
     feed_cache (exec (clearCachedFeedData env (Some feedType)) s) !! other
     = feed_cache s !! other) /\
  feed_metadata (exec (clearCachedFeedData env (Some feedType)) s) = feed_metadata s /\
  feeds (exec (clearCachedFeedData env (Some feedType)) s) = feeds s.
Proof.
  intros Hne Hd Hr. unfold outcome, exec.
  rewrite (bind_normal _ _ _ _ _ (clearCachedFeedData_one_run _ _ Hne Hd)).
  rewrite (clearCachedFeedData_one_run _ _ Hne Hd).
  rewrite (getCachedFeedData_run _ _ _ Hr). simpl.
  rewrite lookup_delete_eq. repeat split.
  intros other Ho. by rewrite lookup_delete_ne.
Qed.

(** X3. Clearing is idempotent: clearing the cache of a feed type that
    has no row is not an error and changes nothing, so that clearing
    twice leaves what clearing once leaves. *)
Theorem clear_is_idempotent (feedType : string) (s : State) :
  feedType <> "" ->
  fault env CacheDelete feedType = None ->
  clearCachedFeedData env (Some feedType)
    (exec (clearCachedFeedData env (Some feedType)) s)
  = (Normal tt, exec (clearCachedFeedData env (Some feedType)) s).
Proof.
  intros Hne Hd. unfold exec.
  rewrite !(clearCachedFeedData_one_run _ _ Hne Hd). simpl.
  unfold set_feed_cache. simpl. by rewrite delete_delete_eq.
Qed.

(** X4. Clearing without a feed type empties the cache: afterwards a read
    returns [null] for every feed type. *)
Theorem clear_all_then_every_read_misses (feedType : string) (s : State) :
  fault env CacheDelete "" = None ->
  fault env CacheRead feedType = None ->
  outcome (clearCachedFeedData env None ;; getCachedFeedData env feedType) s
  = Normal JNull.
Proof.
  intros Hd Hr. unfold outcome.
  rewrite (bind_normal _ _ _ _ _ (clearCachedFeedData_all_run _ Hd)).
  by rewrite (getCachedFeedData_run _ _ _ Hr).
Qed.

(** X5. A TTL of 0, like one that is unset or not a number, does not
    switch the cache off: the TTL in force is then 600000 ms, and a row
    younger than that is a hit. *)
Theorem zero_ttl_means_ten_minutes (feedType : string) (row : cache_row)
    (payload : json) (s : State) :
  RSS_CACHE_TTL env = Some 0 \/ RSS_CACHE_TTL env = None ->
  fault env CacheRead feedType = None ->
  feed_cache s !! feedType = Some row ->
  JSON_parse (data row) = Some payload ->
  clock s - updated_at row < 600000 ->
  outcome (getCachedFeedData env feedType) s = Normal payload.
Proof.
  intros Httl Hf Hrow Hparse Hage. unfold outcome.
  rewrite (getCachedFeedData_run _ _ _ Hf), Hrow. simpl.
  assert (cacheTTL env = 600000) as ->
    by (unfold cacheTTL, parseInt_or; by destruct Httl as [-> | ->]).
  apply Z.ltb_lt in Hage. by rewrite Hage, Hparse.
Qed.

(** X6. A negative TTL switches the cache off: no row written at or
    before the present is ever a hit. *)
Theorem negative_ttl_never_hits (feedType : string) (n : Z) (s : State) :
  RSS_CACHE_TTL env = Some n -> n < 0 ->
  fault env CacheRead feedType = None ->
  (forall row, feed_cache s !! feedType = Some row -> updated_at row <= clock s) ->
  outcome (getCachedFeedData env feedType) s = Normal JNull.
Proof.
  intros Hn Hneg Hf Hpast. unfold outcome.
  rewrite (getCachedFeedData_run _ _ _ Hf). simpl.
  destruct (feed_cache s !! feedType) as [row|] eqn:Hrow; [|done].
  specialize (Hpast row eq_refl).
  rewrite (cacheTTL_configured env n Hn) by lia.
  destruct (Z.ltb_spec (clock s - updated_at row) n); [lia|done].
Qed.

End MoreCacheStore.

(** ** The feed materialiser *)

Section MoreMaterializer.
Context {R : Runtime} (env : Env).

Lemma escapeChars_app (s1 s2 : string) :
  escapeChars (s1 +:+ s2) = escapeChars s1 +:+ escapeChars s2.
Proof.
  induction s1 as [|a s1 IH]; [done|].
  rewrite append_cons. cbn [escapeChars]. by rewrite IH, append_assoc.
Qed.

(** X7. [escapeHtml] escapes every character of its input once and on
    its own, in spite of running five replacements one after the other:
    escaping a concatenation gives the concatenation of the escaped
    parts. *)
Theorem escapeHtml_is_a_homomorphism (s1 s2 : string) :
  exists e1 e2,
    escapeHtml (JStr s1) = Normal e1 /\
    escapeHtml (JStr s2) = Normal e2 /\
    escapeHtml (JStr (s1 +:+ s2)) = Normal (e1 +:+ e2).
Proof.
  exists (escapeChars s1), (escapeChars s2).
  by rewrite !escapeHtml_string, escapeChars_app.
Qed.

(** X8. Whatever [escapeHtml] returns holds none of the characters [<],
    [>], double quote and apostrophe. *)
Theorem escapeHtml_output_is_inert (text : json) (e : string) :
  escapeHtml text = Normal e -> has_special e = false.
Proof. apply escapeHtml_safe. Qed.

(** X9. A text without any of the five characters [&], [<], [>], double
    quote and apostrophe comes back from [escapeHtml] unchanged. *)
Theorem escapeHtml_keeps_plain_text (s : string) :
  plain s = true -> escapeHtml (JStr s) = Normal s.
Proof.
  intros Hs. rewrite escapeHtml_string. f_equal.
  induction s as [|a s IH]; [done|].
  cbn [plain] in Hs. apply andb_true_iff in Hs as [Ha Hs].
  apply andb_true_iff in Ha as [Hamp Hspec].
  cbn [escapeChars]. rewrite (IH Hs). unfold escapeChar.
  unfold special in Hspec.
  destruct (Ascii.eqb a "&"); [done|].
  destruct (Ascii.eqb a "<"); [done|].
  destruct (Ascii.eqb a ">"); [done|].
  destruct (Ascii.eqb a JS.dquote); [done|].
  by destruct (Ascii.eqb a "'").
Qed.

(** *** One item per record, or no document at all *)

Lemma mapC_length {A B} (f : A -> completion B) (l : list A) (r : list B) :
  mapC f l = Normal r -> length r = length l.
Proof.
  revert r. induction l as [|x l IH]; intros r H; [by simplify_eq/=|].
  cbn [mapC] in H. destruct (f x) as [y|msg]; [|done]. cbn [cbind] in H.
  destruct (mapC f l) as [ys|msg]; [|done]. cbn [cbind] in H.
  simplify_eq. simpl. by rewrite (IH ys).
Qed.

Lemma mapC_throws {A B} (f : A -> completion B) (l : list A) (x : A) :
  In x l -> (exists msg, f x = Throw msg) -> exists msg, mapC f l = Throw msg.
Proof.
  intros Hin [msg Hx]. induction l as [|y l IH]; [done|].
  cbn [mapC]. destruct (f y) as [b|m] eqn:Hy; [|by eexists].
  cbn [cbind]. destruct Hin as [->|Hin]; [congruence|].
  destruct (IH Hin) as [m ->]. by eexists.
Qed.

(** how [generateFeed] ends: with the serialisation of the base feed and
    the items of the records, written to the file; with the error of a
    record, and the feeds directory as it was; or with the error of the
    write, and the file as it was or holding the part that was written *)
Lemma generateFeed_cases title description path file body d s :
  (exists feed l,
      forEachItem (body (clock s)) d = Normal l /\
      feed_title feed = title /\ feed_description feed = description /\
      items feed = l /\
      outcome (generateFeed env title description path file body d) s
      = Normal (xml feed) /\
      feeds (exec (generateFeed env title description path file body d) s)
      = <[file := xml feed]> (feeds s)) \/
  (exists msg,
      forEachItem (body (clock s)) d = Throw msg /\
      outcome (generateFeed env title description path file body d) s = Throw msg /\
      feeds (exec (generateFeed env title description path file body d) s) = feeds s) \/
  (exists msg feed l,
      forEachItem (body (clock s)) d = Normal l /\
      feed_title feed = title /\ items feed = l /\
      fault env FileWrite file = Some msg /\
      outcome (generateFeed env title description path file body d) s = Throw msg /\
      feeds (exec (generateFeed env title description path file body d) s)
      = match written env file with
        | Some n => <[file := substring 0 n (xml feed)]> (feeds s)
        | None => feeds s
        end).
Proof.
  unfold outcome, exec, generateFeed, bind, emit, modify, createBaseFeed, gets,
    ret, lift, writeFile. simpl.
  destruct (forEachItem (body (clock s)) d) as [l|msg] eqn:Hl; simpl.
  - destruct (fault env FileWrite file) as [msg|] eqn:Hf; simpl.
    + right. right. eexists msg, (RssFeed _ _ _ _ _ _ _ _ _ _ _ _ _ _), l.
      split; [done|]. simpl. split; [reflexivity|]. split; [reflexivity|].
      split; [done|]. by destruct (written env file).
    + left. eexists (RssFeed _ _ _ _ _ _ _ _ _ _ _ _ _ _), l.
      split; [done|]. simpl. repeat split; reflexivity.
  - right. left. by exists msg.
Qed.

Lemma generate_cases (k : FeedKind) d s :
  (exists feed body l,
      forEachItem body d = Normal l /\
      feed_title feed = channelTitle k /\
      feed_description feed = channelDescription k /\
      items feed = l /\
      outcome (generate env k d) s = Normal (xml feed) /\
      feeds (exec (generate env k d) s) = <[artifact k := xml feed]> (feeds s)) \/
  (exists msg,
      outcome (generate env k d) s = Throw msg /\
      (feeds (exec (generate env k d) s) = feeds s \/
       exists n feed,
         feed_title feed = channelTitle k /\
         fault env FileWrite (artifact k) = Some msg /\
         written env (artifact k) = Some n /\
         feeds (exec (generate env k d) s)
         = <[artifact k := substring 0 n (xml feed)]> (feeds s))).
Proof.
  destruct k; cbn [generate];
    unfold generateCalendarFeed, generateNotificationFeed, generateQueueFeed;
    match goal with
    | |- context [generateFeed env ?t ?de ?p ?f ?b d] =>
        destruct (generateFeed_cases t de p f b d s)
          as [(feed & l & Hl & Ht & Hd & Hi & Ho & Hf)
             | [(msg & Hl & Ho & Hf)
               | (msg & feed & l & Hl & Ht & Hi & Hfault & Ho & Hf)]]
    end;
    try (left; eexists _, _, _; repeat (split; [eassumption|]); eassumption);
    try (right; exists msg; split; [assumption|]; by left);
    right; exists msg; (split; [assumption|]);
    cbn [artifact] in *;
    match type of Hf with
    | context [written env ?file] =>
        destruct (written env file) as [n|] eqn:Hn; [|by left];
        right; by exists n, feed
    end.
Qed.


(** X11. A generator that succeeds on a list of records has made one item
    per record: the document it returns and writes is the serialisation of
    a feed with the title of the kind and as many items as the list has
    records. *)
Theorem one_item_per_record (k : FeedKind) (l : list json) (doc : string)
    (s : State) :
  outcome (generate env k (JArr l)) s = Normal doc ->
  exists feed,
    doc = xml feed /\
    feed_title feed = channelTitle k /\
    length (items feed) = length l /\
    feeds (exec (generate env k (JArr l)) s) !! artifact k = Some doc.
Proof.
  intros H.
  destruct (generate_cases k (JArr l) s)
    as [(feed & body & its & Hl & Ht & _ & Hi & Ho & Hf) | (msg & Ho & _)];
    [|congruence].
  exists feed. rewrite Ho in H. injection H as <-.
  split; [done|]. split; [done|]. split.
  - rewrite Hi. cbn [forEachItem] in Hl. by apply (mapC_length body).
  - by rewrite Hf, lookup_insert_eq.
Qed.

(** X12. One [null] among the records makes the whole materialisation
    fail, for each of the three kinds: the generator throws (a property
    of [null] is read) and no document is written. *)
Theorem null_record_fails_the_feed (k : FeedKind) (l : list json) (s : State) :
  In JNull l ->
  (exists msg, outcome (generate env k (JArr l)) s = Throw msg) /\
  feeds (exec (generate env k (JArr l)) s) = feeds s.
Proof.
  intros Hin.
  destruct k; cbn [generate];
    unfold generateCalendarFeed, generateNotificationFeed, generateQueueFeed;
    match goal with
    | |- context [generateFeed env ?t ?de ?p ?f ?b (JArr l)] =>
        destruct (mapC_throws (b (clock s)) l JNull Hin) as [m Hm]; [by eexists|];
        destruct (generateFeed_cases t de p f b (JArr l) s)
          as [(feed & its & Hl & _)
             | [(msg & Hl & Ho & Hf) | (msg & feed & its & Hl & _)]];
        cbn [forEachItem] in Hl;
        [congruence | split; [by exists msg|done] | congruence]
    end.
Qed.

(** X13. The categories of a calendar item start with [Movie] and are at
    most five: the status, if any, and no more than three genres. *)
Theorem movie_categories_are_at_most_five (movie : json) (categories : list json) :
  getMovieCategories movie = Normal categories ->
  head categories = Some (JStr "Movie") /\ (length categories <= 5)%nat.
Proof.
  unfold getMovieCategories. destruct (JS.prop movie "status") as [st|msg]; [|done].
  cbn [cbind].
  set (base := if JS.truthy st then push st [JStr "Movie"] else [JStr "Movie"]).
  assert (Hbase : head base = Some (JStr "Movie") /\ (length base <= 2)%nat)
    by (unfold base; destruct (JS.truthy st); simpl; split; (done || lia)).
  destruct Hbase as [Hhd Hlen].
  assert (Hadd : forall extra : list json,
             (length extra <= 3)%nat ->
             head (base ++ extra) = Some (JStr "Movie") /\
             (length (base ++ extra) <= 5)%nat).
  { intros extra He. split.
    - destruct base; [done|]. done.
    - rewrite length_app. lia. }
  destruct (JS.truthy (JS.member movie "genres") &&
            gtZero (JS.member (JS.member movie "genres") "length")).
  - destruct (JS.member movie "genres") as [| | |g|g|]; try done.
    + intros [= <-]. apply Hadd. rewrite length_map.
      revert g. clear. intros g.
      assert (H : forall n m s, (String.length (substring n m s) <= m)%nat).
      { induction n as [|n IHn]; intros m s0.
        - revert s0. induction m as [|m IHm]; intros [|c s0]; simpl; try lia.
          specialize (IHm s0). lia.
        - destruct s0 as [|c s0]; simpl; [destruct m; simpl; lia|]. apply IHn. }
      assert (Hl : forall s0, length (list_ascii_of_string s0) = String.length s0)
        by (induction s0; simpl; congruence).
      rewrite Hl. apply H.
    + intros [= <-]. apply Hadd. rewrite length_take. lia.
  - intros [= <-]. split; [done|lia].
Qed.

(** *** The arithmetic of the progress *)

Ltac max_tac :=
  repeat match goal with
         | |- context [Z.max ?x ?y] =>
             first [rewrite (Z.max_l x y) by lia | rewrite (Z.max_r x y) by lia]
         | H : context [Z.max ?x ?y] |- _ =>
             first [rewrite (Z.max_l x y) in H by lia | rewrite (Z.max_r x y) in H by lia]
         end.

Lemma up_pos (e : Z) : 0 < JS.up e.
Proof. unfold JS.up. apply Z.pow_pos_nonneg; lia. Qed.

Lemma dn_pos (e : Z) : 0 < JS.dn e.
Proof. unfold JS.dn. apply Z.pow_pos_nonneg; lia. Qed.

(** [2^(x+y) = 2^x * 2^y] *)
Lemma up_dn_add (x y : Z) :
  JS.up (x + y) * JS.dn x * JS.dn y = JS.up x * JS.up y * JS.dn (x + y).
Proof.
  unfold JS.up, JS.dn. rewrite <- !Z.pow_add_r by lia. f_equal. lia.
Qed.

(** [2^(ilog2 n d) <= n / d] *)
Lemma ilog2_lower (n d : Z) :
  0 < n -> 0 < d -> d * JS.up (JS.ilog2 n d) <= n * JS.dn (JS.ilog2 n d).
Proof.
  intros Hn Hd. unfold JS.ilog2.
  destruct (Z.leb_spec (d * JS.up (Z.log2 n - Z.log2 d))
                       (n * JS.dn (Z.log2 n - Z.log2 d))) as [H|H]; [done|].
  clear H. destruct (Z.log2_spec n Hn) as [Hn1 _].
  destruct (Z.log2_spec d Hd) as [_ Hd2].
  pose proof (Z.log2_nonneg n). pose proof (Z.log2_nonneg d).
  set (a := Z.log2 n) in *. set (b := Z.log2 d) in *. clearbody a b.
  unfold JS.up, JS.dn.
  destruct (Z.le_gt_cases 0 (a - b - 1)) as [Hl|Hl].
  - max_tac. rewrite Z.pow_0_r, Z.mul_1_r.
    assert (2 ^ a = 2 ^ Z.succ b * 2 ^ (a - b - 1))
      by (rewrite <- Z.pow_add_r by lia; f_equal; lia).
    assert (0 < 2 ^ (a - b - 1)) by (apply Z.pow_pos_nonneg; lia).
    nia.
  - max_tac. rewrite Z.pow_0_r, Z.mul_1_r.
    assert (2 ^ Z.succ b = 2 ^ a * 2 ^ (- (a - b - 1)))
      by (rewrite <- Z.pow_add_r by lia; f_equal; lia).
    assert (0 < 2 ^ (- (a - b - 1))) by (apply Z.pow_pos_nonneg; lia).
    nia.
Qed.

(** [n / d < 2^(ilog2 n d + 1)] *)
Lemma ilog2_upper (n d : Z) :
  0 < n -> 0 < d ->
  n * JS.dn (JS.ilog2 n d + 1) < d * JS.up (JS.ilog2 n d + 1).
Proof.
  intros Hn Hd. unfold JS.ilog2.
  destruct (Z.leb_spec (d * JS.up (Z.log2 n - Z.log2 d))
                       (n * JS.dn (Z.log2 n - Z.log2 d))) as [H|H].
  - clear H. destruct (Z.log2_spec n Hn) as [_ Hn2].
    destruct (Z.log2_spec d Hd) as [Hd1 _].
    pose proof (Z.log2_nonneg n). pose proof (Z.log2_nonneg d).
    set (a := Z.log2 n) in *. set (b := Z.log2 d) in *. clearbody a b.
    unfold JS.up, JS.dn.
    destruct (Z.le_gt_cases 0 (a - b + 1)) as [Hl|Hl].
    + max_tac. rewrite Z.pow_0_r, Z.mul_1_r.
      assert (2 ^ Z.succ a = 2 ^ b * 2 ^ (a - b + 1))
        by (rewrite <- Z.pow_add_r by lia; f_equal; lia).
      assert (0 < 2 ^ (a - b + 1)) by (apply Z.pow_pos_nonneg; lia).
      nia.
    + max_tac. rewrite Z.pow_0_r, Z.mul_1_r.
      assert (2 ^ b = 2 ^ Z.succ a * 2 ^ (- (a - b + 1)))
        by (rewrite <- Z.pow_add_r by lia; f_equal; lia).
      assert (0 < 2 ^ (- (a - b + 1))) by (apply Z.pow_pos_nonneg; lia).
      nia.
  - by replace (Z.log2 n - Z.log2 d - 1 + 1) with (Z.log2 n - Z.log2 d) by lia.
Qed.

Lemma ilog2_lt (n d K : Z) :
  0 < n -> 0 < d -> 0 <= K -> n < d * 2 ^ K -> JS.ilog2 n d < K.
Proof.
  intros Hn Hd HK Hlt. pose proof (ilog2_lower n d Hn Hd) as H.
  destruct (Z.lt_ge_cases (JS.ilog2 n d) K) as [|Hge]; [done|exfalso].
  unfold JS.up, JS.dn in H. max_tac.
  rewrite Z.pow_0_r, Z.mul_1_r in H.
  assert (2 ^ K <= 2 ^ JS.ilog2 n d) by (apply Z.pow_le_mono_r; lia).
  nia.
Qed.

Lemma ilog2_ge (n d K : Z) :
  0 < n -> 0 < d -> 0 <= K -> d <= n * 2 ^ K -> - K <= JS.ilog2 n d.
Proof.
  intros Hn Hd HK Hle. pose proof (ilog2_upper n d Hn Hd) as H.
  destruct (Z.le_gt_cases (- K) (JS.ilog2 n d)) as [|Hlt]; [done|exfalso].
  unfold JS.up, JS.dn in H. max_tac.
  rewrite Z.pow_0_r, Z.mul_1_r in H.
  assert (2 ^ K <= 2 ^ (- (JS.ilog2 n d + 1))) by (apply Z.pow_le_mono_r; lia).
  nia.
Qed.

Lemma rne_exact (k b : Z) : 0 < b -> JS.rne (k * b) b = k.
Proof.
  intros Hb. unfold JS.rne. rewrite Z.div_mul, Z.mod_mul by lia.
  by destruct (Z.ltb_spec (2 * 0) b); [|lia].
Qed.

Lemma rne_bounds (a b : Z) :
  0 < b ->
  2 * JS.rne a b * b <= 2 * a + b /\ 2 * a <= 2 * JS.rne a b * b + b.
Proof.
  intros Hb. unfold JS.rne.
  pose proof (Z.div_mod a b ltac:(lia)) as Hdm.
  pose proof (Z.mod_pos_bound a b Hb) as Hr.
  destruct (Z.ltb_spec (2 * (a mod b)) b); [nia|].
  destruct (Z.ltb_spec b (2 * (a mod b))); [nia|].
  destruct (Z.even (a / b)); nia.
Qed.

(** a quotient that is an integer below [2^53] is a double *)
Lemma round64_exact (k c : Z) :
  0 < k < 2 ^ 53 -> 0 < c ->
  exists e, e <= 0 /\ JS.round64 (k * c) c = JS.Finite (k * JS.dn e) e.
Proof.
  intros Hk Hc. unfold JS.round64.
  destruct (Z.eqb_spec (k * c) 0) as [|_]; [nia|].
  rewrite !Z.abs_eq by nia. rewrite !Z.sgn_pos by nia.
  unfold JS.nearest.
  assert (Hf : JS.ilog2 (k * c) c < 53).
  { apply ilog2_lt; [nia|lia|lia|]. nia. }
  set (e := Z.max (JS.ilog2 (k * c) c - 52) (-1074)).
  assert (He : e <= 0) by lia.
  exists e. split; [done|].
  assert (JS.up e = 1) as -> by (unfold JS.up; by max_tac).
  rewrite Z.mul_1_r.
  replace (k * c * JS.dn e) with (k * JS.dn e * c) by lia.
  rewrite rne_exact by done.
  destruct (Z.ltb_spec 971 e); [lia|].
  destruct (Z.eqb_spec e 971); [lia|]. simpl. f_equal. lia.
Qed.

(** in the range of the normal numbers the double nearest to a quotient
    has 53 bits and is off by at most one part in [2^53] *)
Lemma nearest_normal (n d : Z) :
  0 < n -> 0 < d -> -1022 <= JS.ilog2 n d < 1023 ->
  exists m,
    JS.nearest n d = JS.Finite m (JS.ilog2 n d - 52) /\
    2 ^ 52 <= m /\
    2 ^ 53 * (m * JS.up (JS.ilog2 n d - 52)) * d
    <= (2 ^ 53 + 1) * n * JS.dn (JS.ilog2 n d - 52).
Proof.
  intros Hn Hd Hf. unfold JS.nearest.
  rewrite Z.max_l by lia.
  set (e := JS.ilog2 n d - 52).
  set (A := n * JS.dn e). set (B := d * JS.up e).
  pose proof (up_pos e) as Hup. pose proof (dn_pos e) as Hdn.
  assert (HB : 0 < B) by (unfold B; nia).
  assert (HAB : 2 ^ 52 * B <= A).
  { pose proof (ilog2_lower n d Hn Hd) as Hl.
    pose proof (up_dn_add e 52) as Hadd.
    replace (e + 52) with (JS.ilog2 n d) in Hadd by (unfold e; lia).
    pose proof (dn_pos (JS.ilog2 n d)) as Hdf.
    assert (JS.up 52 = 2 ^ 52) as E1 by reflexivity.
    assert (JS.dn 52 = 1) as E2 by reflexivity.
    rewrite E1, E2 in Hadd. unfold A, B.
    apply (Z.mul_le_mono_pos_r _ _ (JS.dn (JS.ilog2 n d))); [done|].
    nia. }
  destruct (rne_bounds A B HB) as [Hhi Hlo].
  exists (JS.rne A B).
  change (2 ^ 52) with 4503599627370496 in *.
  change (2 ^ 53) with 9007199254740992 in *.
  destruct (Z.ltb_spec 971 e); [lia|].
  destruct (Z.eqb_spec e 971); [lia|]. simpl.
  split; [done|]. split; [nia|].
  unfold A, B in *. nia.
Qed.

Lemma up_nonpos (e : Z) : e <= 0 -> JS.up e = 1.
Proof. intros H. unfold JS.up. by max_tac. Qed.

Lemma dn_nonneg (e : Z) : 0 <= e -> JS.dn e = 1.
Proof. intros H. unfold JS.dn. by max_tac. Qed.

Lemma ofZ_exact (k : Z) :
  0 < k < 2 ^ 53 -> exists e, e <= 0 /\ JS.ofZ k = JS.Finite (k * JS.dn e) e.
Proof.
  intros Hk. destruct (round64_exact k 1 Hk ltac:(lia)) as (e & He & H).
  exists e. split; [done|]. unfold JS.ofZ. by rewrite Z.mul_1_r in H.
Qed.

(** the difference of two such integers is exact as well *)
Lemma sub_exact (k1 e1 k2 e2 : Z) :
  e1 <= 0 -> e2 <= 0 -> 0 < k1 - k2 < 2 ^ 53 ->
  exists e, e <= 0 /\
    JS.sub (JS.Finite (k1 * JS.dn e1) e1) (JS.Finite (k2 * JS.dn e2) e2)
    = JS.Finite ((k1 - k2) * JS.dn e) e.
Proof.
  intros H1 H2 Hk. unfold JS.sub. rewrite !up_nonpos by done.
  pose proof (dn_pos e1). pose proof (dn_pos e2).
  destruct (round64_exact (k1 - k2) (JS.dn e1 * JS.dn e2) Hk ltac:(nia))
    as (e & He & Hr).
  exists e. split; [done|]. rewrite <- Hr. f_equal. lia.
Qed.

(** the quotient of two such integers, the smaller by the larger *)
Lemma div_below_one (k e s es : Z) :
  e <= 0 -> es <= 0 -> 0 < k < s -> s < 2 ^ 53 ->
  exists m eq,
    JS.div (JS.Finite (k * JS.dn e) e) (JS.Finite (s * JS.dn es) es) = JS.Finite m eq /\
    -105 <= eq <= -53 /\ 2 ^ 52 <= m /\
    2 ^ 53 * m < (2 ^ 53 + 1) * JS.dn eq.
Proof.
  intros He Hes Hk Hs. unfold JS.div. rewrite !up_nonpos by done.
  pose proof (dn_pos e) as Hde. pose proof (dn_pos es) as Hds.
  destruct (Z.eqb_spec (s * JS.dn es) 0); [nia|].
  set (c := JS.dn e * JS.dn es). assert (Hc : 0 < c) by (unfold c; nia).
  replace (k * JS.dn e * 1 * JS.dn es) with (k * c) by (unfold c; lia).
  replace (JS.dn e * (s * JS.dn es * 1)) with (s * c) by (unfold c; lia).
  unfold JS.round64. destruct (Z.eqb_spec (k * c) 0); [nia|].
  rewrite !Z.abs_eq by nia. rewrite !Z.sgn_pos by nia.
  change (2 ^ 53) with 9007199254740992 in *.
  assert (Hlt : JS.ilog2 (k * c) (s * c) < 0).
  { apply ilog2_lt; [nia|nia|lia|]. rewrite Z.pow_0_r. nia. }
  assert (Hge : - 53 <= JS.ilog2 (k * c) (s * c)).
  { apply (ilog2_ge _ _ 53); [nia|nia|lia|].
    change (2 ^ 53) with 9007199254740992. nia. }
  destruct (nearest_normal (k * c) (s * c)) as (m & Hm & Hm52 & Hb);
    [nia|nia|lia|].
  set (eq := JS.ilog2 (k * c) (s * c) - 52) in *.
  rewrite Hm. exists m, eq. rewrite !Z.mul_1_l.
  split; [done|]. split; [lia|]. split; [done|].
  rewrite up_nonpos in Hb by lia.
  change (2 ^ 53) with 9007199254740992 in *.
  pose proof (dn_pos eq) as Hdq.
  assert (9007199254740992 * m * s <= 9007199254740993 * k * JS.dn eq).
  { apply (Z.mul_le_mono_pos_r _ _ c); [done|]. nia. }
  assert (9007199254740993 * k * JS.dn eq < 9007199254740993 * s * JS.dn eq) by nia.
  nia.
Qed.

(** a hundred times such a quotient *)
Lemma times_hundred (m eq : Z) :
  -105 <= eq <= -53 -> 2 ^ 52 <= m -> 2 ^ 53 * m < (2 ^ 53 + 1) * JS.dn eq ->
  exists mp ep,
    JS.mul (JS.Finite m eq) (JS.ofZ 100) = JS.Finite mp ep /\
    0 < mp /\
    2 ^ 106 * (mp * JS.up ep) < (2 ^ 53 + 1) * (2 ^ 53 + 1) * 100 * JS.dn ep.
Proof.
  intros Heq Hm Hb.
  change (JS.ofZ 100) with (JS.Finite 7036874417766400 (-46)).
  unfold JS.mul. rewrite !up_nonpos by lia.
  change (JS.dn (-46)) with 70368744177664.
  pose proof (dn_pos eq) as Hdq.
  assert (Hd105 : JS.dn eq <= 2 ^ 105).
  { unfold JS.dn. max_tac. apply Z.pow_le_mono_r; lia. }
  change (2 ^ 52) with 4503599627370496 in *.
  change (2 ^ 53) with 9007199254740992 in *.
  change (2 ^ 105) with 40564819207303340847894502572032 in *.
  set (N := m * 1 * (7036874417766400 * 1)).
  set (D := JS.dn eq * 70368744177664).
  assert (HN : 0 < N) by (unfold N; lia).
  assert (HD : 0 < D) by (unfold D; lia).
  unfold JS.round64. destruct (Z.eqb_spec N 0); [lia|].
  rewrite !Z.abs_eq by lia. rewrite !Z.sgn_pos by lia.
  assert (Hlt : JS.ilog2 N D < 8).
  { apply ilog2_lt; [done|done|lia|]. change (2 ^ 8) with 256. unfold N, D. lia. }
  assert (Hge : - 53 <= JS.ilog2 N D).
  { apply (ilog2_ge _ _ 53); [done|done|lia|].
    change (2 ^ 53) with 9007199254740992. unfold N, D. lia. }
  destruct (nearest_normal N D) as (mp & Hmp & Hmp52 & Hbp); [done|done|lia|].
  set (ep := JS.ilog2 N D - 52) in *.
  rewrite Hmp, !Z.mul_1_l. exists mp, ep.
  change (2 ^ 52) with 4503599627370496 in *.
  change (2 ^ 53) with 9007199254740992 in *.
  change (2 ^ 106) with 81129638414606681695789005144064.
  split; [done|]. split; [lia|].
  pose proof (dn_pos ep) as Hdp. pose proof (up_pos ep) as Hup.
  set (num := mp * JS.up ep) in *. set (den := JS.dn ep) in *.
  unfold N, D in Hbp.
  assert (H1 : 9007199254740992 * num * JS.dn eq <= 9007199254740993 * m * 100 * den) by lia.
  assert (H2 : 9007199254740992 * (9007199254740992 * num * JS.dn eq)
               <= 9007199254740993 * (9007199254740992 * m) * 100 * den) by lia.
  assert (H3 : 9007199254740993 * (9007199254740992 * m) * 100 * den
               < 9007199254740993 * (9007199254740993 * JS.dn eq) * 100 * den).
  { apply Z.mul_lt_mono_pos_r; [done|].
    apply Z.mul_lt_mono_pos_r; [lia|].
    apply Z.mul_lt_mono_pos_l; [lia|done]. }
  apply (Z.mul_lt_mono_pos_r (JS.dn eq)); [done|]. lia.
Qed.

(** X14. Where a progress is printed, for a record whose sizes are safe
    integers with something left to download and no more left than the
    size, it is a percentage between 0.0 and 100.0: a number of tenths
    between 0 and 1000 with one digit after the point and no sign,
    computed on doubles as the program computes it. *)
Theorem progress_is_a_percentage (size sizeleft : Z) :
  0 < sizeleft <= size -> size < 2 ^ 53 ->
  exists n,
    0 <= n <= 1000 /\
    progress (JNum size) (JNum sizeleft) = pretty (n / 10) +:+ "." +:+ pretty (n mod 10).
Proof.
  intros Hleft Hsize. unfold progress. cbn [toNumber].
  destruct (ofZ_exact size ltac:(lia)) as (ex & Hex & ->).
  destruct (ofZ_exact sizeleft ltac:(lia)) as (ey & Hey & ->).
  destruct (Z.eq_dec sizeleft size) as [->|Hne].
  - exists 0. split; [lia|].
    assert (JS.sub (JS.Finite (size * JS.dn ex) ex) (JS.Finite (size * JS.dn ey) ey)
            = JS.Finite 0 0) as ->.
    { unfold JS.sub, JS.round64.
      replace (_ - _) with 0 by (rewrite !up_nonpos by done; lia). done. }
    unfold JS.div. pose proof (dn_pos ex).
    destruct (Z.eqb_spec (size * JS.dn ex) 0); [nia|]. reflexivity.
  - destruct (sub_exact size ex sizeleft ey Hex Hey ltac:(lia)) as (ed & Hed & ->).
    destruct (div_below_one (size - sizeleft) ed size ex Hed Hex ltac:(lia) Hsize)
      as (m & eq & -> & Heq & Hm & Hb).
    destruct (times_hundred m eq Heq Hm Hb) as (mp & ep & -> & Hmp & Hbp).
    unfold JS.toFixed1.
    pose proof (dn_pos ep) as Hdp. pose proof (up_pos ep) as Hup.
    rewrite Z.abs_eq by lia.
    set (num := mp * JS.up ep) in *. set (den := JS.dn ep) in *.
    change (2 ^ 53) with 9007199254740992 in *.
    change (2 ^ 106) with 81129638414606681695789005144064 in *.
    assert (Hnum : 0 < num) by (unfold num; nia).
    assert (H20 : 20 * num < 2001 * den) by lia.
    destruct (Z.ltb_spec mp 0); [lia|].
    destruct (Z.leb_spec (10 ^ 21 * den) num) as [Hbig|_].
    { change (10 ^ 21) with 1000000000000000000000 in Hbig. lia. }
    exists (JS.tenths num den). split; [|reflexivity].
    unfold JS.tenths. rewrite !Z.abs_eq by lia. split.
    + apply Z.div_pos; lia.
    + apply Z.lt_succ_r. apply Z.div_lt_upper_bound; lia.
Qed.

End MoreMaterializer.

(** ** The scheduler *)

Section MoreScheduler.
Context {R : Runtime} (env : Env).

Lemma update_after_fetch k d s s1 :
  fetchStep env k s = (Normal d, s1) ->
  update env k s = try_catch (materializeStep env k d) (recordError env k) s1.
Proof.
  intros H. rewrite update_refresh. unfold refresh, attempt.
  unfold try_catch at 1 2. by rewrite (bind_normal _ _ _ _ _ H).
Qed.

Lemma update_fetch_failed k msg s s1 :
  fetchStep env k s = (Throw msg, s1) ->
  update env k s = recordError env k msg s1.
Proof.
  intros H. rewrite update_refresh. unfold refresh, attempt.
  by rewrite (try_catch_throw _ _ _ msg s1) by by rewrite (bind_throw _ _ _ _ _ H).
Qed.

(** what follows the fetch step writes the document, the time of the last
    fetch and the status, nothing else *)
Lemma keeps_finish {T} (V : State -> T) k d :
  (forall s, V (set_trace (push (Materialized (artifact k)) (trace s)) s) = V s) ->
  (forall text s, V (set_feeds (<[artifact k := text]> (feeds s)) s) = V s) ->
  (forall t s,
      V (set_lastFetchTimes (<[feedType k := t]> (lastFetchTimes s)) s) = V s) ->
  (forall row s,
      V (set_feed_metadata (<[feedType k := row]> (feed_metadata s)) s) = V s) ->
  keeps V (try_catch (materializeStep env k d) (recordError env k)).
Proof.
  intros Ht Hf Hl Hm. apply keeps_try_catch.
  - by apply keeps_materializeStep.
  - intros msg. by apply keeps_recordError.
Qed.

(** the request of a kind: one event, and the answer of the upstream *)
Lemma fetchRemote_run k s :
  exists params,
    fetchRemote env k s
    = (upstream env (endpoint k) params,
       set_trace (push (Requested (endpoint k) params) (trace s)) s).
Proof. destruct k; by eexists. Qed.

Lemma requests_requested k params s :
  requests k (set_trace (push (Requested (endpoint k) params) (trace s)) s)
  = S (requests k s).
Proof.
  unfold requests, push. simpl.
  rewrite List.filter_app, length_app. simpl.
  rewrite String.eqb_refl. simpl. lia.
Qed.

(** how the fetch step ends on a miss *)
Lemma fetchStep_miss k v s :
  outcome (getCachedFeedData env (feedType k)) s = Normal v ->
  JS.truthy v = false ->
  exists params,
    let s1 := set_trace (push (Requested (endpoint k) params) (trace s)) s in
    fetchStep env k s =
    match upstream env (endpoint k) params with
    | Normal d =>
        match setCachedFeedData env (feedType k) d s1 with
        | (Normal _, s2) => (Normal d, s2)
        | (Throw msg, s2) => (Throw msg, s2)
        end
    | Throw msg => (Throw msg, s1)
    end.
Proof.
  intros Hread Hv.
  pose proof (getCachedFeedData_state env (feedType k) s) as Hs.
  destruct (fetchRemote_run k s) as [params Hrun]. exists params.
  unfold fetchStep, bind, outcome, exec in *.
  destruct (getCachedFeedData env (feedType k) s) as [r s0]. simpl in *. subst.
  rewrite Hv. cbn [negb]. rewrite Hrun.
  destruct (upstream env (endpoint k) params) as [d|msg]; [|done].
  by destruct (setCachedFeedData env (feedType k) d _) as [[u|msg] s2].
Qed.

(** on a miss the refresh sends exactly one request *)
Lemma miss_requests_once k v s :
  outcome (getCachedFeedData env (feedType k)) s = Normal v ->
  JS.truthy v = false ->
  requests k (exec (update env k) s) = S (requests k s).
Proof.
  intros Hread Hv. destruct (fetchStep_miss k v s Hread Hv) as [params Hstep].
  cbn zeta in Hstep.
  set (s1 := set_trace (push (Requested (endpoint k) params) (trace s)) s) in *.
  assert (Hs1 : requests k s1 = S (requests k s)) by apply requests_requested.
  assert (Hfin : forall d s2, requests k s2 = S (requests k s) ->
             requests k (exec (try_catch (materializeStep env k d) (recordError env k)) s2)
             = S (requests k s)).
  { intros d s2 <-. apply keeps_finish; try done. intros. apply requests_materialized. }
  assert (Herr : forall msg s2, requests k s2 = S (requests k s) ->
             requests k (exec (recordError env k msg) s2) = S (requests k s)).
  { intros msg s2 <-. by apply keeps_recordError. }
  unfold exec at 1.
  destruct (upstream env (endpoint k) params) as [d|msg].
  - assert (Hset : requests k (exec (setCachedFeedData env (feedType k) d) s1)
                   = S (requests k s))
      by (rewrite <- Hs1; by apply keeps_setCachedFeedData).
    unfold exec in Hset.
    destruct (setCachedFeedData env (feedType k) d s1) as [[u|msg] s2]; simpl in Hset.
    + rewrite (update_after_fetch _ _ _ _ Hstep). by apply Hfin.
    + rewrite (update_fetch_failed _ _ _ _ Hstep). by apply Herr.
  - rewrite (update_fetch_failed _ _ _ _ Hstep). by apply Herr.
Qed.

(** X15. On a cache miss, when the upstream answers, the refresh sends
    exactly one request and stores the answer in the cache row of the
    kind, with the time of the refresh; the row is there whether or not
    the materialisation that follows succeeds. *)
Theorem miss_fetches_once_and_caches (k : FeedKind) (v d : json) (s : State) :
  outcome (getCachedFeedData env (feedType k)) s = Normal v ->
  JS.truthy v = false ->
  (forall params, upstream env (endpoint k) params = Normal d) ->
  fault env CacheWrite (feedType k) = None ->
  requests k (exec (update env k) s) = S (requests k s) /\
  feed_cache (exec (update env k) s) !! feedType k
  = Some (CacheRow (JSON_stringify d)
            (match feed_cache s !! feedType k with
             | Some old => created_at old
             | None => clock s
             end)
            (clock s)).
Proof.
  intros Hread Hv Hup Hw. split; [by apply (miss_requests_once k v)|].
  destruct (fetchStep_miss k v s Hread Hv) as [params Hstep]. cbn zeta in Hstep.
  rewrite Hup, (setCachedFeedData_run _ _ _ _ Hw) in Hstep.
  unfold exec. rewrite (update_after_fetch _ _ _ _ Hstep).
  etrans; [apply (f_equal (fun c => c !! feedType k)),
           (keeps_finish feed_cache k d); done|].
  simpl. by rewrite lookup_insert_eq.
Qed.

(** X16. A refresh never retries and never calls another kind's
    endpoint: it sends at most one request to the endpoint of its kind,
    and none to the others. *)
Theorem refresh_sends_at_most_one_request (k : FeedKind) (s : State) :
  (requests k (exec (update env k) s) <= S (requests k s))%nat /\
  (forall j, j <> k -> requests j (exec (update env k) s) = requests j s).
Proof.
  split.
  - pose proof (getCachedFeedData_state env (feedType k) s) as Hs.
    destruct (getCachedFeedData env (feedType k) s) as [[v|msg] s0] eqn:Hread;
      unfold exec in Hs; rewrite Hread in Hs; simpl in Hs; subst s0.
    + destruct (JS.truthy v) eqn:Hv.
      * assert (Hstep : fetchStep env k s = (Normal v, s))
          by (unfold fetchStep, bind; by rewrite Hread, Hv).
        pose proof (keeps_finish (requests k) k v
                      (fun s0 => requests_materialized k _ s0)
                      ltac:(done) ltac:(done) ltac:(done) s) as H.
        unfold exec in *. rewrite (update_after_fetch _ _ _ _ Hstep), H. lia.
      * rewrite (miss_requests_once k v); [lia| |done].
        unfold outcome. by rewrite Hread.
    + assert (Hstep : fetchStep env k s = (Throw msg, s))
        by (unfold fetchStep, bind; by rewrite Hread).
      pose proof (keeps_recordError env (requests k) k msg ltac:(done) s) as H.
      unfold exec in *. rewrite (update_fetch_failed _ _ _ _ Hstep), H. lia.
  - intros j Hj.
    pose proof (keeps_update env (view j) k (untouched_view k j ltac:(congruence)) s) as H.
    unfold view in H. by simplify_eq.
Qed.

(** how a materialisation step that ends normally leaves the world *)
Lemma materializeStep_normal k d s s' :
  materializeStep env k d s = (Normal tt, s') ->
  exists s0,
    s' = set_feed_metadata
           (<[feedType k :=
                MetadataRow (clock s) (JS.or (countItems k d) (JNum 0)) "success"
                            None (clock s)]> (feed_metadata s0)) s0 /\
    clock s0 = clock s /\
    lastFetchTimes s0 !! feedType k = Some (clock s) /\
    feeds s0 = feeds (exec (generate env k (normalize k d)) s) /\
    outcome (generate env k (normalize k d)) s
    = Normal (default "" (feeds s0 !! artifact k)).
Proof.
  unfold materializeStep, bind, outcome, exec. intros H.
  pose proof (keeps_generate env clock k (normalize k d)
                ltac:(done) ltac:(done) s) as Hclock.
  unfold exec in Hclock.
  destruct (generate_cases env k (normalize k d) s)
    as [(feed & body & its & _ & _ & _ & _ & Ho & Hw) | (msg & Ho & _)];
    unfold outcome, exec in *;
    destruct (generate env k (normalize k d) s) as [[doc|msg'] s1];
    simpl in *; try done; simplify_eq.
  unfold setFeedMetadata, bind, guard in H. unfold gets, modify in H. simpl in H.
  destruct (fault env MetaWrite (feedType k)); simpl in H; [done|].
  unfold modify in H. injection H as <-. rewrite Hclock.
  exists (set_lastFetchTimes (<[feedType k := clock s]> (lastFetchTimes s1)) s1).
  split; [reflexivity|]. simpl.
  by rewrite lookup_insert_eq, Hw, lookup_insert_eq.
Qed.

Lemma countItems_list k (l : list json) :
  JS.or (countItems k (JArr l)) (JNum 0) = JNum (Z.of_nat (length l)).
Proof.
  destruct k; unfold countItems, normalize, JS.or; simpl;
    destruct l; simpl; try done;
    destruct (Z.eqb_spec (Z.pos (Pos.of_succ_nat (length l))) 0); done.
Qed.

(** X17. A refresh that succeeds on a payload that is a list records, for
    its kind, the state [success] with no error message, the number of
    records as the item count and the time of the refresh as the last
    fetch, in the status row and in the scheduler's own table; and the
    document of the kind exists. *)
Theorem successful_refresh_records_success (k : FeedKind) (l : list json)
    (s : State) :
  outcome (fetchStep env k) s = Normal (JArr l) ->
  outcome (attempt env k) s = Normal tt ->
  feed_metadata (exec (update env k) s) !! feedType k
  = Some (MetadataRow (clock s) (JNum (Z.of_nat (length l))) "success" None (clock s)) /\
  lastFetchTimes (exec (update env k) s) !! feedType k = Some (clock s) /\
  is_Some (feeds (exec (update env k) s) !! artifact k).
Proof.
  intros Hfetch Hattempt.
  pose proof (keeps_fetchStep env clock k ltac:(done) ltac:(done) s) as Hclock.
  unfold outcome, exec in *. rewrite update_refresh. unfold refresh, try_catch.
  unfold attempt, bind in *.
  destruct (fetchStep env k s) as [r s1]. simpl in *. subst r.
  destruct (materializeStep env k (JArr l) s1) as [[[]|msg] s2] eqn:Hm;
    simpl in *; [|done].
  destruct (materializeStep_normal _ _ _ _ Hm) as (s0 & -> & Hc & Hl & Hf & Hdoc).
  simpl. rewrite lookup_insert_eq, countItems_list, Hclock. split; [done|].
  split; [by rewrite Hl, Hclock|].
  destruct (generate_cases env k (normalize k (JArr l)) s1)
    as [(feed & body & its & _ & _ & _ & _ & Ho & Hw) | (msg & Ho & _)].
  - rewrite Hf, Hw, lookup_insert_eq. by eexists.
  - rewrite Ho in Hdoc. done.
Qed.

Lemma update_ends_normally k s :
  fault env MetaWrite (feedType k) = None ->
  outcome (update env k) s = Normal tt.
Proof.
  intros Hf. unfold outcome. rewrite update_refresh. unfold refresh, try_catch.
  destruct (attempt env k s) as [[[]|msg] s1]; [done|].
  by rewrite (recordError_run env _ _ _ Hf).
Qed.

(** X18. Unless the status row cannot be written, a refresh never fails
    and always records its outcome: it ends normally, and the status row
    of its kind then carries the time of the refresh and the state
    [success] or [error]. *)
Theorem refresh_always_records_a_status (k : FeedKind) (s : State) :
  fault env MetaWrite (feedType k) = None ->
  outcome (update env k) s = Normal tt /\
  exists row,
    feed_metadata (exec (update env k) s) !! feedType k = Some row /\
    meta_updated_at row = clock s /\
    (status row = "success" \/ status row = "error").
Proof.
  intros Hf.
  assert (Hclock : clock (exec (attempt env k) s) = clock s).
  { apply (keeps_bind clock); [by apply keeps_fetchStep|].
    intros d. by apply keeps_materializeStep. }
  unfold outcome, exec in *. rewrite update_refresh. unfold refresh, try_catch.
  destruct (attempt env k s) as [[[]|msg] s1] eqn:Ha; simpl in *.
  - split; [done|]. unfold attempt, bind in Ha.
    destruct (fetchStep env k s) as [[d|msg] s0] eqn:Hfetch; [|done].
    pose proof (keeps_fetchStep env clock k ltac:(done) ltac:(done) s) as Hc0.
    unfold exec in Hc0. rewrite Hfetch in Hc0. simpl in Hc0.
    destruct (materializeStep_normal _ _ _ _ Ha) as (s2 & -> & _).
    eexists. simpl. rewrite lookup_insert_eq. split; [done|]. simpl.
    split; [done|by left].
  - rewrite (recordError_run env _ _ _ Hf). simpl. split; [done|].
    eexists. rewrite lookup_insert_eq. split; [done|]. simpl.
    split; [done|by right].
Qed.

(** X19. A manual update of one kind touches nothing that belongs to
    another kind: cache row, status row, document, time of the last fetch
    and the numbers of requests and materialisations of every other kind
    are as before. *)
Theorem manual_update_leaves_other_kinds (j k : FeedKind) (s : State) :
  j <> k ->
  view j (exec (manualUpdate env (Some (feedType k))) s) = view j s.
Proof.
  intros Hjk.
  assert (manualUpdate env (Some (feedType k)) = update env k) as ->
    by by destruct k.
  apply keeps_update, untouched_view. congruence.
Qed.

(** X20. A manual update of a name that is none of the three kinds is
    refused before anything is done: it throws [Unknown feed type] and
    the world is as it was. *)
Theorem manual_update_refuses_unknown_kind (feedType : string) (s : State) :
  feedType <> "" -> isFeedType feedType = false ->
  manualUpdate env (Some feedType) s = (Throw ("Unknown feed type: " +:+ feedType), s).
Proof.
  intros H0 H. unfold isFeedType in H. cbn [existsb] in H.
  apply orb_false_iff in H as [H1 H].
  apply orb_false_iff in H as [H2 H].
  apply orb_false_iff in H as [H3 _].
  apply manualUpdate_unknown; [done|..];
    intros ->; by rewrite String.eqb_refl in *.
Qed.

(** *** Stopping and starting *)

Lemma stop_tasks (js : list (string * nat)) (s : State) :
  forEachM (fun '(name, job) => set_running false job) js s
  = (Normal tt,
     foldl (fun s0 nj =>
              set_cron (alter (fun t => CronTask (pattern t) false) nj.2 (cron s0)) s0)
           s js).
Proof.
  revert s. induction js as [|[name job] js IH]; intros s; [done|].
  cbn [forEachM foldl]. unfold bind at 1, set_running at 1, modify. by rewrite IH.
Qed.

Lemma stopped_stays_stopped (js : list (string * nat)) (s : State) (i : nat) :
  (forall t, cron s !! i = Some t -> running t = false) ->
  forall t, cron (foldl (fun s0 nj =>
                set_cron (alter (fun t => CronTask (pattern t) false) nj.2 (cron s0)) s0)
              s js) !! i = Some t -> running t = false.
Proof.
  revert s. induction js as [|[name job] js IH]; intros s H; [done|].
  cbn [foldl]. apply IH. simpl. intros t.
  rewrite list_lookup_alter. destruct (decide (job = i)) as [->|Hne].
  - destruct (cron s !! i); simpl; [by intros [= <-]|done].
  - apply H.
Qed.

Lemma stop_tasks_stops (js : list (string * nat)) (s : State) (name : string)
    (job : nat) :
  (name, job) ∈ js ->
  forall t, cron (foldl (fun s0 nj =>
                set_cron (alter (fun t => CronTask (pattern t) false) nj.2 (cron s0)) s0)
              s js) !! job = Some t -> running t = false.
Proof.
  revert s. induction js as [|[name' job'] js IH]; intros s Hin; [by apply elem_of_nil in Hin|].
  apply elem_of_cons in Hin as [[= <- <-]|Hin]; [|by apply IH].
  cbn [foldl]. apply stopped_stays_stopped. simpl. intros t.
  rewrite list_lookup_alter. destruct (decide (job = job)); [|done].
  destruct (cron s !! job); simpl; [by intros [= <-]|done].
Qed.

Lemma stop_tasks_keeps {T} (V : State -> T) (js : list (string * nat)) (s : State) :
  (forall c s0, V (set_cron c s0) = V s0) ->
  V (foldl (fun s0 nj =>
              set_cron (alter (fun t => CronTask (pattern t) false) nj.2 (cron s0)) s0)
           s js) = V s.
Proof.
  intros HV. revert s. induction js as [|nj js IH]; intros s; [done|].
  cbn [foldl]. by rewrite IH.
Qed.

(** X21. [stop()] leaves the scheduler stopped: the job map is empty, no
    job is reported active, every task the map held is stopped, and the
    cache, the status rows and the documents are as they were. *)
Theorem stop_stops_the_jobs_it_holds (s : State) :
  outcome stop s = Normal tt /\
  isRunning (exec stop s) = false /\
  activeJobs (exec stop s) = [] /\
  (forall name job t,
      jobs s !! name = Some job ->
      cron (exec stop s) !! job = Some t -> running t = false) /\
  feed_cache (exec stop s) = feed_cache s /\
  feed_metadata (exec stop s) = feed_metadata s /\
  feeds (exec stop s) = feeds s.
Proof.
  unfold outcome, exec, stop, bind, gets. rewrite stop_tasks. simpl.
  unfold isRunning, activeJobs. simpl.
  rewrite map_to_list_empty. repeat split; try (by apply (stop_tasks_keeps _)).
  intros name job t Hjob.
  apply (stop_tasks_stops _ _ name). by apply elem_of_map_to_list.
Qed.

(** X22. The recurrence has a floor of one minute: with a fetch frequency
    below two minutes, zero and negative ones included, [start()]
    schedules and starts a task with the pattern [*/1 * * * *]. *)
Theorem start_schedules_at_least_every_minute (s : State) :
  fetchFrequency s < 120000 ->
  cron (exec (start env) s) = push (CronTask "*/1 * * * *" true) (cron s).
Proof.
  intros H. rewrite start_cron.
  assert (Z.max 1 (fetchFrequency s / 60000) = 1) as ->; [|done].
  assert (fetchFrequency s / 60000 <= 1); [|lia].
  apply Z.lt_succ_r. apply Z.div_lt_upper_bound; lia.
Qed.

End MoreScheduler.

(** ** The status page and the routes *)

Section MoreServing.
Context {R : Runtime} (env : Env).

(** X23. [GET /status] never answers 500: [getStatus] catches the failure
    of the statistics itself, so the route always sends the status page
    and changes nothing.  The page reports the scheduler as it is; its
    database part is the statistics, with one entry per row of each
    table, exactly when both tables can be read, and the message of the
    first read that fails otherwise. *)
Theorem status_page_never_fails (base : string) (s : State) :
  exists st feedUrls,
    GET_status env base s
    = (Normal (SendStatus st ["calendar"; "notification"; "queue"] feedUrls), s) /\
    st_isRunning st = isRunning s /\
    st_fetchFrequency st = fetchFrequency s /\
    st_lastFetchTimes st = lastFetchTimes s /\
    st_activeJobs st = activeJobs s /\
    match st_database st with
    | inl stats =>
        fault env MetaRead "" = None /\ fault env CacheRead "" = None /\
        length (stat_feeds stats) = size (feed_metadata s) /\
        length (stat_cache stats) = size (feed_cache s) /\
        totalCacheEntries stats = size (feed_cache s)
    | inr message =>
        fault env MetaRead "" = Some message \/
        (fault env MetaRead "" = None /\ fault env CacheRead "" = Some message)
    end.
Proof.
  unfold GET_status, getStatus, getStatistics, try_catch, bind, guard, gets.
  destruct (fault env MetaRead "") as [m|] eqn:Hm; simpl.
  { eexists _, _. split; [reflexivity|]. simpl. repeat split. by left. }
  destruct (fault env CacheRead "") as [m|] eqn:Hc; simpl.
  { eexists _, _. split; [reflexivity|]. simpl. repeat split. by right. }
  eexists _, _. split; [reflexivity|]. simpl.
  by rewrite !length_map, !length_map_to_list.
Qed.

(** what a route serves depends on the documents only *)
Lemma GET_feed_feeds (Name feedType : string) (s1 s2 : State) :
  feeds s1 = feeds s2 ->
  outcome (GET_feed env Name feedType) s1 = outcome (GET_feed env Name feedType) s2.
Proof.
  intros H. unfold outcome, GET_feed, try_catch, bind, readFeed, guard, gets.
  destruct (fault env FileRead (feedType +:+ ".xml")); simpl; [done|].
  rewrite H. destruct (feeds s2 !! (feedType +:+ ".xml")) as [text|]; [|done].
  by destruct (String.eqb text "").
Qed.

Lemma GET_feed_state (Name feedType : string) (s : State) :
  exec (GET_feed env Name feedType) s = s.
Proof.
  unfold exec, GET_feed, try_catch, bind, readFeed, guard, gets.
  destruct (fault env FileRead (feedType +:+ ".xml")); simpl; [done|].
  destruct (feeds s !! (feedType +:+ ".xml")) as [text|]; [|done].
  by destruct (String.eqb text "").
Qed.

(** X24. Once a feed is generated, its route serves exactly the document
    the generation returned, with the [max-age] of the configuration, and
    serving changes nothing; before any document of the kind exists the
    route answers 404. *)
Theorem route_serves_the_generated_document (Name : string) (k : FeedKind)
    (d : json) (doc : string) (s : State) :
  fault env FileRead (artifact k) = None ->
  outcome (generate env k d) s = Normal doc ->
  doc <> "" ->
  GET_feed env Name (feedType k) (exec (generate env k d) s)
  = (Normal (SendFeed doc (maxAge env)), exec (generate env k d) s) /\
  (feeds s !! artifact k = None ->
   exists body, GET_feed env Name (feedType k) s = (Normal (SendJson 404 body), s)).
Proof.
  intros Hf Hgen Hdoc.
  assert (Hart : feedType k +:+ ".xml" = artifact k) by by destruct k.
  split.
  - destruct (generate_cases env k d s)
      as [(feed & body & its & _ & _ & _ & _ & Ho & Hw) | (msg & Ho & _)];
      rewrite Ho in Hgen; [|done]. injection Hgen as <-.
    unfold GET_feed, try_catch, bind, readFeed, guard, gets.
    rewrite Hart, Hf. simpl. rewrite Hw, lookup_insert_eq.
    by destruct (String.eqb_spec (xml feed) "").
  - intros Hnone. eexists.
    unfold GET_feed, try_catch, bind, readFeed, guard, gets.
    rewrite Hart, Hf. simpl. by rewrite Hnone.
Qed.

(** X25. [POST /refresh/:feedType] and [DELETE /cache/:feedType] refuse a
    name that is none of the three kinds with 400 before anything is
    done: nothing is cleared, nothing is fetched. *)
Theorem routes_refuse_unknown_kind (feedType : string) (s : State) :
  feedType <> "" -> isFeedType feedType = false ->
  POST_refresh env (Some feedType) s = (Normal invalidFeedType, s) /\
  DELETE_cache env (Some feedType) s = (Normal invalidFeedType, s).
Proof.
  intros Hne Hk. unfold POST_refresh, DELETE_cache, try_catch, given.
  simpl. rewrite Hk. by destruct (String.eqb_spec feedType "").
Qed.

(** X26. [POST /refresh/<kind>] forces a fetch: however fresh the cache
    row of the kind, exactly one request is sent to its endpoint.  The
    route answers 200 whether or not that request succeeds, because the
    update records the failure instead of raising it. *)
Theorem refresh_route_forces_a_fetch (k : FeedKind) (s : State) :
  fault env CacheDelete (feedType k) = None ->
  fault env CacheRead (feedType k) = None ->
  fault env MetaWrite (feedType k) = None ->
  requests k (exec (POST_refresh env (Some (feedType k))) s) = S (requests k s) /\
  outcome (POST_refresh env (Some (feedType k))) s
  = Normal (SendJson 200
              [("message", JStr (feedType k +:+ " feed refreshed successfully"));
               ("timestamp", JNum (clock s))]).
Proof.
  intros Hd Hr Hw.
  assert (Hne : feedType k <> "") by by destruct k.
  assert (Hg : given (Some (feedType k)) && negb (isFeedType (feedType k)) = false)
    by by destruct k.
  assert (Hm : manualUpdate env (Some (feedType k)) = update env k) by by destruct k.
  set (s1 := set_feed_cache (delete (feedType k) (feed_cache s)) s).
  assert (Hmiss : outcome (getCachedFeedData env (feedType k)) s1 = Normal JNull).
  { unfold outcome. rewrite (getCachedFeedData_run _ _ _ Hr). simpl.
    by rewrite lookup_delete_eq. }
  pose proof (miss_requests_once env k JNull s1 Hmiss eq_refl) as Hreq.
  pose proof (update_ends_normally env k s1 Hw) as Hok.
  pose proof (keeps_update env clock k ltac:(by constructor) s1) as Hclock.
  assert (Hrun : POST_refresh env (Some (feedType k)) s
            = (Normal (SendJson 200
                 [("message", JStr (feedType k +:+ " feed refreshed successfully"));
                  ("timestamp", JNum (clock s))]),
               exec (update env k) s1)).
  { unfold POST_refresh, try_catch, outcome, exec in *.
    change (default "" (Some (feedType k))) with (feedType k). rewrite Hg.
    rewrite (bind_normal _ _ _ _ _ (clearCachedFeedData_one_run env _ s Hne Hd)).
    fold s1. rewrite Hm. unfold bind, gets.
    destruct (update env k s1) as [[[]|msg] s2]; simpl in *; [|done].
    rewrite Hclock.
    assert (negb (String.eqb (feedType k) "") = true) as -> by by destruct k.
    done. }
  unfold outcome, exec in *. rewrite Hrun. simpl. split; [|done].
  by rewrite Hreq.
Qed.

Lemma keeps_clearCachedFeedData {T} (V : State -> T) (feedType : option string) :
  (forall c s, V (set_feed_cache c s) = V s) ->
  keeps V (clearCachedFeedData env feedType).
Proof.
  intros HV. unfold clearCachedFeedData.
  destruct feedType as [k|]; [destruct (String.eqb k "")|];
    (apply keeps_bind; [apply keeps_guard|intros _; by apply keeps_modify]).
Qed.

(** X27. [DELETE /cache] empties the store, not the feeds: whatever its
    argument and whether or not it succeeds, every feed route answers
    after it what it answered before, and the status rows are as they
    were. *)
Theorem cache_delete_keeps_the_documents (feedType : option string)
    (Name kind : string) (s : State) :
  outcome (GET_feed env Name kind) (exec (DELETE_cache env feedType) s)
  = outcome (GET_feed env Name kind) s /\
  feed_metadata (exec (DELETE_cache env feedType) s) = feed_metadata s.
Proof.
  assert (H : forall {T} (V : State -> T),
             (forall c s, V (set_feed_cache c s) = V s) ->
             keeps V (DELETE_cache env feedType)).
  { intros T V HV. unfold DELETE_cache. apply keeps_try_catch; [|done].
    destruct (given feedType && negb (isFeedType (default "" feedType))); [done|].
    apply keeps_bind; [by apply keeps_clearCachedFeedData|done]. }
  split; [apply GET_feed_feeds|]; by apply H.
Qed.

End MoreServing.

(** ** The check of the environment *)

Section MoreConfigValidator.

Lemma length_append (a b : string) :
  String.length (a +:+ b) = (String.length a + String.length b)%nat.
Proof.
  induction a as [|c a IH]; [done|].
  rewrite append_cons. simpl. by rewrite IH.
Qed.

Lemma length_substring (s : string) (n m : nat) :
  String.length (substring n m s) = Nat.min m (String.length s - n).
Proof.
  revert n m. induction s as [|c s IH]; intros [|n] [|m]; simpl; try done;
    by rewrite IH, ?Nat.sub_0_r.
Qed.

(** X28. What is shown of a value whose name contains [key] or [secret],
    in any case of letters, does not depend on how long the value is
    beyond eight characters: the mask has eleven characters for a value
    longer than eight, and is [***] otherwise. *)
Theorem mask_has_three_or_eleven_characters (key value : string) :
  ConfigValidator.sensitive key = true ->
  String.length (ConfigValidator.maskSensitive key value)
  = (if (8 <? String.length value)%nat then 11 else 3)%nat /\
  ((String.length value <= 8)%nat ->
   ConfigValidator.maskSensitive key value = "***").
Proof.
  intros Hk. unfold ConfigValidator.maskSensitive. rewrite Hk.
  destruct (Nat.ltb_spec 8 (String.length value)) as [Hlt|Hge].
  - split; [|lia].
    rewrite !length_append, !length_substring. cbn [String.length]. lia.
  - done.
Qed.

(** X29. The check of the environment judges eight variables: each of the
    four required ones counts as failed when it is unset, empty or one of
    the two placeholders and as passed otherwise, the four optional ones
    always pass, and no warning is given.  The other sections of the
    report are not written. *)
Theorem environment_check_tally (penv : gmap string string)
    (r : ConfigValidator.results) :
  let n :=
    length (List.filter (fun key => ConfigValidator.missingOrDefault (penv !! key))
                        ConfigValidator.requiredEnvVars) in
  let before := ConfigValidator.summary_of r in
  let r' := ConfigValidator.validateEnvironment penv r in
  let after := ConfigValidator.summary_of r' in
  ConfigValidator.failed after = (ConfigValidator.failed before + n)%nat /\
  ConfigValidator.passed after = (ConfigValidator.passed before + (8 - n))%nat /\
  ConfigValidator.warnings after = ConfigValidator.warnings before /\
  ConfigValidator.database r' = ConfigValidator.database r /\
  ConfigValidator.targetServer r' = ConfigValidator.targetServer r /\
  ConfigValidator.apiEndpoints r' = ConfigValidator.apiEndpoints r /\
  ConfigValidator.permissions r' = ConfigValidator.permissions r.
Proof.
  unfold ConfigValidator.validateEnvironment, ConfigValidator.requiredEnvVars,
    ConfigValidator.optionalEnvVars.
  cbn [foldl List.filter].
  unfold ConfigValidator.checkRequired, ConfigValidator.checkOptional.
  destruct (ConfigValidator.missingOrDefault (penv !! "SERVER_URL"));
    destruct (ConfigValidator.missingOrDefault (penv !! "SERVER_PORT"));
    destruct (ConfigValidator.missingOrDefault (penv !! "API_KEY"));
    destruct (ConfigValidator.missingOrDefault (penv !! "API_BASE_URL"));
    simpl; repeat split; lia.
Qed.

Lemma environment_checkOptional penv r (envVar : string * string) (key : string) :
  key <> envVar.1 ->
  ConfigValidator.environment (ConfigValidator.checkOptional penv r envVar) !! key
  = ConfigValidator.environment r !! key.
Proof.
  intros H. unfold ConfigValidator.checkOptional. simpl.
  by rewrite lookup_insert_ne.
Qed.

Lemma environment_checkRequired_ne penv r (key' key : string) :
  key <> key' ->
  ConfigValidator.environment (ConfigValidator.checkRequired penv r key') !! key
  = ConfigValidator.environment r !! key.
Proof.
  intros H. unfold ConfigValidator.checkRequired.
  destruct (ConfigValidator.missingOrDefault (penv !! key')); simpl;
    by rewrite lookup_insert_ne.
Qed.

Lemma environment_checkRequired_eq penv r (key : string) :
  ConfigValidator.environment (ConfigValidator.checkRequired penv r key) !! key
  = Some (if ConfigValidator.missingOrDefault (penv !! key)
          then ConfigValidator.Entry "failed" "missing"
          else ConfigValidator.Entry "passed"
                 (ConfigValidator.maskSensitive key (default "" (penv !! key)))).
Proof.
  unfold ConfigValidator.checkRequired.
  destruct (ConfigValidator.missingOrDefault (penv !! key)); simpl;
    by rewrite lookup_insert_eq.
Qed.

(** when the mask of a value is the value *)
Lemma mask_is_the_value (key v : string) :
  ConfigValidator.sensitive key = true ->
  ConfigValidator.maskSensitive key v = v <->
  v = "***" \/ (String.length v = 11%nat /\ substring 4 3 v = "...").
Proof.
  intros Hk. unfold ConfigValidator.maskSensitive. rewrite Hk.
  destruct (Nat.ltb_spec 8 (String.length v)) as [Hlong|Hshort].
  - split.
    + intros Hv. right.
      assert (Hlen : String.length v = 11%nat).
      { rewrite <- Hv at 1. rewrite !length_append, !length_substring.
        cbn [String.length]. lia. }
      clear Hlong.
      do 11 (destruct v as [|? v]; [discriminate Hlen|]; simpl in Hlen).
      destruct v; [|discriminate Hlen].
      split; [done|]. simpl in Hv. injection Hv as -> -> ->. reflexivity.
    + intros [-> | [Hlen Hdots]]; [simpl in Hlong; lia|].
      clear Hlong.
      do 11 (destruct v as [|? v]; [discriminate Hlen|]; simpl in Hlen).
      destruct v; [|discriminate Hlen].
      simpl in Hdots. injection Hdots as -> -> ->. reflexivity.
  - split; [by left|].
    intros [-> | [Hlen _]]; [done|lia].
Qed.

(** X30. The report holds the mask of the API key: the entry of
    [API_KEY] is [failed]/[missing], or [passed] with the mask of the
    value, three or eleven characters long.  What it holds is the key as
    it is set only for a key that is its own mask: the key [***], or a
    key of eleven characters with three dots in the middle. *)
Theorem api_key_is_reported_masked (penv : gmap string string)
    (r : ConfigValidator.results) :
  exists e,
    ConfigValidator.environment (ConfigValidator.validateEnvironment penv r)
      !! "API_KEY" = Some e /\
    ((ConfigValidator.missingOrDefault (penv !! "API_KEY") = true /\
      e = ConfigValidator.Entry "failed" "missing") \/
     (exists v,
         penv !! "API_KEY" = Some v /\
         e = ConfigValidator.Entry "passed"
               (ConfigValidator.maskSensitive "API_KEY" v) /\
         (String.length (ConfigValidator.entry_value e) = 3%nat \/
          String.length (ConfigValidator.entry_value e) = 11%nat) /\
         (ConfigValidator.entry_value e = v <->
          v = "***" \/ (String.length v = 11%nat /\ substring 4 3 v = "...")))).
Proof.
  unfold ConfigValidator.validateEnvironment, ConfigValidator.requiredEnvVars,
    ConfigValidator.optionalEnvVars.
  cbn [foldl]. rewrite !environment_checkOptional by done.
  rewrite environment_checkRequired_ne by done.
  rewrite environment_checkRequired_eq.
  eexists. split; [reflexivity|].
  destruct (ConfigValidator.missingOrDefault (penv !! "API_KEY")) eqn:Hm;
    [by left|right].
  destruct (penv !! "API_KEY") as [v|]; [|done].
  exists v. split; [done|]. split; [done|]. simpl.
  split; [|by apply mask_is_the_value].
  unfold ConfigValidator.maskSensitive.
  change (ConfigValidator.sensitive "API_KEY") with true. cbn iota.
  destruct (Nat.ltb_spec 8 (String.length v)); [right|by left].
  rewrite !length_append, !length_substring. cbn [String.length]. lia.
Qed.

End MoreConfigValidator.

(** ** The theorems at work on examples *)

#[local] Existing Instance Demo.runtime.

Lemma cache_read_hit_iff_fresh_witness :
  fault env_ok CacheRead "calendar" = None /\
  RSS_CACHE_TTL env_ok = Some 600000 /\
  outcome (getCachedFeedData env_ok "calendar")
          (advance 599999 (cached_at 1000)) = Normal calendar_payload /\
  outcome (getCachedFeedData env_ok "calendar")
          (advance 600000 (cached_at 1000)) = Normal JNull /\
  feed_cache (exec (getCachedFeedData env_ok "calendar")
                   (advance 600000 (cached_at 1000))) !! "calendar"
  = Some (CacheRow (Demo.stringify calendar_payload) 1000 1000).
Proof.
  split; [reflexivity|]. split; [reflexivity|].
  pose proof (cache_read_hit_iff_fresh env_ok "calendar"
                (advance 599999 (cached_at 1000)) eq_refl) as Hfresh.
  pose proof (cache_read_hit_iff_fresh env_ok "calendar"
                (advance 600000 (cached_at 1000)) eq_refl) as Hold.
  cbv zeta in Hfresh, Hold.
  destruct Hfresh as [Hhit _]. destruct Hold as [Hstale _].
  split.
  - apply (Hhit (CacheRow (Demo.stringify calendar_payload) 1000 1000));
      vm_compute; reflexivity.
  - apply (Hstale (CacheRow (Demo.stringify calendar_payload) 1000 1000) calendar_payload);
      [vm_compute; reflexivity | vm_compute; reflexivity | vm_compute; discriminate].
Defined.

(** C1 as the specification words it fails: with [RSS_CACHE_TTL=0] the
    configured TTL is 0, no row is younger than that, and yet the read
    of a row that is 599999 ms old returns its payload. *)
Lemma hit_beyond_the_configured_ttl :
  ~ (outcome (getCachedFeedData env_zero_ttl "calendar") (advance 599999 (cached_at 0))
     = Normal calendar_payload
     <-> fresh_as_configured env_zero_ttl (advance 599999 (cached_at 0)) "calendar").
Proof.
  intros [H _].
  destruct H as (row & ttl & Hrow & Httl & Hage); [vm_compute; reflexivity|].
  vm_compute in Hrow. injection Hrow as <-.
  vm_compute in Httl. injection Httl as <-.
  vm_compute in Hage. discriminate Hage.
Qed.

Lemma cache_put_get_roundtrip_witness :
  outcome (setCachedFeedData env_ok "queue" calendar_payload ;;
           modify (advance 599999) ;;
           getCachedFeedData env_ok "queue") (boot env_ok 0) = Normal calendar_payload.
Proof.
  apply (cache_put_get_roundtrip env_ok "queue" calendar_payload 599999);
    [reflexivity | reflexivity | vm_compute; reflexivity | vm_compute; reflexivity].
Defined.

Lemma materialize_empty_witness :
  fault env_ok FileWrite (artifact Calendar) = None /\
  exists feed,
    items feed = [] /\
    feed_title feed = "Calendar Feed" /\
    feed_description feed = "Upcoming movies from calendar" /\
    outcome (generate env_ok Calendar (JArr [])) (boot env_ok 0) = Normal (xml feed) /\
    feeds (exec (generate env_ok Calendar (JArr [])) (boot env_ok 0)) !! "calendar.xml"
    = Some (xml feed).
Proof.
  split; [reflexivity|].
  apply (materialize_empty env_ok Calendar (JArr []) (boot env_ok 0));
    [reflexivity | right; reflexivity].
Defined.

Lemma fetch_failure_recorded_witness :
  outcome (fetchStep env_down Queue) eleven_minutes_later
  = Throw "Request failed with status code 500" /\
  materializations Queue (exec (update env_down Queue) eleven_minutes_later) = 1%nat /\
  is_Some (feeds eleven_minutes_later !! "queue.xml") /\
  outcome (readFeed env_down "queue") (exec (update env_down Queue) eleven_minutes_later)
  = outcome (readFeed env_down "queue") eleven_minutes_later /\
  status <$> feed_metadata eleven_minutes_later !! "queue" = Some "success" /\
  feed_metadata (exec (update env_down Queue) eleven_minutes_later) !! "queue"
  = Some (MetadataRow 660000 (JNum 0) "error"
                      (Some "Request failed with status code 500") 660000).
Proof.
  destruct (fetch_failure_recorded env_down Queue "Request failed with status code 500"
              eleven_minutes_later) as (Hmat & _ & Hread & Hmeta);
    [vm_compute; reflexivity | reflexivity |].
  split; [vm_compute; reflexivity|].
  split; [rewrite Hmat; vm_compute; reflexivity|].
  split; [vm_compute; eauto|].
  split; [exact Hread|].
  split; [vm_compute; reflexivity|].
  exact Hmeta.
Defined.

Lemma failed_refresh_resets_item_count_witness :
  item_count <$> feed_metadata eleven_minutes_later !! "calendar" = Some (JNum 2) /\
  outcome (attempt env_down Calendar) eleven_minutes_later
  = Throw "Request failed with status code 500" /\
  exists row,
    feed_metadata (exec (update env_down Calendar) eleven_minutes_later) !! "calendar"
    = Some row /\
    item_count row = JNum 0 /\ status row = "error".
Proof.
  split; [vm_compute; reflexivity|].
  split; [vm_compute; reflexivity|].
  apply (failed_refresh_resets_item_count env_down Calendar
           "Request failed with status code 500" eleven_minutes_later);
    [vm_compute; reflexivity | reflexivity].
Defined.

(** C2 as the specification words it fails: the row of the calendar is
    one second old and holds the payload the upstream sent, the empty
    string; the cache read returns it, the refresh takes it for a miss
    and sends a second request. *)
Lemma fresh_hit_still_fetches :
  ~ (fresh_entry env_blank after_blank Calendar ->
     requests Calendar (exec (update env_blank Calendar) after_blank)
     = requests Calendar after_blank).
Proof.
  intros H.
  assert (Hfresh : fresh_entry env_blank after_blank Calendar).
  { exists (CacheRow (Demo.stringify (JStr "")) 0 0).
    split; vm_compute; reflexivity. }
  specialize (H Hfresh). vm_compute in H. discriminate H.
Qed.

Lemma truthy_hit_skips_upstream_witness :
  feed_cache (advance 1000 (cached_at 0)) !! "calendar"
  = Some (CacheRow (Demo.stringify calendar_payload) 0 0) /\
  JS.truthy calendar_payload = true /\
  requests Calendar (exec (update env_down Calendar) (advance 1000 (cached_at 0))) = 0%nat /\
  materializations Calendar (exec (update env_down Calendar) (advance 1000 (cached_at 0)))
  = 1%nat.
Proof.
  destruct (truthy_hit_skips_upstream env_down Calendar
              (CacheRow (Demo.stringify calendar_payload) 0 0) calendar_payload
              (advance 1000 (cached_at 0))) as (Hreq & Hmat & _);
    [reflexivity | vm_compute; reflexivity | vm_compute; reflexivity
    | vm_compute; reflexivity | reflexivity |].
  split; [vm_compute; reflexivity|].
  split; [reflexivity|].
  split; [by rewrite Hreq | by rewrite Hmat].
Defined.

(** The example of the specification: the queue document of the record
    with half of its size left has the item title and the progress
    paragraph. *)
Example queue_document_of_half :
  exists doc,
    outcome (generateQueueFeed env_ok (JArr [downloading_half])) (boot env_ok 0)
    = Normal doc /\
    includes doc "<![CDATA[X - downloading]]>" = true /\
    includes doc "<strong>Progress:</strong> 50.0%" = true.
Proof. eexists. split; [vm_compute; reflexivity|]. split; vm_compute; reflexivity. Qed.

(** A cycle in which the calendar endpoint fails: the calendar gets an
    error status and no document, the other two kinds a success status,
    their item count and their document. *)
Example one_kind_down_others_succeed :
  let s := exec (fetchAllFeeds env_calendar_down) (boot env_calendar_down 0) in
  (status <$> feed_metadata s !! "calendar" = Some "error" /\
   feeds s !! "calendar.xml" = None) /\
  (status <$> feed_metadata s !! "notification" = Some "success" /\
   item_count <$> feed_metadata s !! "notification" = Some (JNum 2) /\
   is_Some (feeds s !! "notification.xml")) /\
  (status <$> feed_metadata s !! "queue" = Some "success" /\
   item_count <$> feed_metadata s !! "queue" = Some (JNum 2) /\
   is_Some (feeds s !! "queue.xml")).
Proof. vm_compute. repeat split; eauto. Qed.

(** A cached empty list is truthy, hence a hit: the second refresh sends
    no request. *)
Example cached_empty_list_is_a_hit :
  let s1 := exec (update env_empty Calendar) (boot env_empty 0) in
  let s2 := exec (update env_empty Calendar) (advance 1000 s1) in
  requests Calendar s1 = 1%nat /\ requests Calendar s2 = 1%nat /\
  materializations Calendar s2 = 2%nat.
Proof. vm_compute. repeat split. Qed.

(** Two [start()]s in a row: every firing of the cron pattern then runs
    two cycles. *)
Example two_cycles_per_firing :
  let s2 := exec (start env_ok ;; start env_ok) (boot env_ok 0) in
  let s3 := exec (cron_fire env_ok) (advance 660000 s2) in
  requests Calendar s2 = 1%nat /\
  materializations Calendar s2 = 2%nat /\
  materializations Calendar s3 = 4%nat.
Proof. vm_compute. repeat split. Qed.

(** ** The further properties at work on examples *)

Lemma setCachedFeedData_upserts_one_row_witness :
  feed_cache (exec (setCachedFeedData env_ok "calendar" (JArr []))
                   (advance 5000 (cached_at 1000))) !! "calendar"
  = Some (CacheRow "[]" 1000 6000).
Proof.
  destruct (setCachedFeedData_upserts_one_row env_ok "calendar" (JArr [])
              (advance 5000 (cached_at 1000)) eq_refl) as (Hrow & _).
  rewrite Hrow. vm_compute. reflexivity.
Defined.

Lemma clear_then_read_misses_witness :
  outcome (getCachedFeedData env_ok "calendar") (cached_at 1000)
  = Normal calendar_payload /\
  outcome (clearCachedFeedData env_ok (Some "calendar") ;;
           getCachedFeedData env_ok "calendar") (cached_at 1000) = Normal JNull.
Proof.
  split; [vm_compute; reflexivity|].
  apply (clear_then_read_misses env_ok "calendar" (cached_at 1000));
    [discriminate | reflexivity | reflexivity].
Defined.

Lemma clear_is_idempotent_witness :
  clearCachedFeedData env_ok (Some "queue")
    (exec (clearCachedFeedData env_ok (Some "queue")) (cached_at 1000))
  = (Normal tt, exec (clearCachedFeedData env_ok (Some "queue")) (cached_at 1000)).
Proof.
  apply (clear_is_idempotent env_ok "queue" (cached_at 1000));
    [discriminate | reflexivity].
Defined.

Lemma clear_all_then_every_read_misses_witness :
  outcome (clearCachedFeedData env_ok None ;; getCachedFeedData env_ok "calendar")
          (cached_at 1000) = Normal JNull.
Proof.
  apply (clear_all_then_every_read_misses env_ok "calendar" (cached_at 1000));
    reflexivity.
Defined.

Lemma zero_ttl_means_ten_minutes_witness :
  outcome (getCachedFeedData (Demo.env (Some 0) (fun _ => Normal JNull)) "calendar")
          (advance 599999 (cached_at 0)) = Normal calendar_payload.
Proof.
  apply (zero_ttl_means_ten_minutes (Demo.env (Some 0) (fun _ => Normal JNull))
           "calendar" (CacheRow (Demo.stringify calendar_payload) 0 0)
           calendar_payload (advance 599999 (cached_at 0)));
    [left; reflexivity | reflexivity | vm_compute; reflexivity
    | vm_compute; reflexivity | vm_compute; reflexivity].
Defined.

Lemma negative_ttl_never_hits_witness :
  outcome (getCachedFeedData (Demo.env (Some (-1)) (fun _ => Normal JNull)) "calendar")
          (cached_at 0) = Normal JNull.
Proof.
  apply (negative_ttl_never_hits (Demo.env (Some (-1)) (fun _ => Normal JNull))
           "calendar" (-1) (cached_at 0));
    [reflexivity | lia | reflexivity |].
  intros row Hrow. vm_compute in Hrow. injection Hrow as <-.
  vm_compute. discriminate.
Defined.

Lemma escapeHtml_output_is_inert_witness :
  has_special "&lt;b&gt;Tom &amp; &quot;Jerry&quot;&lt;/b&gt;" = false.
Proof.
  apply (escapeHtml_output_is_inert
           (JStr ("<b>Tom & " +:+ String JS.dquote ("Jerry" +:+ String JS.dquote "</b>")))).
  vm_compute. reflexivity.
Defined.

Lemma escapeHtml_keeps_plain_text_witness :
  escapeHtml (JStr "A great test movie") = Normal "A great test movie".
Proof. apply (escapeHtml_keeps_plain_text "A great test movie"). reflexivity. Defined.


Lemma one_item_per_record_witness :
  exists doc feed,
    outcome (generate env_ok Calendar calendar_payload) (boot env_ok 0) = Normal doc /\
    doc = xml feed /\
    feed_title feed = "Calendar Feed" /\
    length (items feed) = 2%nat.
Proof.
  assert (H : exists doc,
             outcome (generate env_ok Calendar calendar_payload) (boot env_ok 0)
             = Normal doc)
    by (vm_compute; eexists; reflexivity).
  destruct H as [doc H]. exists doc.
  destruct (one_item_per_record env_ok Calendar _ doc (boot env_ok 0) H)
    as (feed & Hdoc & Htitle & Hlen & _).
  exists feed. repeat split; assumption.
Defined.

Lemma null_record_fails_the_feed_witness :
  (exists msg,
      outcome (generate env_ok Notification (JArr [JObj [("id", JNum 1)]; JNull]))
              (boot env_ok 0) = Throw msg) /\
  feeds (exec (generate env_ok Notification (JArr [JObj [("id", JNum 1)]; JNull]))
              (boot env_ok 0)) = feeds (boot env_ok 0).
Proof.
  apply (null_record_fails_the_feed env_ok Notification
           [JObj [("id", JNum 1)]; JNull] (boot env_ok 0)).
  simpl. right. left. reflexivity.
Defined.

Lemma movie_categories_are_at_most_five_witness :
  let categories :=
    [JStr "Movie"; JStr "announced"; JStr "Action"; JStr "Adventure"; JStr "Sci-Fi"] in
  head categories = Some (JStr "Movie") /\ (length categories <= 5)%nat.
Proof.
  apply (movie_categories_are_at_most_five
           (JObj [("status", JStr "announced");
                  ("genres", JArr [JStr "Action"; JStr "Adventure"; JStr "Sci-Fi";
                                   JStr "Thriller"])])).
  vm_compute. reflexivity.
Defined.

Lemma progress_is_a_percentage_witness :
  exists n,
    0 <= n <= 1000 /\
    progress (JNum 80) (JNum 29) = pretty (n / 10) +:+ "." +:+ pretty (n mod 10).
Proof. apply (progress_is_a_percentage 80 29); [lia | reflexivity]. Defined.

(** 51 of 80 is 63.75 percent; the quotient computed on doubles is a
    little below that, and is printed as 63.7 *)
Example progress_rounds_the_double :
  progress (JNum 80) (JNum 29) = "63.7".
Proof. vm_compute. reflexivity. Qed.

Lemma miss_fetches_once_and_caches_witness :
  requests Calendar (exec (update env_ok Calendar) (boot env_ok 0)) = 1%nat /\
  feed_cache (exec (update env_ok Calendar) (boot env_ok 0)) !! "calendar"
  = Some (CacheRow (Demo.stringify calendar_payload) 0 0).
Proof.
  destruct (miss_fetches_once_and_caches env_ok Calendar JNull calendar_payload
              (boot env_ok 0)) as [Hreq Hrow];
    [vm_compute; reflexivity | reflexivity | intros; reflexivity | reflexivity |].
  split; [exact Hreq|]. etrans; [exact Hrow|]. vm_compute. reflexivity.
Defined.

Lemma successful_refresh_records_success_witness :
  feed_metadata (exec (update env_ok Queue) (boot env_ok 7)) !! "queue"
  = Some (MetadataRow 7 (JNum 2) "success" None 7) /\
  lastFetchTimes (exec (update env_ok Queue) (boot env_ok 7)) !! "queue" = Some 7 /\
  is_Some (feeds (exec (update env_ok Queue) (boot env_ok 7)) !! "queue.xml").
Proof.
  apply (successful_refresh_records_success env_ok Queue
           [JObj [("id", JNum 1); ("title", JStr "Test Movie 1"); ("year", JNum 2023)];
            JObj [("id", JNum 2); ("title", JStr "Test Movie 2"); ("year", JNum 2024)]]
           (boot env_ok 7));
    vm_compute; reflexivity.
Defined.

Lemma refresh_always_records_a_status_witness :
  outcome (update env_down Notification) (boot env_down 3) = Normal tt /\
  exists row,
    feed_metadata (exec (update env_down Notification) (boot env_down 3))
      !! "notification" = Some row /\
    meta_updated_at row = 3 /\
    (status row = "success" \/ status row = "error").
Proof.
  apply (refresh_always_records_a_status env_down Notification (boot env_down 3)).
  reflexivity.
Defined.

Lemma manual_update_leaves_other_kinds_witness :
  view Calendar (exec (manualUpdate env_down (Some "queue")) eleven_minutes_later)
  = view Calendar eleven_minutes_later.
Proof.
  apply (manual_update_leaves_other_kinds env_down Calendar Queue eleven_minutes_later).
  discriminate.
Defined.

Lemma manual_update_refuses_unknown_kind_witness :
  manualUpdate env_ok (Some "invalid") (boot env_ok 0)
  = (Throw "Unknown feed type: invalid", boot env_ok 0).
Proof.
  apply (manual_update_refuses_unknown_kind env_ok "invalid" (boot env_ok 0));
    [discriminate | reflexivity].
Defined.

Lemma start_schedules_at_least_every_minute_witness :
  cron (exec (start env_empty) (MkState 0 ∅ ∅ ∅ [] [] ∅ ∅ 30000))
  = [CronTask "*/1 * * * *" true].
Proof.
  apply (start_schedules_at_least_every_minute env_empty
           (MkState 0 ∅ ∅ ∅ [] [] ∅ ∅ 30000)).
  reflexivity.
Defined.

Lemma route_serves_the_generated_document_witness :
  (exists body, GET_calendar env_ok (boot env_ok 0) = (Normal (SendJson 404 body), boot env_ok 0)) /\
  exists doc,
    outcome (generate env_ok Calendar calendar_payload) (boot env_ok 0) = Normal doc /\
    outcome (GET_calendar env_ok)
            (exec (generate env_ok Calendar calendar_payload) (boot env_ok 0))
    = Normal (SendFeed doc (600000, 1000)).
Proof.
  assert (H : exists doc,
             outcome (generate env_ok Calendar calendar_payload) (boot env_ok 0)
             = Normal doc /\ doc <> "")
    by (vm_compute; eexists; split; [reflexivity|discriminate]).
  destruct H as (doc & Hgen & Hdoc).
  destruct (route_serves_the_generated_document env_ok "Calendar" Calendar
              calendar_payload doc (boot env_ok 0) eq_refl Hgen Hdoc)
    as [Hserved Habsent].
  split; [apply Habsent; reflexivity|].
  exists doc. split; [assumption|].
  unfold GET_calendar, outcome. change "calendar" with (feedType Calendar).
  rewrite Hserved. reflexivity.
Defined.

Lemma refresh_route_forces_a_fetch_witness :
  outcome (getCachedFeedData env_down "calendar") (advance 1000 (cached_at 0))
  = Normal calendar_payload /\
  requests Calendar (exec (POST_refresh env_down (Some "calendar"))
                          (advance 1000 (cached_at 0))) = 1%nat /\
  outcome (POST_refresh env_down (Some "calendar")) (advance 1000 (cached_at 0))
  = Normal (SendJson 200
              [("message", JStr "calendar feed refreshed successfully");
               ("timestamp", JNum 1000)]).
Proof.
  split; [vm_compute; reflexivity|].
  apply (refresh_route_forces_a_fetch env_down Calendar (advance 1000 (cached_at 0)));
    reflexivity.
Defined.

Lemma mask_has_three_or_eleven_characters_witness :
  String.length (ConfigValidator.maskSensitive "API_KEY" "0123456789abcdef") = 11%nat /\
  ConfigValidator.maskSensitive "Api_Secret" "12345678" = "***".
Proof.
  split.
  - apply (mask_has_three_or_eleven_characters "API_KEY" "0123456789abcdef").
    reflexivity.
  - apply (mask_has_three_or_eleven_characters "Api_Secret" "12345678");
      [reflexivity | simpl; lia].
Defined.

Lemma routes_refuse_unknown_kind_witness :
  POST_refresh env_ok (Some "movies") (cached_at 0)
  = (Normal invalidFeedType, cached_at 0) /\
  DELETE_cache env_ok (Some "movies") (cached_at 0)
  = (Normal invalidFeedType, cached_at 0).
Proof.
  apply (routes_refuse_unknown_kind env_ok "movies" (cached_at 0));
    [discriminate | reflexivity].
Defined.
